(** * AssetFlow: depreciation, row-level security, maintenance workflow,
      asset forms and the report generator

    A shallow embedding of the parts of the repository that its
    specification makes claims about:

    - the SQL functions [calculate_depreciation] / [calculate_book_value]
      (migrations) and the front-end copies of the book-value formula
      (AssetList, AssetDetails, Dashboard);
    - the row-level-security policies of the migrations;
    - the maintenance status buttons of EnhancedMaintenanceDashboard;
    - the [useful_life_years] field of AssetForm and EditAssetModal;
    - the ai-report-generator edge function;

    and of the code around them: the notification list, the counters of
    the maintenance dashboard, the QR codes, the selects of the edit
    dialog, the uploads of the creation form, the filters of the asset
    list, the location statistics and the PDF and CSV exports of the
    inventory.

    Arithmetic model.  The front-end formulas and the sums of the report
    generator compute on JavaScript numbers, which are IEEE 754 binary64
    values: they are embedded as the primitive floats of the kernel
    ([Double]), so that every evaluation below is the one the code
    performs, rounding included.  Integers that the code reads or counts
    ([parseInt], the counters, day numbers, milliseconds) are kept as
    [Z]; [JS.num] carries them together with [NaN] and the infinities.
    The threshold test of the notification list and the cost of the
    maintenance counters are kept on exact quotients and sums; no fact
    below depends on their rounding.  Postgres [numeric] values are exact
    rationals ([Q]).

    Platform model.  Where the code relies on its platform, the platform
    is embedded as far as the code observes it: [parseInt] and property
    order of JavaScript, the constraint validation of an HTML number
    input, three-valued SQL logic, the resolution of [EXTRACT] by the
    type of its source, the expansion of row-level-security policies by
    the query rewriter, the replies of the chat-completion service.  The
    first part of the file holds the embedding, the second the facts
    proved about it. *)

From Stdlib Require Import ZArith NArith QArith Qminmax Qround Lqa Lia List String
  Ascii Bool.
From Stdlib Require PrimFloat FloatClass Uint63.
From stdpp Require Import gmap strings list.

Local Open Scope Z_scope.

(* ===================================================================== *)
(** * JavaScript numbers *)
(* ===================================================================== *)

Module JS.

(** A JavaScript number: a finite value or one of the three special
    values.  The two zeros are identified; a zero divisor is treated as
    [+0], which is what a JSON integer [0] parses to. *)
Inductive num : Type :=
| Fin (q : Q)
| PInf
| NInf
| NaN.

Definition Qpos_b (q : Q) : bool := negb (Qle_bool q 0).
Definition Qzero_b (q : Q) : bool := Qeq_bool q 0.

(** The infinity with the sign of [q] ([q] non-zero); [flip] negates it. *)
Definition inf_signed (flip : bool) (q : Q) : num :=
  if xorb flip (Qpos_b q) then PInf else NInf.

Definition sub (a b : num) : num :=
  match a, b with
  | NaN, _ | _, NaN => NaN
  | Fin x, Fin y => Fin (x - y)
  | Fin _, PInf => NInf
  | Fin _, NInf => PInf
  | PInf, PInf => NaN
  | PInf, _ => PInf
  | NInf, NInf => NaN
  | NInf, _ => NInf
  end.

Definition mul (a b : num) : num :=
  match a, b with
  | NaN, _ | _, NaN => NaN
  | Fin x, Fin y => Fin (x * y)
  | Fin x, PInf | PInf, Fin x => if Qzero_b x then NaN else inf_signed false x
  | Fin x, NInf | NInf, Fin x => if Qzero_b x then NaN else inf_signed true x
  | PInf, PInf | NInf, NInf => PInf
  | PInf, NInf | NInf, PInf => NInf
  end.

Definition div (a b : num) : num :=
  match a, b with
  | NaN, _ | _, NaN => NaN
  | Fin x, Fin y =>
      if Qzero_b y then (if Qzero_b x then NaN else inf_signed false x)
      else Fin (x / y)
  | Fin _, _ => Fin 0
  | PInf, Fin y => if Qle_bool 0 y then PInf else NInf
  | NInf, Fin y => if Qle_bool 0 y then NInf else PInf
  | _, _ => NaN
  end.

(** The smaller and the larger of two finite values. *)
Definition min_fin (x y : Q) : Q := if Qle_bool x y then x else y.
Definition max_fin (x y : Q) : Q := if Qle_bool x y then y else x.

(** [Math.min] and [Math.max]: [NaN] if an argument is [NaN]. *)
Definition Math_min (a b : num) : num :=
  match a, b with
  | NaN, _ | _, NaN => NaN
  | NInf, _ | _, NInf => NInf
  | PInf, x | x, PInf => x
  | Fin x, Fin y => Fin (min_fin x y)
  end.

Definition Math_max (a b : num) : num :=
  match a, b with
  | NaN, _ | _, NaN => NaN
  | PInf, _ | _, PInf => PInf
  | NInf, x | x, NInf => x
  | Fin x, Fin y => Fin (max_fin x y)
  end.

(** Truthiness of a number, and [a || b]. *)
Definition truthy (a : num) : bool :=
  match a with
  | Fin x => negb (Qzero_b x)
  | NaN => false
  | _ => true
  end.

Definition or (a b : num) : num := if truthy a then a else b.

(** [Number(z)] for an integer. *)
Definition of_Z (z : Z) : num := Fin (inject_Z z).

End JS.

Declare Scope js_scope.
Delimit Scope js_scope with js.
Bind Scope js_scope with JS.num.
Infix "-" := JS.sub : js_scope.
Infix "*" := JS.mul : js_scope.
Infix "/" := JS.div : js_scope.
Infix "||" := JS.or : js_scope.

(* ===================================================================== *)
(** * The depreciation calculator *)
(* ===================================================================== *)

(** A row of [public.assets] with its amounts as the table holds them,
    with a [residual_value] that is not NULL.  [purchase_date] is a
    [DATE]; it is kept as a day number (days since 1970-01-01). *)
Record Asset : Type := {
  purchase_value : Q;
  residual_value : Q;
  useful_life_years : Z;
  purchase_date : Z
}.

(** [new Date(asset.purchase_date).getTime()]: a date-only string is
    midnight UTC of that day, in milliseconds. *)
Definition Date_getTime (day : Z) : Z := day * 86400000.

Module Sql.

(** The outcome of a plpgsql numeric function: a value, or the error
    that aborts the statement that called it: [undefined_function]
    (SQLSTATE 42883) or [division_by_zero] (22012). *)
Inductive result : Type :=
| Ok (v : Q)
| UndefinedFunction
| DivisionByZero.

(** The values of the expressions of the two functions, by SQL type; a
    date is a day number, an interval a number of seconds. *)
Inductive value : Type :=
| Integer (n : Z)
| Numeric (q : Q)
| Date (day : Z)
| Interval (seconds : Q).

Definition LEAST (a b : Q) : Q := if Qle_bool a b then a else b.
Definition GREATEST (a b : Q) : Q := if Qle_bool a b then b else a.

(** [date - date]: the number of days between the two, an [integer]. *)
Definition date_minus (a b : Z) : value := Integer (a - b).

(** [EXTRACT(EPOCH FROM source)].  PostgreSQL has this function for a
    source that is a date, a time, a timestamp or an interval, and casts
    no number to one of these implicitly: on an [integer] or a [numeric]
    the call resolves to no function and the statement is aborted with
    [undefined_function]. *)
Definition EXTRACT_EPOCH (source : value) : result :=
  match source with
  | Date day => Ok (inject_Z (day * 86400))
  | Interval seconds => Ok seconds
  | Integer _ | Numeric _ => UndefinedFunction
  end.

(** [years_passed := EXTRACT(EPOCH FROM (CURRENT_DATE - purchase_date))
                     / (365.25 * 24 * 3600)] *)
Definition years_passed (current_date purchase_date : Z) : result :=
  match EXTRACT_EPOCH (date_minus current_date purchase_date) with
  | Ok epoch => Ok (epoch / (365.25 * 24 * 3600))%Q
  | raised => raised
  end.

(** [annual_depreciation := (purchase_value - residual_value)
                            / useful_life_years], the straight-line rate;
    a zero divisor raises [division_by_zero]. *)
Definition annual_depreciation
    (purchase_value residual_value : Q) (useful_life_years : Z) : result :=
  if useful_life_years =? 0 then DivisionByZero
  else Ok ((purchase_value - residual_value) / inject_Z useful_life_years)%Q.

(** The body of [calculate_depreciation], statement by statement; the
    first error ends it. *)
Definition calculate_depreciation
    (purchase_value residual_value : Q) (useful_life_years : Z)
    (purchase_date current_date : Z) : result :=
  match years_passed current_date purchase_date with
  | Ok years =>
      match annual_depreciation purchase_value residual_value
              useful_life_years with
      | Ok annual =>
          let total_depreciation :=
            (annual * LEAST years (inject_Z useful_life_years))%Q in
          Ok (GREATEST 0 total_depreciation)
      | raised => raised
      end
  | raised => raised
  end.

Definition calculate_book_value
    (purchase_value residual_value : Q) (useful_life_years : Z)
    (purchase_date current_date : Z) : result :=
  match calculate_depreciation purchase_value residual_value
          useful_life_years purchase_date current_date with
  | Ok depreciation => Ok (purchase_value - depreciation)%Q
  | raised => raised
  end.

End Sql.

(** JavaScript numbers as the front end computes with them: binary64
    values with the arithmetic of IEEE 754, round to nearest, ties to
    even. *)
Module Double.

Import PrimFloat.
Local Open Scope float_scope.

Definition is_nan (x : float) : bool := negb (x =? x).

(** [Math.min] and [Math.max]: [NaN] if an argument is [NaN]; of the two
    zeros, [-0] is the smaller. *)
Definition Math_min (a b : float) : float :=
  if orb (is_nan a) (is_nan b) then nan
  else if a <? b then a
  else if b <? a then b
  else match classify a with
       | FloatClass.PZero => b
       | _ => a
       end.

Definition Math_max (a b : float) : float :=
  if orb (is_nan a) (is_nan b) then nan
  else if a <? b then b
  else if b <? a then a
  else match classify a with
       | FloatClass.NZero => b
       | _ => a
       end.

(** Truthiness of a number ([0], [-0] and [NaN] are falsy), and
    [a || b]. *)
Definition truthy (a : float) : bool := negb (orb (is_nan a) (a =? 0)).

Definition or (a b : float) : float := if truthy a then a else b.

(** The number an integer denotes, for an integer of magnitude below
    2^63; it is exact below 2^53, which covers every time value. *)
Definition of_Z (z : Z) : float :=
  match z with
  | Z0 => 0
  | Zpos _ => of_uint63 (Uint63.of_Z z)
  | Zneg p => - of_uint63 (Uint63.of_Z (Zpos p))
  end.

End Double.

(** The rows of [assets] as the front end receives them: the numbers of
    the JSON response are doubles; [residual_value] is not null;
    [purchase_date], a date string, is kept as a day number. *)
Module Json.

Record Asset : Type := {
  purchase_value : PrimFloat.float;
  residual_value : PrimFloat.float;
  useful_life_years : PrimFloat.float;
  purchase_date : Z
}.

End Json.

(** AssetList.tsx, first component: [calculateBookValue]. [now] is
    [new Date().getTime()]. *)
Module AssetList.

Import PrimFloat.
Local Open Scope float_scope.

Definition calculateBookValue (asset : Json.Asset) (now : Z) : float :=
  let purchaseDate := Date_getTime (Json.purchase_date asset) in
  let yearsPassed :=
    (Double.of_Z now - Double.of_Z purchaseDate)
    / (365.25 * 24 * 3600 * 1000) in
  let annualDepreciation :=
    (Json.purchase_value asset - Json.residual_value asset)
    / Json.useful_life_years asset in
  let totalDepreciation :=
    annualDepreciation
    * Double.Math_min yearsPassed (Json.useful_life_years asset) in
  let bookValue := Json.purchase_value asset - totalDepreciation in
  Double.Math_max (Json.residual_value asset) bookValue.

End AssetList.

(** Dashboard: the body of the loop that accumulates [totalDepreciation]
    and [totalBookValue], returning the two summands of one asset. *)
Module Dashboard.

Import PrimFloat.
Local Open Scope float_scope.

Definition assetDepreciation (asset : Json.Asset) (now : Z) : float :=
  let yearsPassed :=
    (Double.of_Z now - Double.of_Z (Date_getTime (Json.purchase_date asset)))
    / (365.25 * 24 * 3600 * 1000) in
  let annualDepreciation :=
    (Json.purchase_value asset - Json.residual_value asset)
    / Json.useful_life_years asset in
  annualDepreciation
  * Double.Math_min yearsPassed (Json.useful_life_years asset).

Definition depreciationSummand (asset : Json.Asset) (now : Z) : float :=
  Double.Math_max 0 (assetDepreciation asset now).

Definition bookValueSummand (asset : Json.Asset) (now : Z) : float :=
  let assetBookValue :=
    Json.purchase_value asset - assetDepreciation asset now in
  Double.Math_max (Json.residual_value asset) assetBookValue.

End Dashboard.

(** AssetDetails.tsx: [calculateBookValue]. *)
Module AssetDetails.

Import PrimFloat.
Local Open Scope float_scope.

Definition calculateBookValue (asset : Json.Asset) (now : Z) : float :=
  let yearsElapsed :=
    (Double.of_Z now - Double.of_Z (Date_getTime (Json.purchase_date asset)))
    / (1000 * 60 * 60 * 24 * 365) in
  let annualDepreciation :=
    (Json.purchase_value asset - Double.or (Json.residual_value asset) 0)
    / Json.useful_life_years asset in
  let totalDepreciation :=
    Double.Math_min
      (annualDepreciation * yearsElapsed)
      (Json.purchase_value asset - Double.or (Json.residual_value asset) 0) in
  Double.Math_max (Json.purchase_value asset - totalDepreciation)
                  (Double.or (Json.residual_value asset) 0).

End AssetDetails.

(** AssetList.tsx, second component: its [calculateBookValue] repeats the
    one of AssetDetails character for character. *)
Module AssetListCards.

Import PrimFloat.
Local Open Scope float_scope.

Definition calculateBookValue (asset : Json.Asset) (now : Z) : float :=
  let yearsElapsed :=
    (Double.of_Z now - Double.of_Z (Date_getTime (Json.purchase_date asset)))
    / (1000 * 60 * 60 * 24 * 365) in
  let annualDepreciation :=
    (Json.purchase_value asset - Double.or (Json.residual_value asset) 0)
    / Json.useful_life_years asset in
  let totalDepreciation :=
    Double.Math_min
      (annualDepreciation * yearsElapsed)
      (Json.purchase_value asset - Double.or (Json.residual_value asset) 0) in
  Double.Math_max (Json.purchase_value asset - totalDepreciation)
                  (Double.or (Json.residual_value asset) 0).

End AssetListCards.

Definition mkAsset (pv rv : Q) (life day : Z) : Asset :=
  {| purchase_value := pv; residual_value := rv;
     useful_life_years := life; purchase_date := day |}.

(** The same row as the front end receives it, for whole amounts. *)
Definition jsonAsset (pv rv life day : Z) : Json.Asset :=
  {| Json.purchase_value := Double.of_Z pv;
     Json.residual_value := Double.of_Z rv;
     Json.useful_life_years := Double.of_Z life;
     Json.purchase_date := day |}.

(* ===================================================================== *)
(** * Row-level security *)
(* ===================================================================== *)

Module Rls.

Definition uuid : Type := string.

(** SQL's three-valued logic: [None] is NULL (unknown). *)
Definition sqlbool : Type := option bool.

Definition sql_eq (a b : option uuid) : sqlbool :=
  match a, b with
  | Some x, Some y => Some (String.eqb x y)
  | _, _ => None
  end.

Definition sql_or (a b : sqlbool) : sqlbool :=
  match a, b with
  | Some true, _ | _, Some true => Some true
  | Some false, Some false => Some false
  | _, _ => None
  end.

Definition is_null {A} (a : option A) : sqlbool :=
  Some (match a with None => true | Some _ => false end).

Definition is_not_null {A} (a : option A) : sqlbool :=
  Some (match a with None => false | Some _ => true end).

(** [x IN (subquery)] where the subquery returns the non-null values
    [ids]. *)
Definition sql_in (x : option uuid) (ids : list uuid) : sqlbool :=
  match x with
  | Some v => Some (existsb (String.eqb v) ids)
  | None => match ids with [] => Some false | _ => None end
  end.

(** A row passes a [USING] expression only when it evaluates to true. *)
Definition passes (b : sqlbool) : bool :=
  match b with Some true => true | _ => false end.

Record Profile : Type := {
  profile_company_id : option uuid;
  profile_department_id : option uuid;
  profile_unit_id : option uuid
}.

Record Department : Type := {
  department_id_ : uuid;
  department_company_id : option uuid
}.

Record Unit_ : Type := {
  unit_id_ : uuid;
  unit_department_id : uuid
}.

Record AssetRow : Type := {
  asset_id_ : uuid;
  asset_department_id : option uuid;
  asset_created_by : option uuid
}.

Record Maintenance : Type := {
  maintenance_id : uuid;
  maintenance_asset_id : uuid;
  maintenance_performed_by : option uuid
}.

Record Disposal : Type := {
  disposal_id : uuid;
  disposal_asset_id : uuid
}.

Record DocumentRow : Type := {
  document_id : uuid;
  document_asset_id : option uuid
}.

(** The tables the policies read.  [profiles.user_id] is [UNIQUE NOT
    NULL], so the table is a map from user id to profile.

    Each policy below is the [USING] expression of the policy that is in
    force for its table and command after the last migration, evaluated
    on one row; its sub-selects are evaluated directly on the tables, the
    policies of the tables they read are not expanded inside them.  (The
    rows of [departments], [profiles] and [assets] a sub-select needs are
    rows the requesting user may read under those policies.) *)
Record Database : Type := {
  profiles : gmap string Profile;
  departments : list Department;
  assets : list AssetRow
}.

(** [auth.uid()]: the id of the signed-in user, NULL for an anonymous
    request. *)
Definition auth_uid : Type := option uuid.

(** [(SELECT company_id FROM profiles WHERE user_id = auth.uid())] *)
Definition user_company_id (db : Database) (uid : auth_uid) : option uuid :=
  match uid with
  | Some u =>
      match profiles db !! u with
      | Some p => profile_company_id p
      | None => None
      end
  | None => None
  end.

(** [SELECT d.id FROM departments d JOIN profiles p
       ON p.company_id = d.company_id WHERE p.user_id = auth.uid()] *)
Definition user_company_departments_join
    (db : Database) (uid : auth_uid) : list uuid :=
  match uid with
  | Some u =>
      match profiles db !! u with
      | Some p =>
          map department_id_
            (List.filter (fun d =>
                       passes (sql_eq (profile_company_id p)
                                      (department_company_id d)))
                    (departments db))
      | None => []
      end
  | None => []
  end.

(** [SELECT id FROM departments WHERE company_id =
       (SELECT company_id FROM profiles WHERE user_id = auth.uid())] *)
Definition user_company_departments
    (db : Database) (uid : auth_uid) : list uuid :=
  map department_id_
    (List.filter (fun d =>
               passes (sql_eq (department_company_id d)
                              (user_company_id db uid)))
            (departments db)).

(** assets, FOR SELECT: "Users can view assets from their company". *)
Definition assets_select (db : Database) (uid : auth_uid) (a : AssetRow)
  : sqlbool :=
  sql_or (sql_in (asset_department_id a)
                 (user_company_departments_join db uid))
         (is_null (asset_department_id a)).

(** assets, FOR UPDATE: "Users can update assets from their company". *)
Definition assets_update (db : Database) (uid : auth_uid) (a : AssetRow)
  : sqlbool :=
  sql_or (sql_in (asset_department_id a)
                 (user_company_departments_join db uid))
         (is_null (asset_department_id a)).

(** departments, FOR SELECT: "Users can view departments from their
    company". *)
Definition departments_select
    (db : Database) (uid : auth_uid) (d : Department) : sqlbool :=
  sql_eq (department_company_id d) (user_company_id db uid).

(** units, FOR SELECT: "Users can view units from their company". *)
Definition units_select (db : Database) (uid : auth_uid) (u : Unit_)
  : sqlbool :=
  sql_in (Some (unit_department_id u)) (user_company_departments db uid).

(** documents, FOR SELECT: "Users can view documents from their company
    assets";  the subquery is
    [SELECT a.id FROM assets a JOIN departments d ON a.department_id = d.id
       JOIN profiles p ON p.company_id = d.company_id
       WHERE p.user_id = auth.uid()]. *)
Definition user_company_assets (db : Database) (uid : auth_uid) : list uuid :=
  match uid with
  | Some u =>
      match profiles db !! u with
      | Some p =>
          flat_map
            (fun a =>
               flat_map
                 (fun d =>
                    if passes (sql_eq (asset_department_id a)
                                      (Some (department_id_ d)))
                       && passes (sql_eq (profile_company_id p)
                                         (department_company_id d))
                    then [asset_id_ a] else [])
                 (departments db))
            (assets db)
      | None => []
      end
  | None => []
  end.

Definition documents_select
    (db : Database) (uid : auth_uid) (doc : DocumentRow) : sqlbool :=
  sql_or (sql_in (document_asset_id doc) (user_company_assets db uid))
         (is_null (document_asset_id doc)).

(** asset_maintenance, FOR SELECT: "Authenticated users can view
    maintenance records", [USING (auth.uid() IS NOT NULL)]. *)
Definition asset_maintenance_select
    (db : Database) (uid : auth_uid) (m : Maintenance) : sqlbool :=
  is_not_null uid.

(** asset_disposal, FOR SELECT: "Authenticated users can view disposal
    records", [USING (auth.uid() IS NOT NULL)]. *)
Definition asset_disposal_select
    (db : Database) (uid : auth_uid) (x : Disposal) : sqlbool :=
  is_not_null uid.

(** The rows of [rows] a [SELECT] returns under a policy. *)
Definition select_rows {Row} (policy : Row -> sqlbool) (rows : list Row)
  : list Row :=
  List.filter (fun r => passes (policy r)) rows.

(** The department an asset id leads to: the [department_id] of the asset
    row with that id. *)
Definition department_of_asset (db : Database) (aid : uuid) : option uuid :=
  match List.find (fun a => String.eqb (asset_id_ a) aid) (assets db) with
  | Some a => asset_department_id a
  | None => None
  end.

(** The company a department id belongs to. *)
Definition company_of_department (db : Database) (did : uuid) : option uuid :=
  match List.find (fun d => String.eqb (department_id_ d) did)
                  (departments db) with
  | Some d => department_company_id d
  | None => None
  end.

(** A two-tenant database: alice works for company A; department
    [dept-b], its unit, its asset, the asset's document, maintenance record
    and disposal record belong to company B. *)
Definition alice : auth_uid := Some "alice"%string.

Definition dept_a : Department :=
  {| department_id_ := "dept-a"; department_company_id := Some "company-a"%string |}.
Definition dept_b : Department :=
  {| department_id_ := "dept-b"; department_company_id := Some "company-b"%string |}.
Definition unit_b : Unit_ :=
  {| unit_id_ := "unit-b"; unit_department_id := "dept-b" |}.
Definition asset_b : AssetRow :=
  {| asset_id_ := "asset-b"; asset_department_id := Some "dept-b"%string;
     asset_created_by := Some "bob"%string |}.
Definition document_b : DocumentRow :=
  {| document_id := "doc-b"; document_asset_id := Some "asset-b"%string |}.
Definition maintenance_b : Maintenance :=
  {| maintenance_id := "maint-b"; maintenance_asset_id := "asset-b";
     maintenance_performed_by := Some "bob"%string |}.
Definition disposal_b : Disposal :=
  {| disposal_id := "disp-b"; disposal_asset_id := "asset-b" |}.

Definition two_tenants : Database :=
  {| profiles :=
       <[ "alice"%string :=
            {| profile_company_id := Some "company-a"%string;
               profile_department_id := Some "dept-a"%string;
               profile_unit_id := None |} ]>
       (<[ "bob"%string :=
            {| profile_company_id := Some "company-b"%string;
               profile_department_id := Some "dept-b"%string;
               profile_unit_id := None |} ]> ∅);
     departments := [dept_a; dept_b];
     assets := [asset_b] |}.

End Rls.

(** How the query rewriter of PostgreSQL applies the policies to a
    statement of a role that is subject to row-level security (the
    [authenticated] and [anon] roles of the front end; the service role
    of the edge functions bypasses it).  The policy expressions of a
    relation are added to the statement, and the relations read by their
    sub-selects get their own SELECT policies in turn; a relation that is
    reached again while its own policies are being expanded aborts the
    statement with SQLSTATE 42P17, "infinite recursion detected in policy
    for relation". *)
Module PolicyExpansion.

Inductive relation : Type :=
| assets
| departments
| units
| profiles
| documents
| companies
| categories
| asset_maintenance
| asset_disposal.

Inductive command : Type :=
| SELECT
| INSERT
| UPDATE
| DELETE.

Definition relation_eqb (a b : relation) : bool :=
  match a, b with
  | assets, assets | departments, departments | units, units
  | profiles, profiles | documents, documents | companies, companies
  | categories, categories | asset_maintenance, asset_maintenance
  | asset_disposal, asset_disposal => true
  | _, _ => false
  end.

(** The relations that the sub-selects of the policies of a relation
    read, by command, for the policies in force after the last migration:
    - assets, SELECT and UPDATE: "Users can view / update assets from
      their company", [departments d JOIN profiles p];
    - departments and companies: [(SELECT company_id FROM profiles ...)];
    - units: [departments WHERE company_id = (SELECT ... FROM profiles)];
    - documents, SELECT: [assets a JOIN departments d JOIN profiles p];
    - profiles, SELECT: "Users can view profiles from their company",
      [(SELECT company_id FROM profiles WHERE user_id = auth.uid())];
    the other policies compare columns with [auth.uid()] only. *)
Definition policy_sublinks (r : relation) (c : command) : list relation :=
  match r, c with
  | assets, (SELECT | UPDATE) => [departments; profiles]
  | departments, _ => [profiles]
  | units, _ => [departments; profiles]
  | documents, SELECT => [assets; departments; profiles]
  | profiles, SELECT => [profiles]
  | companies, (SELECT | UPDATE) => [profiles]
  | _, _ => []
  end.

Inductive expansion : Type :=
| Expanded
| InfiniteRecursion (r : relation)
| OutOfFuel.

(** The policies of [owner], whose sub-selects read [sublinks], are
    expanded while the policies of [activeRIRs] are: policies without a
    sub-select need no expansion; otherwise [owner] must not be active
    already, and every relation the sub-selects read gets its SELECT
    policies expanded with [owner] active. *)
Fixpoint expand_policies (fuel : nat) (activeRIRs : list relation)
    (owner : relation) (sublinks : list relation) : expansion :=
  match sublinks with
  | [] => Expanded
  | _ :: _ =>
      if existsb (relation_eqb owner) activeRIRs then InfiniteRecursion owner
      else
        match fuel with
        | O => OutOfFuel
        | S fuel =>
            fold_left
              (fun done r =>
                 match done with
                 | Expanded =>
                     expand_policies fuel (activeRIRs ++ [owner]) r
                       (policy_sublinks r SELECT)
                 | stopped => stopped
                 end)
              sublinks Expanded
        end
  end.

(** A statement on one relation; [reads_rows] says whether it has a WHERE
    clause or returns rows, in which case the SELECT policies apply to it
    besides the policies of its command. *)
Record statement : Type := {
  target : relation;
  cmd : command;
  reads_rows : bool
}.

Definition security_sublinks (s : statement) : list relation :=
  policy_sublinks (target s) (cmd s) ++
  match cmd s with
  | SELECT => []
  | _ => if reads_rows s then policy_sublinks (target s) SELECT else []
  end.

(** Nine relations: an expansion that has not stopped is less than nine
    policies deep. *)
Definition expand (s : statement) : expansion :=
  expand_policies 9 [] (target s) (security_sublinks s).

(** What a statement comes to: it is aborted, or it runs on the rows its
    policies let through. *)
Inductive outcome (A : Type) : Type :=
| Returned (rows : A)
| Aborted (r : relation).

Arguments Returned {A} rows.
Arguments Aborted {A} r.

Definition run {A} (s : statement) (rows : A) : outcome A :=
  match expand s with
  | Expanded => Returned rows
  | InfiniteRecursion r => Aborted r
  | OutOfFuel => Aborted (target s)
  end.

(** [supabase.from('assets').select(...)] of the user [uid]. *)
Definition select_assets (db : Rls.Database) (uid : Rls.auth_uid)
  : outcome (list Rls.AssetRow) :=
  run {| target := assets; cmd := SELECT; reads_rows := true |}
      (Rls.select_rows (Rls.assets_select db uid) (Rls.assets db)).

(** The rows [supabase.from('assets').update(...).eq('id', ...)] of the
    user [uid] can reach: those that pass the UPDATE and the SELECT
    policy. *)
Definition updatable_assets (db : Rls.Database) (uid : Rls.auth_uid)
  : outcome (list Rls.AssetRow) :=
  run {| target := assets; cmd := UPDATE; reads_rows := true |}
      (Rls.select_rows (Rls.assets_update db uid)
         (Rls.select_rows (Rls.assets_select db uid) (Rls.assets db))).

(** [supabase.from('asset_maintenance').select('*')] of the user
    [uid]. *)
Definition select_asset_maintenance (db : Rls.Database) (uid : Rls.auth_uid)
    (rows : list Rls.Maintenance) : outcome (list Rls.Maintenance) :=
  run {| target := asset_maintenance; cmd := SELECT; reads_rows := true |}
      (Rls.select_rows (Rls.asset_maintenance_select db uid) rows).

End PolicyExpansion.


(* ===================================================================== *)
(** * Maintenance records and their status workflow *)
(* ===================================================================== *)

Module Maintenance.

(** The four values the [status] column admits (its CHECK constraint). *)
Inductive Status : Type :=
| agendada
| em_andamento
| concluida
| cancelada.

Definition Status_eqb (a b : Status) : bool :=
  match a, b with
  | agendada, agendada | em_andamento, em_andamento
  | concluida, concluida | cancelada, cancelada => true
  | _, _ => false
  end.

Inductive MaintenanceType : Type :=
| preventiva
| corretiva
| emergencial.

(** A row of [asset_maintenance]; dates are day numbers. *)
Record MaintenanceItem : Type := {
  asset_id : string;
  description : string;
  scheduled_date : Z;
  status : Status;
  cost : Q;
  maintenance_type : MaintenanceType;
  labor_hours : Q;
  completed_date : option Z
}.

(** What the edit dialog and the creation form send. *)
Record FormData : Type := {
  form_asset_id : string;
  form_description : string;
  form_cost : Q;
  form_labor_hours : Q;
  form_maintenance_type : MaintenanceType;
  form_scheduled_date : Z
}.

(** EnhancedMaintenanceDashboard, the status buttons of one list entry:
    "Iniciar" on a scheduled record, "Concluir" on a record in progress.
    The result lists the [newStatus] arguments of the rendered buttons. *)
Definition status_buttons (s : Status) : list Status :=
  (if Status_eqb s agendada then [em_andamento] else []) ++
  (if Status_eqb s em_andamento then [concluida] else []).

(** [handleStatusChange]: [update(updateData).eq('id', maintenanceId)] with
    [updateData = { status: newStatus }] plus today's [completed_date] when
    the new status is [concluída]. The update itself looks at no current
    status. *)
Definition handleStatusChange
    (table : gmap string MaintenanceItem)
    (maintenanceId : string) (newStatus : Status) (today : Z)
  : gmap string MaintenanceItem :=
  alter (fun r =>
           {| asset_id := asset_id r;
              description := description r;
              scheduled_date := scheduled_date r;
              status := newStatus;
              cost := cost r;
              maintenance_type := maintenance_type r;
              labor_hours := labor_hours r;
              completed_date :=
                if Status_eqb newStatus concluida then Some today
                else completed_date r |})
        maintenanceId table.

(** [handleEditMaintenance]: the edit dialog rewrites description, cost,
    labour hours, type and scheduled date. *)
Definition handleEditMaintenance
    (table : gmap string MaintenanceItem)
    (maintenanceId : string) (formData : FormData)
  : gmap string MaintenanceItem :=
  alter (fun r =>
           {| asset_id := asset_id r;
              description := form_description formData;
              scheduled_date := form_scheduled_date formData;
              status := status r;
              cost := form_cost formData;
              maintenance_type := form_maintenance_type formData;
              labor_hours := form_labor_hours formData;
              completed_date := completed_date r |})
        maintenanceId table.

(** [handleDeleteMaintenance]: [delete().eq('id', maintenanceId)].  (The
    migrations give [asset_maintenance] no DELETE policy; under row-level
    security the statement then removes nothing.  The model lets it remove
    the row, which only adds behaviours.) *)
Definition handleDeleteMaintenance
    (table : gmap string MaintenanceItem) (maintenanceId : string)
  : gmap string MaintenanceItem :=
  delete maintenanceId table.

(** MaintenanceForm, [handleSubmit]: inserts a record with status
    ['agendada'] under the primary key the database generates; an insert
    that would repeat a key is refused. *)
Definition handleSubmit
    (table : gmap string MaintenanceItem) (newId : string)
    (formData : FormData) : gmap string MaintenanceItem :=
  match table !! newId with
  | Some _ => table
  | None =>
      <[newId :=
          {| asset_id := form_asset_id formData;
             description := form_description formData;
             scheduled_date := form_scheduled_date formData;
             status := agendada;
             cost := form_cost formData;
             maintenance_type := form_maintenance_type formData;
             labor_hours := form_labor_hours formData;
             completed_date := None |}]> table
  end.

(** The dashboard in one browser session: the stored table and the list
    on screen, [recentMaintenances], which is what [fetchData] last
    returned.  The model lists every stored record, not only the first
    ten. *)
Record DashboardState : Type := {
  table : gmap string MaintenanceItem;
  recentMaintenances : gmap string MaintenanceItem
}.

(** The dashboard once its first [fetchData] has returned. *)
Definition loaded (t : gmap string MaintenanceItem) : DashboardState :=
  {| table := t; recentMaintenances := t |}.

(** What can happen on the dashboard: a [fetchData] (one is started after
    every change) replaces the list on screen by the current table, or the
    user presses a status button, saves the edit dialog, confirms a
    deletion or submits the creation form; the user may act before the
    list has been fetched again.  [newId] is the key the database
    generates for the new record, one that is not in use. *)
Inductive Action : Type :=
| FetchData
| ClickStatus (maintenanceId : string) (newStatus : Status) (today : Z)
| SaveEdit (maintenanceId : string) (formData : FormData)
| ConfirmDelete (maintenanceId : string)
| SubmitNew (newId : string) (formData : FormData).

(** A status button can be pressed only if it is rendered: the record is
    on screen and the status shown there offers that button. *)
Definition button_rendered
    (screen : gmap string MaintenanceItem)
    (maintenanceId : string) (newStatus : Status) : bool :=
  match screen !! maintenanceId with
  | Some r => existsb (Status_eqb newStatus) (status_buttons (status r))
  | None => false
  end.

Definition with_table (d : DashboardState) (t : gmap string MaintenanceItem)
  : DashboardState :=
  {| table := t; recentMaintenances := recentMaintenances d |}.

Definition perform (d : DashboardState) (act : Action) : DashboardState :=
  match act with
  | FetchData => loaded (table d)
  | ClickStatus maintenanceId newStatus today =>
      if button_rendered (recentMaintenances d) maintenanceId newStatus
      then with_table d
             (handleStatusChange (table d) maintenanceId newStatus today)
      else d
  | SaveEdit maintenanceId formData =>
      with_table d (handleEditMaintenance (table d) maintenanceId formData)
  | ConfirmDelete maintenanceId =>
      with_table d (handleDeleteMaintenance (table d) maintenanceId)
  | SubmitNew newId formData =>
      match recentMaintenances d !! newId with
      | Some _ => d
      | None => with_table d (handleSubmit (table d) newId formData)
      end
  end.

Definition run (d : DashboardState) (acts : list Action) : DashboardState :=
  fold_left perform acts d.

(** The workflow of the specification. *)
Definition transition (s s' : Status) : Prop :=
  (s = agendada /\ s' = em_andamento) \/
  (s = em_andamento /\ s' = concluida) \/
  (s = agendada /\ s' = cancelada) \/
  (s = em_andamento /\ s' = cancelada).

Definition terminal (s : Status) : Prop := s = concluida \/ s = cancelada.

Definition status_at (d : DashboardState) (maintenanceId : string)
  : option Status :=
  status <$> table d !! maintenanceId.

(** The list on screen may lag behind the table, but never so far that
    one of its buttons would leave the workflow: a rendered button writes
    the status the record already has or a successor of it. *)
Definition screen_consistent (d : DashboardState) : Prop :=
  forall id shown stored new,
    recentMaintenances d !! id = Some shown ->
    table d !! id = Some stored ->
    In new (status_buttons (status shown)) ->
    new = status stored \/ transition (status stored) new.

(** A small table: one scheduled and one finished record. *)
Definition new_pump_form : FormData :=
  {| form_asset_id := "pump-7"; form_description := "troca de rolamentos";
     form_cost := 350; form_labor_hours := 4;
     form_maintenance_type := corretiva; form_scheduled_date := 19 |}.

Definition workshop : gmap string MaintenanceItem :=
  <[ "m1"%string :=
       {| asset_id := "pump-7"; description := "lubrificar";
          scheduled_date := 18; status := agendada; cost := 0;
          maintenance_type := preventiva; labor_hours := 1;
          completed_date := None |} ]>
  (<[ "m2"%string :=
       {| asset_id := "pump-7"; description := "reparo do motor";
          scheduled_date := 10; status := concluida; cost := 900;
          maintenance_type := corretiva; labor_hours := 6;
          completed_date := Some 12 |} ]> ∅).

End Maintenance.

(** Several browser sessions on one database: the stored table and, for
    every session, the list on its screen (empty until its first
    [fetchData] returns). *)
Module MaintenanceSessions.

Import Maintenance.

Record Office : Type := {
  stored : gmap string MaintenanceItem;
  screens : gmap string (gmap string MaintenanceItem)
}.


Definition screen (o : Office) (session : string)
  : gmap string MaintenanceItem :=
  default ∅ (screens o !! session).




End MaintenanceSessions.


(* ===================================================================== *)
(** * JavaScript strings, [parseInt] and number inputs *)
(* ===================================================================== *)

Module JSString.

(** A JavaScript string is a sequence of UTF-16 code units. *)
Definition jsstring : Type := list N.

(** An ASCII literal as a JavaScript string. *)
Definition lit (s : string) : jsstring :=
  map N_of_ascii (list_ascii_of_string s).

Definition is_digit (c : N) : bool := (48 <=? c)%N && (c <=? 57)%N.

Definition digit_value (c : N) : Z := Z.of_N c - 48.

(** Hexadecimal digit value, [None] for other code units. *)
Definition hex_value (c : N) : option Z :=
  if is_digit c then Some (Z.of_N c - 48)
  else if (97 <=? c)%N && (c <=? 102)%N then Some (Z.of_N c - 87)
  else if (65 <=? c)%N && (c <=? 70)%N then Some (Z.of_N c - 55)
  else None.

(** The longest prefix of decimal digits and the rest. *)
Fixpoint span_digits (s : jsstring) : jsstring * jsstring :=
  match s with
  | c :: r =>
      if is_digit c then let (d, r') := span_digits r in (c :: d, r')
      else ([], s)
  | [] => ([], [])
  end.

(** The number a sequence of decimal digits denotes. *)
Definition decimal_value (ds : jsstring) : Z :=
  fold_left (fun acc c => acc * 10 + digit_value c) ds 0.

(** The longest prefix of hexadecimal digits, as digit values. *)
Fixpoint span_hex (s : jsstring) : list Z :=
  match s with
  | c :: r =>
      match hex_value c with
      | Some v => v :: span_hex r
      | None => []
      end
  | [] => []
  end.

Definition hex_digits_value (vs : list Z) : Z :=
  fold_left (fun acc v => acc * 16 + v) vs 0.

(** [StrWhiteSpaceChar]: white space and line terminators. *)
Definition is_whitespace (c : N) : bool :=
  existsb (N.eqb c)
    [9; 10; 11; 12; 13; 32; 160; 5760; 8232; 8233; 8239; 8287; 12288;
     65279]%N
  || ((8192 <=? c)%N && (c <=? 8202)%N).

Fixpoint trim_start (s : jsstring) : jsstring :=
  match s with
  | c :: r => if is_whitespace c then trim_start r else s
  | [] => []
  end.

(** [parseInt(string)] with no radix argument: skip white space, read a
    sign, read hexadecimal digits after [0x] / [0X] and decimal digits
    otherwise, stop at the first other code unit; no digit gives NaN.  The
    integer is kept exact.  Code units: [-] 45, [+] 43, [.] 46, [0] 48,
    [x] 120, [X] 88, [e] 101, [E] 69. *)
Definition parse_decimal (s : jsstring) : option Z :=
  match fst (span_digits s) with
  | [] => None
  | ds => Some (decimal_value ds)
  end.

Definition parse_hexadecimal (s : jsstring) : option Z :=
  match span_hex s with
  | [] => None
  | vs => Some (hex_digits_value vs)
  end.

Definition parse_magnitude (s : jsstring) : option Z :=
  match s with
  | c :: x :: r =>
      if (c =? 48)%N && ((x =? 120)%N || (x =? 88)%N)
      then parse_hexadecimal r
      else parse_decimal s
  | _ => parse_decimal s
  end.

Definition signed (negative : bool) (magnitude : option Z) : JS.num :=
  match magnitude with
  | None => JS.NaN
  | Some m => JS.of_Z (if negative then - m else m)
  end.

Definition parseInt (input : jsstring) : JS.num :=
  match trim_start input with
  | c :: r =>
      if (c =? 45)%N then signed true (parse_magnitude r)
      else if (c =? 43)%N then signed false (parse_magnitude r)
      else signed false (parse_magnitude (c :: r))
  | [] => JS.NaN
  end.

(** HTML: a string is a valid floating-point number when it is an optional
    [-], then digits with an optional fraction or a fraction alone, then
    an optional exponent.  The result is the number it denotes. *)
Definition parse_exponent (s : jsstring) : option Z :=
  match s with
  | [] => Some 0
  | c :: r =>
      if (c =? 101)%N || (c =? 69)%N then
        let negative :=
          match r with c' :: _ => (c' =? 45)%N | [] => false end in
        let signed_ :=
          match r with
          | c' :: _ => (c' =? 45)%N || (c' =? 43)%N
          | [] => false
          end in
        match span_digits (if signed_ then tl r else r) with
        | ((_ :: _) as ds, []) =>
            Some (if negative then - decimal_value ds else decimal_value ds)
        | _ => None
        end
      else None
  end.

Definition pow10 (e : Z) : Q :=
  if e <? 0 then (1 # Z.to_pos (10 ^ (- e)))%Q else inject_Z (10 ^ e).

(** Digits with an optional fraction, or a fraction alone; returns the
    value and what follows. *)
Definition parse_mantissa (s : jsstring) : option (Q * jsstring) :=
  let (int_digits, rest) := span_digits s in
  match rest with
  | c :: r =>
      if (c =? 46)%N then
        match span_digits r with
        | ((_ :: _) as frac, rest') =>
            Some ((inject_Z (decimal_value int_digits)
                   + inject_Z (decimal_value frac)
                     * pow10 (- Z.of_nat (length frac)))%Q, rest')
        | _ => None
        end
      else
        match int_digits with
        | [] => None
        | _ => Some (inject_Z (decimal_value int_digits), rest)
        end
  | [] =>
      match int_digits with
      | [] => None
      | _ => Some (inject_Z (decimal_value int_digits), [])
      end
  end.

Definition parse_unsigned (s : jsstring) : option Q :=
  match parse_mantissa s with
  | None => None
  | Some (m, rest) =>
      match parse_exponent rest with
      | None => None
      | Some e => Some (m * pow10 e)%Q
      end
  end.

Definition parse_floating_point (s : jsstring) : option Q :=
  match s with
  | c :: r =>
      if (c =? 45)%N then option_map Qopp (parse_unsigned r)
      else parse_unsigned s
  | [] => None
  end.

(** The state of [<input type="number" min=...>] with the default step:
    what the user has typed into it. *)
Record NumberInput : Type := {
  typed : jsstring;
  min : Q
}.

(** The [value] of the input, which [onChange] copies into the form data:
    the typed text if it is a valid floating-point number, the empty
    string otherwise. *)
Definition value (i : NumberInput) : jsstring :=
  match parse_floating_point (typed i) with
  | Some _ => typed i
  | None => []
  end.

Definition is_integer (q : Q) : bool := Qeq_bool q (inject_Z (Qfloor q)).

(** Constraint validation of the input, which decides whether the browser
    lets the form submit: no bad input, no range underflow, no step
    mismatch (the step is 1 and its base is [min]).  An empty field is
    valid, the input is not [required]. *)
Definition checkValidity (i : NumberInput) : bool :=
  match typed i with
  | [] => true
  | _ =>
      match parse_floating_point (typed i) with
      | None => false
      | Some v => Qle_bool (min i) v && is_integer (v - min i)
      end
  end.

End JSString.

(** What the database does with a number sent for an [INTEGER NOT NULL]
    column: [NaN] and the infinities serialise to JSON [null], which the
    NOT NULL constraint refuses; a fraction and a value outside the
    32-bit range are refused as well. [None] is a refused statement.
    (This is the column alone: whether row-level security lets the
    statement through is a matter of [PolicyExpansion].) *)
Definition store_integer_not_null (n : JS.num) : option Z :=
  match n with
  | JS.Fin q =>
      if JSString.is_integer q
         && (- 2147483648 <=? Qfloor q) && (Qfloor q <=? 2147483647)
      then Some (Qfloor q) else None
  | _ => None
  end.

(** AssetForm.tsx: the "Vida Útil (anos)" field and [handleSubmit]. *)
Module AssetForm.

(** [<Input id="useful_life_years" type="number" min="1" .../>] *)
Definition useful_life_years_input (typed : JSString.jsstring)
  : JSString.NumberInput :=
  {| JSString.typed := typed; JSString.min := 1 |}.

(** [useful_life_years: parseInt(formData.useful_life_years)] of
    [assetData]. *)
Definition assetData_useful_life_years (formData_useful_life_years
                                         : JSString.jsstring) : JS.num :=
  JSString.parseInt formData_useful_life_years.

End AssetForm.

(** EditAssetModal.tsx: [handleSubmit]. *)
Module EditAssetModal.

(** [useful_life_years: parseInt(formData.useful_life_years) || 5] of
    [updatedAsset]. *)
Definition updatedAsset_useful_life_years (formData_useful_life_years
                                            : JSString.jsstring) : JS.num :=
  (JSString.parseInt formData_useful_life_years || JS.of_Z 5)%js.

(** The [useful_life_years] the update writes, [None] when the statement
    is refused. *)
Definition stored_useful_life_years (formData_useful_life_years
                                      : JSString.jsstring) : option Z :=
  store_integer_not_null
    (updatedAsset_useful_life_years formData_useful_life_years).

(** [<Input id="useful_life_years" type="number" min="1" .../>] *)
Definition useful_life_years_input (typed : JSString.jsstring)
  : JSString.NumberInput :=
  {| JSString.typed := typed; JSString.min := 1 |}.

(** Submitting the edit form with the given text in the useful-life
    field: constraint validation, then [handleSubmit]. *)
Definition submit (typed : JSString.jsstring) : option Z :=
  let input := useful_life_years_input typed in
  if JSString.checkValidity input
  then stored_useful_life_years (JSString.value input)
  else None.

End EditAssetModal.


(* ===================================================================== *)
(** * The ai-report-generator edge function *)
(* ===================================================================== *)

Module ReportGenerator.

Import JSString.

(** [s.includes(sub)] *)
Fixpoint starts_with (sub s : jsstring) : bool :=
  match sub, s with
  | [], _ => true
  | a :: sub', b :: s' => (a =? b)%N && starts_with sub' s'
  | _ :: _, [] => false
  end.

Fixpoint includes (s sub : jsstring) : bool :=
  starts_with sub s ||
  match s with
  | [] => false
  | _ :: r => includes r sub
  end.

Definition jsstring_eqb (a b : jsstring) : bool :=
  (length a =? length b)%nat && starts_with a b.

(** [s.trim()] *)
Definition trim (s : jsstring) : jsstring :=
  rev (trim_start (rev (trim_start s))).

(** ** Objects used as dictionaries *)

(** A [Record<string, V>]: the properties in the order they were
    created. *)
Definition Obj (V : Type) : Type := list (jsstring * V).

Fixpoint get {V} (o : Obj V) (k : jsstring) : option V :=
  match o with
  | (k', v) :: r => if jsstring_eqb k' k then Some v else get r k
  | [] => None
  end.

Fixpoint set {V} (o : Obj V) (k : jsstring) (v : V) : Obj V :=
  match o with
  | (k', v') :: r =>
      if jsstring_eqb k' k then (k', v) :: r else (k', v') :: set r k v
  | [] => [(k, v)]
  end.

(** A property name that is an array index (a canonical decimal numeral
    below 2^32 - 1) is enumerated before the other names, in ascending
    numeric order. *)
Definition array_index (k : jsstring) : option Z :=
  match k with
  | [] => None
  | c :: r =>
      if forallb is_digit k
         && (negb (c =? 48)%N || match r with [] => true | _ => false end)
         && (decimal_value k <? 4294967295)
      then Some (decimal_value k) else None
  end.

Fixpoint insert_by_index {V} (i : Z) (e : jsstring * V)
    (l : list (Z * (jsstring * V))) : list (Z * (jsstring * V)) :=
  match l with
  | (j, e') :: r =>
      if i <? j then (i, e) :: l else (j, e') :: insert_by_index i e r
  | [] => [(i, e)]
  end.

Definition Object_entries {V} (o : Obj V) : list (jsstring * V) :=
  let indexed :=
    fold_left (fun acc e =>
                 match array_index (fst e) with
                 | Some i => insert_by_index i e acc
                 | None => acc
                 end) o [] in
  let named :=
    List.filter (fun e => match array_index (fst e) with
                          | Some _ => false
                          | None => true
                          end) o in
  map snd indexed ++ named.

(** ** The tables as the service-role client reads them *)

(** [assets] with the joined [categories (name)]; the numbers of a
    response are doubles. *)
Record AssetRecord : Type := {
  asset_purchase_value : PrimFloat.float;
  asset_status : option jsstring;
  asset_category_name : option jsstring
}.

Record MaintenanceRecord : Type := {
  record_maintenance_type : jsstring;
  record_cost : option PrimFloat.float;
  record_created_at : Z
}.

(** The project's database; a read fails when it is not [reachable]. *)
Record Database : Type := {
  assets : list AssetRecord;
  asset_maintenance : list MaintenanceRecord;
  reachable : bool
}.

Definition select_assets (db : Database) : option (list AssetRecord) :=
  if reachable db then Some (assets db) else None.

(** [.order('created_at', { ascending: false }).limit(50)] *)
Fixpoint insert_newest_first (m : MaintenanceRecord)
    (l : list MaintenanceRecord) : list MaintenanceRecord :=
  match l with
  | m' :: r =>
      if record_created_at m' <? record_created_at m then m :: l
      else m' :: insert_newest_first m r
  | [] => [m]
  end.

Definition select_recent_maintenance (db : Database)
  : option (list MaintenanceRecord) :=
  if reachable db
  then Some (firstn 50
               (fold_left (fun acc m => insert_newest_first m acc)
                          (asset_maintenance db) []))
  else None.

(** [supabase.rpc('execute_sql', { query: sqlQuery })]: the migrations
    define no function of that name (only [calculate_depreciation],
    [calculate_book_value] and the trigger function), so the call comes
    back with an error and runs nothing; the handler reads neither
    [queryResults] nor [queryError]. *)
Inductive RpcResult : Type :=
| RpcError.

Definition rpc_execute_sql (db : Database) (query : jsstring)
  : Database * RpcResult :=
  (db, RpcError).

(** ** The three canned aggregations *)

Record Entry : Type := {
  name : jsstring;
  value : PrimFloat.float;
  total : Z
}.

(** [x || fallback] on a string: the empty string is falsy. *)
Definition or_string (x : option jsstring) (fallback : jsstring) : jsstring :=
  match x with
  | Some ((_ :: _) as s) => s
  | _ => fallback
  end.

(** [x || 0] on a number that may be null. *)
Definition or_zero (x : option PrimFloat.float) : PrimFloat.float :=
  match x with
  | Some v => Double.or v PrimFloat.zero
  | None => PrimFloat.zero
  end.

Section Grouping.

(** The property names every object of the runtime inherits from
    [Object.prototype] ([constructor], [toString], ...; runtimes differ
    on [__proto__]), which the model does not fix.  What they hold are
    functions and objects, so [obj[k]] is truthy for such a name. *)
Variable inherited : jsstring -> bool.

(** The [forEach] loop shared by the three branches: create the group on
    first sight with [{ value: 0, total: 0 }], then add the amount and
    count the row.  For an inherited name [data[k]] is what
    [Object.prototype] holds: no group is created, and the two updates
    write to that function or object, not to [data]. *)
Definition add_row {Row} (group : Row -> jsstring)
    (amount : Row -> PrimFloat.float)
    (data : Obj (PrimFloat.float * Z)) (row : Row)
  : Obj (PrimFloat.float * Z) :=
  let k := group row in
  if inherited k then data
  else
    let data :=
      match get data k with
      | Some _ => data
      | None => set data k (PrimFloat.zero, 0)
      end in
    match get data k with
    | Some (v, t) => set data k (PrimFloat.add v (amount row), t + 1)
    | None => data
    end.

Definition aggregate {Row} (group : Row -> jsstring)
    (amount : Row -> PrimFloat.float) (rows : list Row) : list Entry :=
  map (fun e => {| name := fst e; value := fst (snd e);
                   total := snd (snd e) |})
      (Object_entries (fold_left (add_row group amount) rows [])).

(** The group and the amount of a row in each of the three branches. *)
Definition category_of (asset : AssetRecord) : jsstring :=
  or_string (asset_category_name asset) (lit "Sem categoria").

Definition type_of (maintenance : MaintenanceRecord) : jsstring :=
  or_string (Some (record_maintenance_type maintenance)) (lit "Outro").

Definition status_of (asset : AssetRecord) : jsstring :=
  or_string (asset_status asset) (lit "Indefinido").

Definition purchase_value_of (asset : AssetRecord) : PrimFloat.float :=
  or_zero (Some (asset_purchase_value asset)).

Definition cost_of (maintenance : MaintenanceRecord) : PrimFloat.float :=
  or_zero (record_cost maintenance).

Definition by_category (rows : list AssetRecord) : list Entry :=
  aggregate category_of purchase_value_of rows.

Definition by_maintenance_type (rows : list MaintenanceRecord) : list Entry :=
  aggregate type_of cost_of rows.

Definition by_status (rows : list AssetRecord) : list Entry :=
  aggregate status_of purchase_value_of rows.

End Grouping.

(** The rows of a group, in the order of the response, and what a group
    of a report should say about them: their number, and their amounts
    added one after the other to 0. *)
Definition rows_of {Row} (group : Row -> jsstring) (k : jsstring)
    (rows : list Row) : list Row :=
  List.filter (fun row => jsstring_eqb (group row) k) rows.

Definition amount_of {Row} (amount : Row -> PrimFloat.float)
    (rows : list Row) : PrimFloat.float :=
  fold_left (fun sum row => PrimFloat.add sum (amount row)) rows
            PrimFloat.zero.

(** What the object of a loop holds under the name [k] once the rows
    [rows] have gone through it. *)
Definition expected_group {Row} (inherited : jsstring -> bool)
    (group : Row -> jsstring) (amount : Row -> PrimFloat.float)
    (rows : list Row) (k : jsstring) : option (PrimFloat.float * Z) :=
  if inherited k then None
  else
    match rows_of group k rows with
    | [] => None
    | rs => Some (amount_of amount rs, Z.of_nat (length rs))
    end.

(** [entries] is the grouping of [rows]: one entry for every group name
    among the rows that is not an inherited name, none twice and no
    other, each with the number and the amount of its rows. *)
Definition grouping {Row} (inherited : jsstring -> bool)
    (group : Row -> jsstring) (amount : Row -> PrimFloat.float)
    (rows : list Row) (entries : list Entry) : Prop :=
  NoDup (map name entries) /\
  (forall k, In k (map name entries) <->
             inherited k = false /\ exists row, In row rows /\ group row = k) /\
  (forall e, In e entries ->
             total e = Z.of_nat (length (rows_of group (name e) rows)) /\
             value e = amount_of amount (rows_of group (name e) rows)).

(** ** The request handler *)

Inductive Method : Type :=
| OPTIONS
| POST.

(** The body of a request: not JSON at all, or JSON whose [prompt] is a
    string or is missing. *)
Inductive Body : Type :=
| BodyNotJson
| BodyJson (prompt : option jsstring).

Record Request : Type := {
  method : Method;
  body : Body
}.

(** The reply of the first chat completion, which drafts the SQL. *)
Inductive SqlReply : Type :=
| SqlHttpError (status : Z)
| SqlNoContent
| SqlText (content : jsstring).

(** The reply of the second chat completion, by what the handler can
    observe of it: the response is not ok; its body is not JSON; it has no
    parsable content; the content parses to [null]; the content parses to
    a value whose [title] and [insights] are the given ones (a string and
    a list of strings, if present). *)
Inductive InsightsReply : Type :=
| InsightsHttpError
| InsightsBodyNotJson
| InsightsUnparsable
| InsightsNull
| InsightsValue (title : option jsstring) (insights : option (list jsstring)).

Record Environment : Type := {
  configured : bool;
  database : Database;
  sql_reply : SqlReply;
  insights_reply : InsightsReply
}.

Inductive Failure : Type :=
| NotConfigured
| PromptRequired
| OpenAIError (status : Z)
| Thrown
| QueryError.

Record Report : Type := {
  data : list Entry;
  title : option jsstring;
  insights : option (list jsstring);
  query : jsstring
}.

Inductive Response : Type :=
| Preflight
| Success (report : Report)
| Error500 (error : Failure).

Section Handler.

(** [String.prototype.toLowerCase], which the model does not fix. *)
Variable toLowerCase : jsstring -> jsstring.

(** The inherited property names, as in [add_row]. *)
Variable inherited : jsstring -> bool.

(** "manutenção": ç is U+00E7 and ã is U+00E3. *)
Definition manutencao : jsstring := lit "manuten" ++ [231; 227]%N ++ lit "o".

(** "Relatório de Ativos": ó is U+00F3. *)
Definition default_title : jsstring :=
  lit "Relat" ++ [243]%N ++ lit "rio de Ativos".

(** The [if] / [else if] / [else] that fills [reportData]. *)
Definition reportData (db : Database) (prompt : jsstring)
  : option (list Entry) :=
  if includes (toLowerCase prompt) (lit "categoria")
     || includes (toLowerCase prompt) (lit "category")
  then option_map (by_category inherited) (select_assets db)
  else if includes (toLowerCase prompt) manutencao
          || includes (toLowerCase prompt) (lit "maintenance")
  then option_map (by_maintenance_type inherited)
                  (select_recent_maintenance db)
  else option_map (by_status inherited) (select_assets db).

Definition serve (env : Environment) (req : Request) : Response :=
  match method req with
  | OPTIONS => Preflight
  | POST =>
      if negb (configured env) then Error500 NotConfigured
      else
        match body req with
        | BodyNotJson => Error500 Thrown
        | BodyJson None | BodyJson (Some []) => Error500 PromptRequired
        | BodyJson (Some prompt) =>
            match sql_reply env with
            | SqlHttpError status => Error500 (OpenAIError status)
            | SqlNoContent => Error500 Thrown
            | SqlText content =>
                let sqlQuery := trim content in
                let (db, _) := rpc_execute_sql (database env) sqlQuery in
                match reportData db prompt with
                | None => Error500 QueryError
                | Some reportData =>
                    match insights_reply env with
                    | InsightsBodyNotJson | InsightsNull => Error500 Thrown
                    | InsightsHttpError | InsightsUnparsable =>
                        Success
                          {| data := reportData;
                             title := Some default_title;
                             insights :=
                               Some [lit "Dados processados com sucesso"];
                             query := sqlQuery |}
                    | InsightsValue title insights =>
                        Success
                          {| data := reportData;
                             title := title;
                             insights := insights;
                             query := sqlQuery |}
                    end
                end
            end
        end
  end.

End Handler.

(** The [data] of a response, if it carries a report. *)
Definition response_data (r : Response) : option (list Entry) :=
  match r with
  | Success report => Some (data report)
  | _ => None
  end.

(** The environment [env] with the drafted SQL replaced. *)
Definition with_sql (env : Environment) (content : jsstring) : Environment :=
  {| configured := configured env;
     database := database env;
     sql_reply := SqlText content;
     insights_reply := insights_reply env |}.

(** Lower-casing of the ASCII letters, a stand-in for [toLowerCase] on
    ASCII prompts. *)
Definition ascii_lower (s : jsstring) : jsstring :=
  map (fun c => if (65 <=? c)%N && (c <=? 90)%N then (c + 32)%N else c) s.

Definition fleet : Database :=
  {| assets :=
       [ {| asset_purchase_value := Double.of_Z 1200;
            asset_status := Some (lit "active");
            asset_category_name := Some (lit "TI") |};
         {| asset_purchase_value := Double.of_Z 800;
            asset_status := Some (lit "active");
            asset_category_name := None |};
         {| asset_purchase_value := Double.of_Z 50000;
            asset_status := Some (lit "maintenance");
            asset_category_name := Some (lit "TI") |} ];
     asset_maintenance :=
       [ {| record_maintenance_type := lit "preventiva";
            record_cost := Some (Double.of_Z 150); record_created_at := 3 |};
         {| record_maintenance_type := lit "corretiva";
            record_cost := None; record_created_at := 5 |} ];
     reachable := true |}.

Definition office : Environment :=
  {| configured := true;
     database := fleet;
     sql_reply := SqlText (lit " SELECT 1; ");
     insights_reply := InsightsUnparsable |}.

End ReportGenerator.


(* ===================================================================== *)
(** * The notification list *)
(* ===================================================================== *)

(** NotificationSystem: the two checks that run when the component mounts
    and every five minutes after that, and the handlers of the list. *)
Module NotificationSystem.

Import JSString.

Inductive NotificationType : Type :=
| info
| warning
| success
| error.

(** [created_at] is kept as the reading of the clock. *)
Record Notification : Type := {
  id : string;
  title : jsstring;
  message : jsstring;
  type : NotificationType;
  read : bool;
  created_at : Z;
  asset_id : option string;
  maintenance_id : option string
}.

(** A row of [asset_maintenance] as the first check selects it:
    [id, scheduled_date, status, assets(name)]; the joined asset may be
    missing. *)
Record MaintenanceRow : Type := {
  row_id : string;
  row_scheduled_date : Z;
  row_status : Maintenance.Status;
  row_assets_name : option jsstring
}.

Inductive AssetStatus : Type :=
| active
| maintenance
| inactive
| disposed.

(** A row of [assets] as the second check reads it. *)
Record AssetRow : Type := {
  asset_row_id : string;
  asset_row_name : jsstring;
  asset_row_status : option AssetStatus;
  asset_row : Asset
}.

(** [a > b] on numbers. *)
Definition gt (a b : JS.num) : bool :=
  match a, b with
  | JS.NaN, _ | _, JS.NaN => false
  | JS.Fin x, JS.Fin y => negb (Qle_bool x y)
  | JS.PInf, JS.PInf => false
  | JS.PInf, _ => true
  | _, JS.PInf => false
  | JS.NInf, _ => false
  | JS.Fin _, JS.NInf => true
  end.

(** The updater both checks hand to [setNotifications]: keep [prev] and
    append the notifications of the batch whose id is not in [prev]. *)
Definition add_new (batch prev : list Notification) : list Notification :=
  let existingIds := map id prev in
  let newNotifications :=
    List.filter (fun n => negb (existsb (String.eqb (id n)) existingIds))
                batch in
  prev ++ newNotifications.

(** [.eq('status', 'agendada').lt('scheduled_date', today)] *)
Definition overdue_rows (table : list MaintenanceRow) (today : Z)
  : list MaintenanceRow :=
  List.filter (fun m =>
                 Maintenance.Status_eqb (row_status m) Maintenance.agendada
                 && (row_scheduled_date m <? today))
              table.

(** [.eq('status', 'active')] *)
Definition active_rows (table : list AssetRow) : list AssetRow :=
  List.filter (fun a => match asset_row_status a with
                        | Some active => true
                        | _ => false
                        end)
              table.

(** The filter of [checkDepreciationAlerts]: more than 80% of the useful
    life has passed.  The threshold is the decimal 0.8 (the double the
    literal denotes differs from it by less than 1e-16). *)
Definition depreciation_alert (asset : Asset) (now : Z) : bool :=
  let yearsOld :=
    (JS.of_Z (now - Date_getTime (purchase_date asset))
     / JS.Fin (365.25 * 24 * 60 * 60 * 1000))%js in
  let depreciationRate := (yearsOld / JS.of_Z (useful_life_years asset))%js in
  gt depreciationRate (JS.Fin 0.8).

Section Checks.

(** [new Date(d).toLocaleDateString('pt-BR')], which the model does not
    fix. *)
Variable toLocaleDateString : Z -> jsstring.

(** The text of a missing [assets?.name] in a template literal. *)
Definition name_or_undefined (name : option jsstring) : jsstring :=
  match name with
  | Some s => s
  | None => lit "undefined"
  end.

(** Code units: the quotation mark is 34, ç 231, ã 227, á 225. *)
Definition overdueNotification (now : Z) (maintenance : MaintenanceRow)
  : Notification :=
  {| id := String.append "overdue-" (row_id maintenance);
     title := lit "Manuten" ++ [231; 227]%N ++ lit "o em Atraso";
     message :=
       lit "Manuten" ++ [231; 227]%N ++ lit "o do ativo " ++ [34]%N
       ++ name_or_undefined (row_assets_name maintenance) ++ [34]%N
       ++ lit " est" ++ [225]%N ++ lit " atrasada desde "
       ++ toLocaleDateString (row_scheduled_date maintenance);
     type := warning;
     read := false;
     created_at := now;
     asset_id := None;
     maintenance_id := Some (row_id maintenance) |}.

Definition depreciationNotification (now : Z) (asset : AssetRow)
  : Notification :=
  {| id := String.append "depreciation-" (asset_row_id asset);
     title := lit "Ativo Altamente Depreciado";
     message :=
       lit "O ativo " ++ [34]%N ++ asset_row_name asset ++ [34]%N
       ++ lit " est" ++ [225]%N ++ lit " com alta deprecia" ++ [231; 227]%N
       ++ lit "o. Considere substitui" ++ [231; 227]%N ++ lit "o.";
     type := info;
     read := false;
     created_at := now;
     asset_id := Some (asset_row_id asset);
     maintenance_id := None |}.

(** [checkOverdueMaintenance]: [table] is the content of
    [asset_maintenance], [None] when the query fails (the error is logged
    and the list stays); [today] is the current date and [now] the
    reading of the clock, one for the whole batch. *)
Definition checkOverdueMaintenance
    (table : option (list MaintenanceRow)) (today now : Z)
    (notifications : list Notification) : list Notification :=
  match table with
  | None => notifications
  | Some table =>
      match overdue_rows table today with
      | [] => notifications
      | maintenances =>
          add_new (map (overdueNotification now) maintenances) notifications
      end
  end.

(** [checkDepreciationAlerts], in the same way. *)
Definition checkDepreciationAlerts
    (table : option (list AssetRow)) (now : Z)
    (notifications : list Notification) : list Notification :=
  match table with
  | None => notifications
  | Some table =>
      match List.filter (fun a => depreciation_alert (asset_row a) now)
                        (active_rows table) with
      | [] => notifications
      | alerts =>
          add_new (map (depreciationNotification now) alerts) notifications
      end
  end.

End Checks.

Definition markAsRead (notificationId : string)
    (notifications : list Notification) : list Notification :=
  map (fun notification =>
         if String.eqb (id notification) notificationId
         then {| id := id notification;
                 title := title notification;
                 message := message notification;
                 type := type notification;
                 read := true;
                 created_at := created_at notification;
                 asset_id := asset_id notification;
                 maintenance_id := maintenance_id notification |}
         else notification)
      notifications.

Definition dismissNotification (notificationId : string)
    (notifications : list Notification) : list Notification :=
  List.filter (fun notification =>
                 negb (String.eqb (id notification) notificationId))
              notifications.

Definition markAllAsRead (notifications : list Notification)
  : list Notification :=
  map (fun notification =>
         {| id := id notification;
            title := title notification;
            message := message notification;
            type := type notification;
            read := true;
            created_at := created_at notification;
            asset_id := asset_id notification;
            maintenance_id := maintenance_id notification |})
      notifications.

Definition filteredNotifications (showUnreadOnly : bool)
    (notifications : list Notification) : list Notification :=
  if showUnreadOnly
  then List.filter (fun n => negb (read n)) notifications
  else notifications.

Definition unreadCount (notifications : list Notification) : nat :=
  length (List.filter (fun n => negb (read n)) notifications).

(** What happens to the list: a check returns, or the user presses a
    button of it. *)
Inductive Event : Type :=
| OverdueChecked (table : option (list MaintenanceRow)) (today now : Z)
| DepreciationChecked (table : option (list AssetRow)) (now : Z)
| MarkedAsRead (notificationId : string)
| Dismissed (notificationId : string)
| AllMarkedAsRead.

Definition handle (toLocaleDateString : Z -> jsstring)
    (notifications : list Notification) (e : Event) : list Notification :=
  match e with
  | OverdueChecked table today now =>
      checkOverdueMaintenance toLocaleDateString table today now notifications
  | DepreciationChecked table now =>
      checkDepreciationAlerts table now notifications
  | MarkedAsRead notificationId => markAsRead notificationId notifications
  | Dismissed notificationId => dismissNotification notificationId notifications
  | AllMarkedAsRead => markAllAsRead notifications
  end.

(** The [id] columns are primary keys: a table a check reads holds no id
    twice. *)
Definition primary_keys (e : Event) : Prop :=
  match e with
  | OverdueChecked (Some table) _ _ => NoDup (map row_id table)
  | DepreciationChecked (Some table) _ => NoDup (map asset_row_id table)
  | _ => True
  end.

(** A stand-in for [toLocaleDateString] in the examples. *)
Definition fixed_date (d : Z) : jsstring := lit "19/01/1970".

Definition pump_overdue : MaintenanceRow :=
  {| row_id := "m1"; row_scheduled_date := 18;
     row_status := Maintenance.agendada;
     row_assets_name := Some (lit "Bomba 7") |}.

Definition old_laptop : AssetRow :=
  {| asset_row_id := "a1"; asset_row_name := lit "Notebook";
     asset_row_status := Some active;
     asset_row := mkAsset 10000 1000 5 0 |}.

End NotificationSystem.

(* ===================================================================== *)
(** * The counters of the maintenance dashboard *)
(* ===================================================================== *)

(** EnhancedMaintenanceDashboard: [fetchMaintenanceStats] (MaintenanceDashboard
    has the same function). *)
Module MaintenanceStats.

Import Maintenance.

Record Stats : Type := {
  pendingCount : nat;
  inProgressCount : nat;
  completedThisMonth : nat;
  totalCostThisMonth : Q;
  overdue : nat
}.

(** The rows of the table a query with the filter [p] returns. *)
Definition rows (p : MaintenanceItem -> bool)
    (table : gmap string MaintenanceItem) : gmap string MaintenanceItem :=
  filter (fun kv => p (snd kv) = true) table.

(** [.eq('status', 'agendada')] *)
Definition pending (m : MaintenanceItem) : bool :=
  Status_eqb (status m) agendada.

(** [.eq('status', 'em_andamento')] *)
Definition inProgress (m : MaintenanceItem) : bool :=
  Status_eqb (status m) em_andamento.

(** [.eq('status', 'concluída').gte('completed_date', monthStart)
      .lte('completed_date', monthEnd)]; a NULL date passes neither
    comparison. *)
Definition completed (monthStart monthEnd : Z) (m : MaintenanceItem) : bool :=
  Status_eqb (status m) concluida
  && match completed_date m with
     | Some d => (monthStart <=? d) && (d <=? monthEnd)
     | None => false
     end.

(** [.eq('status', 'agendada').lt('scheduled_date', today)] *)
Definition overdue_ (today : Z) (m : MaintenanceItem) : bool :=
  Status_eqb (status m) agendada && (scheduled_date m <? today).

(** [completedRes.data?.reduce((sum, item) => sum + (item.cost || 0), 0)
    || 0] *)
Definition totalCost (completedRes : gmap string MaintenanceItem) : Q :=
  map_fold (fun _ item sum => (sum + cost item)%Q) 0%Q completedRes.

(** [fetchMaintenanceStats]: the four queries, taken on one state of the
    table; [None] is a database that does not answer, where every
    [data?.length || 0] is 0. *)
Definition fetchMaintenanceStats
    (table : option (gmap string MaintenanceItem))
    (monthStart monthEnd today : Z) : Stats :=
  match table with
  | Some table =>
      {| pendingCount := size (rows pending table);
         inProgressCount := size (rows inProgress table);
         completedThisMonth := size (rows (completed monthStart monthEnd) table);
         totalCostThisMonth :=
           totalCost (rows (completed monthStart monthEnd) table);
         overdue := size (rows (overdue_ today) table) |}
  | None =>
      {| pendingCount := 0; inProgressCount := 0; completedThisMonth := 0;
         totalCostThisMonth := 0; overdue := 0 |}
  end.

End MaintenanceStats.

(* ===================================================================== *)
(** * QR codes of assets *)
(* ===================================================================== *)

(** QRCodeGenerator and the scanner of AssetHistory. *)
Module QRCode.

Import JSString ReportGenerator.

(** QRCodeGenerator: [const qrValue = `ASSET:${assetCode}`]. *)
Definition qrValue (assetCode : jsstring) : jsstring :=
  lit "ASSET:" ++ assetCode.

(** [s.replace(pattern, replacement)] with a string pattern and a
    replacement without [$]: the first occurrence is replaced. *)
Fixpoint replace (s pattern replacement : jsstring) : jsstring :=
  if starts_with pattern s
  then replacement ++ skipn (length pattern) s
  else match s with
       | [] => []
       | c :: r => c :: replace r pattern replacement
       end.

(** The scanner's callback on a decoded text: the argument it hands to
    [onAssetFound], [None] when it does not call it. *)
Definition onAssetFound_argument (code : jsstring) : option jsstring :=
  if starts_with (lit "ASSET:") code
  then Some (replace code (lit "ASSET:") [])
  else None.

End QRCode.

(* ===================================================================== *)
(** * The selects of the edit dialog *)
(* ===================================================================== *)

(** EditAssetModal: category, department, unit and responsible are
    selects whose "none" option has the value ['unassigned']. *)
Module EditAssetSelects.

Import JSString ReportGenerator.

(** When the dialog opens: [asset.department_id || 'unassigned']. *)
Definition formData_select (column : option jsstring) : jsstring :=
  or_string column (lit "unassigned").

(** On save: [formData.department_id === 'unassigned' ? null :
    formData.department_id || null]. *)
Definition updatedAsset_select (formData_select : jsstring)
  : option jsstring :=
  if jsstring_eqb formData_select (lit "unassigned") then None
  else match formData_select with
       | [] => None
       | _ => Some formData_select
       end.

End EditAssetSelects.

(* ===================================================================== *)
(** * Inherited properties of a dictionary object *)
(* ===================================================================== *)

Module JSObject.

Import JSString ReportGenerator.

(** An object literal [{}] used as a dictionary answers [obj[k]] for the
    names it inherits from [Object.prototype] as well; [get] above reads
    own properties only, which is what the code sees for every other
    name. *)
Definition Object_prototype_names : list jsstring :=
  map lit
    [ "constructor"; "__defineGetter__"; "__defineSetter__";
      "hasOwnProperty"; "__lookupGetter__"; "__lookupSetter__";
      "isPrototypeOf"; "propertyIsEnumerable"; "toString"; "valueOf";
      "__proto__"; "toLocaleString" ]%string.

Definition inherited (k : jsstring) : bool :=
  existsb (jsstring_eqb k) Object_prototype_names.

End JSObject.

(* ===================================================================== *)
(** * The PDF export of the inventory *)
(* ===================================================================== *)

(** InventoryManager: the loop of [handleExportPDF] that writes one block
    of six lines per asset. *)
Module InventoryExport.

(** Where a block starts: the page (the first page is 1) and the
    [yPosition] of its first line; the other five lines follow at
    [yPosition + 8], ..., [yPosition + 40]. *)
Record Block : Type := {
  block_page : Z;
  block_yPosition : Z
}.

(** [assets.forEach(...)] from the state [(page, yPosition)]: a new page
    when [yPosition > 280], the block, then [yPosition += 50]. *)
Fixpoint forEach {A} (assets : list A) (page yPosition : Z)
  : list (A * Block) :=
  match assets with
  | [] => []
  | asset :: rest =>
      let page' := if 280 <? yPosition then page + 1 else page in
      let yPosition' := if 280 <? yPosition then 20 else yPosition in
      (asset, {| block_page := page'; block_yPosition := yPosition' |})
      :: forEach rest page' (yPosition' + 50)
  end.

(** The blocks of [handleExportPDF]: the heading leaves [yPosition] at
    [50 + 15] on the first page. *)
Definition handleExportPDF {A} (assets : list A) : list (A * Block) :=
  forEach assets 1 (50 + 15).

(** The layout in words: five blocks fit below the heading of the first
    page, at 65, 115, ..., 265, and six on every later page, at 20, 70,
    ..., 270. [index] counts the assets from 0. *)
Definition paged_block (index : Z) : Block :=
  if index <? 5
  then {| block_page := 1; block_yPosition := 65 + 50 * index |}
  else {| block_page := 2 + (index - 5) / 6;
          block_yPosition := 20 + 50 * ((index - 5) mod 6) |}.

End InventoryExport.

(* ===================================================================== *)
(** * The CSV export of the inventory *)
(* ===================================================================== *)

(** InventoryManager: [handleExportCSV]. *)
Module InventoryCsv.

Import JSString ReportGenerator.

(** A row of [assets] with the joined names, as the export reads it. *)
Record Asset : Type := {
  name : jsstring;
  code : jsstring;
  categories_name : option jsstring;
  departments_name : option jsstring;
  purchase_value : Q;
  status : option jsstring;
  purchase_date : Z
}.

(** [array.join(separator)] *)
Fixpoint join (separator : jsstring) (l : list jsstring) : jsstring :=
  match l with
  | [] => []
  | [x] => x
  | x :: r => x ++ separator ++ join separator r
  end.

(** A text between two quotation marks (code unit 34); nothing in the
    text is escaped. *)
Definition quoted (s : jsstring) : jsstring := [34]%N ++ s ++ [34]%N.

(** [asset.status] in a template literal: [null] reads "null". *)
Definition text_or_null (s : option jsstring) : jsstring :=
  match s with
  | Some s => s
  | None => lit "null"
  end.

Section CsvText.

(** [n.toLocaleString('pt-BR')] and
    [new Date(d).toLocaleDateString('pt-BR')], which the model does not
    fix. *)
Variable toLocaleString : Q -> jsstring.
Variable toLocaleDateString : Z -> jsstring.

(** The seven texts of a row, before they are put between quotation
    marks. *)
Definition fields (asset : Asset) : list jsstring :=
  let category := or_string (categories_name asset) (lit "Sem categoria") in
  let department :=
    or_string (departments_name asset) (lit "Sem departamento") in
  let purchaseDate := toLocaleDateString (purchase_date asset) in
  [ name asset;
    code asset;
    category;
    department;
    lit "R$ " ++ toLocaleString (purchase_value asset);
    text_or_null (status asset);
    purchaseDate ].

Definition row (asset : Asset) : jsstring :=
  join (lit ",") (map quoted (fields asset)).

(** "Código": ó is U+00F3. *)
Definition headers : list jsstring :=
  [ lit "Nome"; lit "C" ++ [243]%N ++ lit "digo"; lit "Categoria";
    lit "Departamento"; lit "Valor"; lit "Status"; lit "Data de Compra" ].

(** [csvContent]; [assets] is [None] when the query returns no data. *)
Definition csvContent (assets : option (list Asset)) : jsstring :=
  let csvRows :=
    join (lit ",") headers
    :: match assets with
       | Some assets => map row assets
       | None => []
       end in
  join [10]%N csvRows.

End CsvText.

(** A text without quotation mark. *)
Definition quote_free (s : jsstring) : Prop := ~ In 34%N s.

(** Stand-ins for the two renderings in the examples. *)
Definition plain_number (q : Q) : jsstring := lit "1.200,00".
Definition plain_date (d : Z) : jsstring := lit "19/01/1970".

End InventoryCsv.

(* ===================================================================== *)
(** * The location statistics of the tracking page *)
(* ===================================================================== *)

(** ConsolidatedTrackingSystem, tab "analytics": the two [reduce] calls
    that count the assets by location and by location type. *)
Module TrackingAnalytics.

Import JSString ReportGenerator.

Record Asset : Type := {
  current_location : option jsstring;
  location_type : option jsstring
}.

(** [acc[key] = (acc[key] || 0) + 1]; a count of 0 and a missing
    property both read 0. *)
Definition count_one {A} (key : A -> jsstring) (acc : Obj Z) (asset : A)
  : Obj Z :=
  let k := key asset in
  set acc k (match get acc k with
             | Some n => n
             | None => 0
             end + 1).

Definition count_by {A} (key : A -> jsstring) (assets : list A)
  : list (jsstring * Z) :=
  Object_entries (fold_left (count_one key) assets []).

(** "Sem localização": ç is U+00E7, ã is U+00E3. *)
Definition by_location (assets : list Asset) : list (jsstring * Z) :=
  count_by (fun asset =>
              or_string (current_location asset)
                        (lit "Sem localiza" ++ [231; 227]%N ++ lit "o"))
           assets.

Definition by_location_type (assets : list Asset) : list (jsstring * Z) :=
  count_by (fun asset => or_string (location_type asset) (lit "manual"))
           assets.

End TrackingAnalytics.

(* ===================================================================== *)
(** * The uploads of the creation form *)
(* ===================================================================== *)

(** AssetForm, [handleSubmit] after the asset is inserted: the photo and
    the document go to the storage bucket and a row for each is sent to
    the [documents] table. *)
Module AssetUploads.

Import JSString ReportGenerator.

Record File : Type := {
  file_name : jsstring;
  file_size : Z;
  file_type : jsstring
}.

(** A row of [public.documents]. *)
Record Document : Type := {
  asset_id : string;
  name : jsstring;
  type : jsstring;
  file_url : jsstring;
  document_file_size : Z;
  mime_type : jsstring;
  uploaded_by : string
}.

(** [type TEXT NOT NULL CHECK (type IN ('invoice', 'manual', 'warranty',
    'other'))] *)
Definition type_check (t : jsstring) : bool :=
  existsb (jsstring_eqb t)
    [lit "invoice"; lit "manual"; lit "warranty"; lit "other"].

(** [supabase.from('documents').insert(row)] by the signed-in user
    [uid]: the row is stored when it satisfies the CHECK constraint and
    the policy [WITH CHECK (auth.uid() = uploaded_by)]; otherwise the
    call resolves with an error in its result and stores nothing.  It
    does not throw. *)
Definition insert_document (documents : list Document) (uid : string)
    (row : Document) : list Document :=
  if type_check (type row) && String.eqb uid (uploaded_by row)
  then documents ++ [row]
  else documents.

Inductive Toast : Type :=
| PhotoWarning
| DocumentWarning.

Record Backend : Type := {
  storage : list (jsstring * File);
  documents : list Document;
  toasts : list Toast
}.

Section Uploads.

(** What the model leaves to the platform: whether the bucket accepts an
    upload ([uploadFile] throws when it does not), the public URL of a
    path, the decimal text of [Date.now()] and
    [name.split('.').pop()]. *)
Variable accepts : list (jsstring * File) -> jsstring -> File -> bool.
Variable getPublicUrl : jsstring -> jsstring.
Variable toString : Z -> jsstring.
Variable extension : jsstring -> jsstring.

(** [`${asset.id}/photo_${Date.now()}.${ext}`]; the slash is 47, the dot
    46. *)
Definition path (assetId : string) (kind : jsstring) (now : Z)
    (file : File) : jsstring :=
  lit assetId ++ [47]%N ++ kind ++ toString now ++ [46]%N
  ++ extension (file_name file).

(** One [try] block: upload, then the row for [documents]; a refused
    upload shows the warning and skips the row. *)
Definition upload (b : Backend) (uid assetId : string) (kind : jsstring)
    (type_ : jsstring) (warning : Toast) (now : Z) (file : File) : Backend :=
  let p := path assetId kind now file in
  if accepts (storage b) p file
  then {| storage := storage b ++ [(p, file)];
          documents :=
            insert_document (documents b) uid
              {| asset_id := assetId;
                 name := file_name file;
                 type := type_;
                 file_url := getPublicUrl p;
                 document_file_size := file_size file;
                 mime_type := file_type file;
                 uploaded_by := uid |};
          toasts := toasts b |}
  else {| storage := storage b;
          documents := documents b;
          toasts := toasts b ++ [warning] |}.

(** The two blocks of [handleSubmit]: [photo] and [document] are the
    files of the form, if any, each with the reading of the clock. *)
Definition handleSubmit_uploads (b : Backend) (uid assetId : string)
    (photo document : option (File * Z)) : Backend :=
  let b :=
    match photo with
    | Some (file, now) =>
        upload b uid assetId (lit "photo_") (lit "photo") PhotoWarning
               now file
    | None => b
    end in
  match document with
  | Some (file, now) =>
      upload b uid assetId (lit "document_") (lit "document")
             DocumentWarning now file
  | None => b
  end.

End Uploads.

(** A bucket that accepts every upload and stand-ins for the texts the
    platform renders, for the examples. *)
Definition accepts_all (s : list (jsstring * File)) (p : jsstring)
    (f : File) : bool := true.

Definition same_url (p : jsstring) : jsstring := p.

Definition fixed_clock (now : Z) : jsstring := lit "1700000000000".

Definition png (name : jsstring) : jsstring := lit "png".

Definition empty : Backend :=
  {| storage := []; documents := []; toasts := [] |}.

Definition pump_photo : File :=
  {| file_name := lit "bomba.png"; file_size := 2048;
     file_type := lit "image/png" |}.

End AssetUploads.

(* ===================================================================== *)
(** * The filters of the asset list *)
(* ===================================================================== *)

(** AssetList.tsx, second component: [filteredAssets].  (The first
    component has the same search, category and status filters and no
    filter on the responsible.) *)
Module AssetListFilters.

Import JSString ReportGenerator.

Record Asset : Type := {
  name : jsstring;
  code : jsstring;
  serial_number : option jsstring;
  status : option jsstring;
  assigned_to : option jsstring;
  categories_name : option jsstring
}.

Record Filters : Type := {
  searchTerm : jsstring;
  filterCategory : jsstring;
  filterStatus : jsstring;
  filterResponsible : jsstring
}.

(** The state the component starts with. *)
Definition initial : Filters :=
  {| searchTerm := []; filterCategory := lit "all";
     filterStatus := lit "all"; filterResponsible := lit "all" |}.

(** [x === v] for a value that may be [null] or [undefined]. *)
Definition equals (x : option jsstring) (v : jsstring) : bool :=
  match x with
  | Some s => jsstring_eqb s v
  | None => false
  end.

(** Truthiness of a string that may be [null]. *)
Definition truthy (x : option jsstring) : bool :=
  match x with
  | Some (_ :: _) => true
  | _ => false
  end.

Section Filter.

Variable toLowerCase : jsstring -> jsstring.

Definition matchesSearch (f : Filters) (asset : Asset) : bool :=
  includes (toLowerCase (name asset)) (toLowerCase (searchTerm f))
  || includes (toLowerCase (code asset)) (toLowerCase (searchTerm f))
  || match serial_number asset with
     | Some ((_ :: _) as serial) =>
         includes (toLowerCase serial) (toLowerCase (searchTerm f))
     | _ => false
     end.

Definition matchesCategory (f : Filters) (asset : Asset) : bool :=
  jsstring_eqb (filterCategory f) (lit "all")
  || equals (categories_name asset) (filterCategory f).

Definition matchesStatus (f : Filters) (asset : Asset) : bool :=
  jsstring_eqb (filterStatus f) (lit "all")
  || equals (status asset) (filterStatus f).

Definition matchesResponsible (f : Filters) (asset : Asset) : bool :=
  jsstring_eqb (filterResponsible f) (lit "all")
  || (jsstring_eqb (filterResponsible f) (lit "unassigned")
      && negb (truthy (assigned_to asset)))
  || (negb (jsstring_eqb (filterResponsible f) (lit "unassigned"))
      && equals (assigned_to asset) (filterResponsible f)).

Definition filteredAssets (f : Filters) (assets : list Asset) : list Asset :=
  List.filter (fun asset =>
                 matchesSearch f asset && matchesCategory f asset
                 && matchesStatus f asset && matchesResponsible f asset)
              assets.

End Filter.

(** The filters with another search text. *)
Definition with_search (f : Filters) (term : jsstring) : Filters :=
  {| searchTerm := term; filterCategory := filterCategory f;
     filterStatus := filterStatus f;
     filterResponsible := filterResponsible f |}.

Definition pump : Asset :=
  {| name := lit "Bomba 7"; code := lit "AST1"; serial_number := None;
     status := Some (lit "active"); assigned_to := None;
     categories_name := None |}.

End AssetListFilters.

(* ===================================================================== *)
(** * The embedding on concrete inputs *)
(* ===================================================================== *)

Section ConcreteInputs.

Import JSString ReportGenerator.

(** Division by zero and what follows from it, in doubles. *)
Example js_divide_by_zero :
  PrimFloat.div (Double.of_Z 9000) (Double.of_Z 0) = PrimFloat.infinity /\
  PrimFloat.div (Double.of_Z 0) (Double.of_Z 0) = PrimFloat.nan /\
  PrimFloat.mul PrimFloat.infinity (Double.of_Z 0) = PrimFloat.nan /\
  Double.Math_max (Double.of_Z 1000) PrimFloat.nan = PrimFloat.nan /\
  Double.Math_min PrimFloat.infinity (Double.of_Z 9000) = Double.of_Z 9000 /\
  Double.Math_max PrimFloat.neg_zero PrimFloat.zero = PrimFloat.zero /\
  Double.Math_min PrimFloat.zero PrimFloat.neg_zero = PrimFloat.neg_zero.
Proof. repeat split; vm_compute; reflexivity. Qed.

Example parseInt_examples :
  parseInt (lit "42") = JS.of_Z 42 /\
  parseInt (lit "  42px") = JS.of_Z 42 /\
  parseInt (lit "-7") = JS.of_Z (-7) /\
  parseInt (lit "0x1F") = JS.of_Z 31 /\
  parseInt (lit "1e3") = JS.of_Z 1 /\
  parseInt (lit "0.1e1") = JS.of_Z 0 /\
  parseInt (lit ".5") = JS.NaN /\
  parseInt (lit "") = JS.NaN /\
  parseInt (lit "abc") = JS.NaN.
Proof. repeat split; vm_compute; reflexivity. Qed.

(** Which texts are valid floating-point numbers, and their values up to
    the representation of the rational. *)
Example parse_floating_point_examples :
  option_map Qred (parse_floating_point (lit "1e3")) = Some 1000%Q /\
  option_map Qred (parse_floating_point (lit "0.1e1")) = Some 1%Q /\
  option_map Qred (parse_floating_point (lit "10e-1")) = Some 1%Q /\
  option_map Qred (parse_floating_point (lit ".5")) = Some (1 # 2)%Q /\
  option_map Qred (parse_floating_point (lit "-.5E+2")) = Some (-50)%Q /\
  parse_floating_point (lit "5.") = None /\
  parse_floating_point (lit "+5") = None /\
  parse_floating_point (lit "1e") = None /\
  parse_floating_point (lit "42px") = None /\
  parse_floating_point (lit "") = None.
Proof. repeat split; vm_compute; reflexivity. Qed.

(** What the creation form does with some texts of the useful-life
    field: whether the browser lets the form submit, and the number
    [handleSubmit] then puts into [assetData]. *)
Example AssetForm_examples :
  map (fun text =>
         (checkValidity (AssetForm.useful_life_years_input text),
          AssetForm.assetData_useful_life_years
            (JSString.value (AssetForm.useful_life_years_input text))))
      [lit "5"; lit "0"; lit "-3"; lit "1.5"; lit "abc"; lit "1e1"]
  = [(true, JS.of_Z 5); (false, JS.of_Z 0); (false, JS.of_Z (-3));
     (false, JS.of_Z 1); (false, JS.NaN); (true, JS.of_Z 1)].
Proof. vm_compute. reflexivity. Qed.

(** Property order of an object: array indices first, in numeric order,
    then the other names as created. *)
Example Object_entries_order :
  map fst (Object_entries
             [(lit "b", 1); (lit "10", 2); (lit "2", 3); (lit "01", 4);
              (lit "a", 5)])
  = [lit "2"; lit "10"; lit "b"; lit "01"; lit "a"].
Proof. vm_compute. reflexivity. Qed.

Example includes_examples :
  includes (ascii_lower (lit "Ativos por CATEGORIA")) (lit "categoria") = true /\
  includes (lit "Ativos por CATEGORIA") (lit "categoria") = false /\
  includes (lit "abc") [] = true /\
  includes (lit "ab") (lit "abc") = false.
Proof. repeat split; vm_compute; reflexivity. Qed.

(** The three aggregations on the example database. *)
Example by_category_fleet :
  map (fun e => (name e, value e, total e))
      (by_category JSObject.inherited (assets fleet))
  = [(lit "TI", Double.of_Z 51200, 2);
     (lit "Sem categoria", Double.of_Z 800, 1)].
Proof. vm_compute. reflexivity. Qed.

Example by_status_fleet :
  map (fun e => (name e, value e, total e))
      (by_status JSObject.inherited (assets fleet))
  = [(lit "active", Double.of_Z 2000, 2);
     (lit "maintenance", Double.of_Z 50000, 1)].
Proof. vm_compute. reflexivity. Qed.

Example by_maintenance_type_fleet :
  option_map (map (fun e => (name e, value e, total e)))
    (option_map (by_maintenance_type JSObject.inherited)
                (select_recent_maintenance fleet))
  = Some [(lit "corretiva", Double.of_Z 0, 1);
          (lit "preventiva", Double.of_Z 150, 1)].
Proof. vm_compute. reflexivity. Qed.

(** A category called [constructor] gets no group, and its rows are in
    no other. *)
Example by_category_inherited_name :
  map (fun e => (name e, value e, total e))
      (by_category JSObject.inherited
         [ {| asset_purchase_value := Double.of_Z 1200;
              asset_status := Some (lit "active");
              asset_category_name := Some (lit "constructor") |};
           {| asset_purchase_value := Double.of_Z 800;
              asset_status := Some (lit "active");
              asset_category_name := Some (lit "TI") |} ])
  = [(lit "TI", Double.of_Z 800, 1)].
Proof. vm_compute. reflexivity. Qed.

End ConcreteInputs.

(* ===================================================================== *)
(** * Facts about numbers *)
(* ===================================================================== *)

Section NumberFacts.

Local Open Scope Q_scope.

Lemma inject_Z_pos (z : Z) : (0 < z)%Z -> 0 < inject_Z z.
Proof. intros H. change 0 with (inject_Z 0). now rewrite <- Zlt_Qlt. Qed.

Lemma inject_Z_nonneg (z : Z) : (0 <= z)%Z -> 0 <= inject_Z z.
Proof. intros H. change 0 with (inject_Z 0). now rewrite <- Zle_Qle. Qed.

Lemma Qzero_b_false (q : Q) : ~ q == 0 -> JS.Qzero_b q = false.
Proof.
  intros H. unfold JS.Qzero_b. destruct (Qeq_bool q 0) eqn:E; [| reflexivity].
  apply Qeq_bool_iff in E. contradiction.
Qed.

Lemma Qzero_b_inject_Z (z : Z) : (z <> 0)%Z -> JS.Qzero_b (inject_Z z) = false.
Proof.
  intros H. apply Qzero_b_false. unfold Qeq. simpl. lia.
Qed.

End NumberFacts.

(* ===================================================================== *)
(** * The SQL functions *)
(* ===================================================================== *)

Section SqlFunctions.

Local Open Scope Q_scope.

(** The source of [EXTRACT] is the difference of two dates, an integer:
    the first statement of [calculate_depreciation] raises
    [undefined_function] whatever the dates are, and with it the
    function. *)
Lemma years_passed_raises (current_date purchase_date : Z) :
  Sql.years_passed current_date purchase_date = Sql.UndefinedFunction.
Proof. reflexivity. Qed.

Lemma calculate_depreciation_raises (pv rv : Q) (life pd today : Z) :
  Sql.calculate_depreciation pv rv life pd today = Sql.UndefinedFunction.
Proof. reflexivity. Qed.

Lemma calculate_book_value_raises (pv rv : Q) (life pd today : Z) :
  Sql.calculate_book_value pv rv life pd today = Sql.UndefinedFunction.
Proof. reflexivity. Qed.

(** Had the source been an interval, the function would have gone on to
    the division. *)
Example EXTRACT_EPOCH_by_type :
  Sql.EXTRACT_EPOCH (Sql.Interval 86400) = Sql.Ok 86400 /\
  Sql.EXTRACT_EPOCH (Sql.Date 1) = Sql.Ok (inject_Z 86400) /\
  Sql.EXTRACT_EPOCH (Sql.Integer 1) = Sql.UndefinedFunction /\
  Sql.EXTRACT_EPOCH (Sql.date_minus 913 0) = Sql.UndefinedFunction.
Proof. repeat split. Qed.

(** C3: [calculate_depreciation] returns no depreciation, on valid inputs
    as on any other: every call is aborted with [undefined_function], so
    for the asset bought for 10000 with residual value 1000 and a useful
    life of 5 years there is, 913 days after the purchase as on every
    other date, no returned amount between 0 and 9000. *)
Theorem C3_depreciation_is_never_returned :
  (forall (pv rv : Q) (life pd today : Z),
     Sql.calculate_depreciation pv rv life pd today
     = Sql.UndefinedFunction) /\
  ~ (exists d, Sql.calculate_depreciation 10000 1000 5 0 913 = Sql.Ok d /\
               0 <= d /\ d <= 10000 - 1000).
Proof.
  split; [intros; apply calculate_depreciation_raises |].
  intros (d & H & _). rewrite calculate_depreciation_raises in H.
  discriminate H.
Qed.

End SqlFunctions.

(* ===================================================================== *)
(** * The copies of the book-value formula *)
(* ===================================================================== *)

Section BookValueCopies.

Import PrimFloat.
Local Open Scope float_scope.

(** The dashboard loop computes the book value of one asset with the
    operations of AssetList, in the same order. *)
Lemma Dashboard_book_value_eq (a : Json.Asset) (now : Z) :
  Dashboard.bookValueSummand a now = AssetList.calculateBookValue a now.
Proof. reflexivity. Qed.

Lemma AssetListCards_book_value_eq (a : Json.Asset) (now : Z) :
  AssetListCards.calculateBookValue a now
  = AssetDetails.calculateBookValue a now.
Proof. reflexivity. Qed.

(** C1: the copies do not return the same book value.  The SQL function
    [calculate_book_value] returns none: every call is aborted with
    [undefined_function].  Of the front-end copies, the dashboard loop
    agrees with AssetList and the second AssetList component with
    AssetDetails on every input, but the two pairs differ: for the asset
    bought for 10000 with residual value 1000 and a useful life of 5
    years, 365 days (31536000000 ms) after the purchase, AssetList
    returns 8201.23203285421 and AssetDetails 8200. *)
#[warnings="-inexact-float"]
Theorem C1_book_value_copies_differ :
  (forall (pv rv : Q) (life pd today : Z),
     Sql.calculate_book_value pv rv life pd today = Sql.UndefinedFunction) /\
  AssetList.calculateBookValue (jsonAsset 10000 1000 5 0) 31536000000
    = 8201.23203285421 /\
  AssetDetails.calculateBookValue (jsonAsset 10000 1000 5 0) 31536000000
    = 8200 /\
  (forall a now,
     Dashboard.bookValueSummand a now = AssetList.calculateBookValue a now) /\
  (forall a now,
     AssetListCards.calculateBookValue a now
     = AssetDetails.calculateBookValue a now).
Proof.
  split; [intros; apply calculate_book_value_raises |].
  split; [vm_compute; reflexivity |].
  split; [vm_compute; reflexivity |].
  split; [exact Dashboard_book_value_eq | exact AssetListCards_book_value_eq].
Qed.

(** C2: the book value leaves the interval from the residual to the
    purchase value.  The asset is bought for 10000 with residual value
    1000 and a useful life of 5 years; "now" is 365.25 days before its
    purchase date.  AssetList and the dashboard loop return 11800, which
    is above the purchase value (the loop floors at 0 the depreciation it
    adds up, not the one it subtracts), AssetDetails and the second
    AssetList component return 11801.232876712329, and the SQL function
    returns nothing. *)
#[warnings="-inexact-float"]
Theorem C2_book_value_above_purchase_value :
  let a := jsonAsset 10000 1000 5 366 in
  let now := 64800000%Z in
  (now < Date_getTime (Json.purchase_date a))%Z /\
  AssetList.calculateBookValue a now = 11800 /\
  Dashboard.bookValueSummand a now = 11800 /\
  Dashboard.depreciationSummand a now = 0 /\
  AssetDetails.calculateBookValue a now = 11801.232876712329 /\
  AssetListCards.calculateBookValue a now = 11801.232876712329 /\
  (Json.purchase_value a <? 11800) = true /\
  (forall (pv rv : Q) (life pd today : Z),
     Sql.calculate_book_value pv rv life pd today = Sql.UndefinedFunction).
Proof.
  intros a now. subst a now.
  split; [reflexivity |].
  do 6 (split; [vm_compute; reflexivity |]).
  intros. apply calculate_book_value_raises.
Qed.

(** C4: the asset bought for 10000 with residual value 1000 and a useful
    life of 5 years, evaluated 2.5 years of 365.25 days (78894000000 ms)
    after its purchase.  The dashboard loop and AssetList return
    depreciation 4500 and book value 5500, and the depreciation of one
    year is 1800.  AssetDetails and the second AssetList component, which
    count years of 365 days, return 5496.917808219178 instead of 5500.
    The SQL functions return nothing on any date. *)
#[warnings="-inexact-float"]
Theorem C4_worked_example :
  let a := jsonAsset 10000 1000 5 0 in
  let now := 78894000000%Z in
  Dashboard.assetDepreciation a 31557600000 = 1800 /\
  Dashboard.depreciationSummand a now = 4500 /\
  Dashboard.bookValueSummand a now = 5500 /\
  AssetList.calculateBookValue a now = 5500 /\
  AssetDetails.calculateBookValue a now = 5496.917808219178 /\
  AssetListCards.calculateBookValue a now = 5496.917808219178 /\
  (forall today,
     Sql.calculate_depreciation 10000 1000 5 0 today
     = Sql.UndefinedFunction) /\
  (forall today,
     Sql.calculate_book_value 10000 1000 5 0 today = Sql.UndefinedFunction).
Proof.
  intros a now. subst a now.
  do 6 (split; [vm_compute; reflexivity |]).
  split; intros; reflexivity.
Qed.

End BookValueCopies.

(* ===================================================================== *)
(** * Tenant isolation of the row-level-security policies *)
(* ===================================================================== *)

Section TenantIsolation.

Import Rls.

Lemma sql_eq_companies (A B : uuid) :
  A <> B -> passes (sql_eq (Some A) (Some B)) = false.
Proof.
  intros H. simpl. destruct (String.eqb_spec A B); [contradiction | reflexivity].
Qed.

Lemma existsb_eqb_false (v : uuid) (ids : list uuid) :
  ~ In v ids -> existsb (String.eqb v) ids = false.
Proof.
  induction ids as [| w ids IH]; intros H; [reflexivity |].
  simpl. destruct (String.eqb_spec v w) as [-> | _].
  - exfalso. apply H. now left.
  - apply IH. intros Hin. apply H. now right.
Qed.

(** A department of another company is not among the departments the
    policies compute for the user. *)
Lemma foreign_department_not_joined db u p did A B :
  profiles db !! u = Some p ->
  profile_company_id p = Some A ->
  (forall d, In d (departments db) -> department_id_ d = did ->
             department_company_id d = Some B) ->
  A <> B ->
  ~ In did (user_company_departments_join db (Some u)).
Proof.
  intros Hp HA HB Hne Hin.
  unfold user_company_departments_join in Hin. rewrite Hp, HA in Hin.
  apply in_map_iff in Hin as (d & Hid & Hd).
  apply filter_In in Hd as [Hd Hpass].
  rewrite (HB d Hd Hid) in Hpass.
  rewrite sql_eq_companies in Hpass by assumption. discriminate.
Qed.

Lemma foreign_department_not_listed db u p did A B :
  profiles db !! u = Some p ->
  profile_company_id p = Some A ->
  (forall d, In d (departments db) -> department_id_ d = did ->
             department_company_id d = Some B) ->
  A <> B ->
  ~ In did (user_company_departments db (Some u)).
Proof.
  intros Hp HA HB Hne Hin.
  unfold user_company_departments, user_company_id in Hin.
  rewrite Hp, HA in Hin.
  apply in_map_iff in Hin as (d & Hid & Hd).
  apply filter_In in Hd as [Hd Hpass].
  rewrite (HB d Hd Hid) in Hpass.
  rewrite sql_eq_companies in Hpass by congruence. discriminate.
Qed.

(** The assets, departments and units policies do keep the tenants
    apart. *)
Lemma assets_select_isolated db u p a did A B :
  profiles db !! u = Some p ->
  profile_company_id p = Some A ->
  asset_department_id a = Some did ->
  (forall d, In d (departments db) -> department_id_ d = did ->
             department_company_id d = Some B) ->
  A <> B ->
  assets_select db (Some u) a = Some false.
Proof.
  intros Hp HA Hd HB Hne. unfold assets_select. rewrite Hd. simpl.
  rewrite existsb_eqb_false; [reflexivity |].
  eapply foreign_department_not_joined; eassumption.
Qed.

Lemma departments_select_isolated db u p d A B :
  profiles db !! u = Some p ->
  profile_company_id p = Some A ->
  department_company_id d = Some B ->
  A <> B ->
  passes (departments_select db (Some u) d) = false.
Proof.
  intros Hp HA HB Hne. unfold departments_select, user_company_id.
  rewrite Hp, HA, HB. apply sql_eq_companies. congruence.
Qed.

Lemma units_select_isolated db u p un A B :
  profiles db !! u = Some p ->
  profile_company_id p = Some A ->
  (forall d, In d (departments db) ->
             department_id_ d = unit_department_id un ->
             department_company_id d = Some B) ->
  A <> B ->
  units_select db (Some u) un = Some false.
Proof.
  intros Hp HA HB Hne. unfold units_select. simpl.
  rewrite existsb_eqb_false; [reflexivity |].
  eapply foreign_department_not_listed; eassumption.
Qed.

(** C5: in the two-tenant database alice belongs to company A and the rows
    below belong to department [dept-b] of company B.  The assets,
    departments, units and documents policies hide them from alice; the
    asset_maintenance and asset_disposal policies, which only ask for a
    signed-in user, show them to her, and a list query returns the
    maintenance record of company B. *)
Theorem C5_maintenance_crosses_tenants :
  user_company_id two_tenants alice = Some "company-a"%string /\
  company_of_department two_tenants "dept-b" = Some "company-b"%string /\
  department_of_asset two_tenants (maintenance_asset_id maintenance_b)
    = Some "dept-b"%string /\
  passes (assets_select two_tenants alice asset_b) = false /\
  passes (departments_select two_tenants alice dept_b) = false /\
  passes (units_select two_tenants alice unit_b) = false /\
  passes (documents_select two_tenants alice document_b) = false /\
  passes (asset_maintenance_select two_tenants alice maintenance_b) = true /\
  select_rows (asset_maintenance_select two_tenants alice) [maintenance_b]
    = [maintenance_b] /\
  passes (asset_disposal_select two_tenants alice disposal_b) = true.
Proof. repeat split; vm_compute; reflexivity. Qed.

(** Whatever the database and the record, the maintenance policy passes
    for every signed-in user. *)
Lemma asset_maintenance_select_any db u m :
  asset_maintenance_select db (Some u) m = Some true.
Proof. reflexivity. Qed.

(** The statements the front end sends for assets are aborted by the
    rewriter: the assets policies read [profiles], and the SELECT policy
    of [profiles] reads [profiles] itself.  What the database holds and
    who asks makes no difference. *)
Lemma assets_statements_abort db (uid : auth_uid) :
  PolicyExpansion.select_assets db uid
    = PolicyExpansion.Aborted PolicyExpansion.profiles /\
  PolicyExpansion.updatable_assets db uid
    = PolicyExpansion.Aborted PolicyExpansion.profiles.
Proof. split; reflexivity. Qed.

(** The policies of [asset_maintenance] have no sub-select, and its rows
    are returned as its policy decides. *)
Lemma asset_maintenance_statement_runs db (uid : auth_uid) rows :
  PolicyExpansion.select_asset_maintenance db uid rows
  = PolicyExpansion.Returned
      (select_rows (asset_maintenance_select db uid) rows).
Proof. reflexivity. Qed.

(** Nine levels are enough for every statement. *)
Lemma expand_settles (s : PolicyExpansion.statement) :
  PolicyExpansion.expand s <> PolicyExpansion.OutOfFuel.
Proof.
  destruct s as [[] [] []]; vm_compute; discriminate.
Qed.

(** C9: an asset whose [department_id] is NULL passes the USING
    expressions of the SELECT and the UPDATE policy of [assets] for every
    signed-in user, but no user gets to see or to update it: the SELECT
    and the UPDATE the front end sends are both aborted with "infinite
    recursion detected in policy for relation profiles" (42P17) before a
    row is read. *)
Theorem C9_unassigned_assets_out_of_reach
    db (user : uuid) (a : AssetRow) :
  In a (assets db) -> asset_department_id a = None ->
  assets_select db (Some user) a = Some true /\
  assets_update db (Some user) a = Some true /\
  PolicyExpansion.select_assets db (Some user)
    = PolicyExpansion.Aborted PolicyExpansion.profiles /\
  PolicyExpansion.updatable_assets db (Some user)
    = PolicyExpansion.Aborted PolicyExpansion.profiles /\
  (forall rows,
     PolicyExpansion.select_assets db (Some user)
       = PolicyExpansion.Returned rows -> ~ In a rows).
Proof.
  intros _ H.
  assert (E : forall ids, sql_or (sql_in None ids) (Some true) = Some true)
    by (intros [| i ids]; reflexivity).
  unfold assets_select, assets_update. rewrite H.
  repeat split; try apply E; try reflexivity.
  intros rows Hr. discriminate Hr.
Qed.

Lemma C9_unassigned_assets_out_of_reach_witness :
  assets_select
    {| profiles := profiles two_tenants;
       departments := departments two_tenants;
       assets := [{| asset_id_ := "spare"; asset_department_id := None;
                     asset_created_by := Some "bob"%string |}] |}
    alice
    {| asset_id_ := "spare"; asset_department_id := None;
       asset_created_by := Some "bob"%string |} = Some true /\
  PolicyExpansion.select_assets
    {| profiles := profiles two_tenants;
       departments := departments two_tenants;
       assets := [{| asset_id_ := "spare"; asset_department_id := None;
                     asset_created_by := Some "bob"%string |}] |}
    alice
  = PolicyExpansion.Aborted PolicyExpansion.profiles.
Proof.
  destruct (C9_unassigned_assets_out_of_reach
              {| profiles := profiles two_tenants;
                 departments := departments two_tenants;
                 assets := [{| asset_id_ := "spare";
                               asset_department_id := None;
                               asset_created_by := Some "bob"%string |}] |}
              "alice"
              {| asset_id_ := "spare"; asset_department_id := None;
                 asset_created_by := Some "bob"%string |})
    as (H1 & _ & H3 & _).
  - left. reflexivity.
  - reflexivity.
  - split; [exact H1 | exact H3].
Defined.

End TenantIsolation.
(* ===================================================================== *)
(** * The maintenance status workflow *)
(* ===================================================================== *)

Section StatusWorkflow.

Import Maintenance.

Lemma Status_eqb_eq (a b : Status) : Status_eqb a b = true <-> a = b.
Proof. destruct a, b; simpl; split; intros H; congruence. Qed.

Lemma existsb_Status_eqb (new : Status) (l : list Status) :
  existsb (Status_eqb new) l = true <-> In new l.
Proof.
  rewrite existsb_exists. split.
  - intros (x & Hin & Heq). apply Status_eqb_eq in Heq. now subst.
  - intros Hin. exists new. split; [assumption | now apply Status_eqb_eq].
Qed.

(** The buttons rendered for a status lead along the workflow, and there
    is at most one of them. *)
Lemma status_buttons_transition (s new : Status) :
  In new (status_buttons s) -> transition s new.
Proof.
  unfold transition.
  destruct s; simpl; intros H; try contradiction;
    destruct H as [<- | []]; tauto.
Qed.

Lemma status_buttons_unique (s a b : Status) :
  In a (status_buttons s) -> In b (status_buttons s) -> a = b.
Proof.
  destruct s; simpl; intros Ha Hb; try contradiction;
    destruct Ha as [<- | []]; destruct Hb as [<- | []]; reflexivity.
Qed.

Lemma terminal_no_transition (s s' : Status) :
  terminal s -> ~ transition s s'.
Proof.
  intros [-> | ->] [[H _] | [[H _] | [[H _] | [H _]]]]; discriminate.
Qed.

(** An in-place update that keeps the status. *)
Lemma lookup_alter_status
    (f : MaintenanceItem -> MaintenanceItem)
    (t : gmap string MaintenanceItem) (i j : string) (r' : MaintenanceItem) :
  (forall r, status (f r) = status r) ->
  alter f i t !! j = Some r' ->
  exists r, t !! j = Some r /\ status r' = status r.
Proof.
  intros Hf H. rewrite lookup_alter in H.
  destruct (decide (i = j)) as [-> | Hne].
  - destruct (t !! j) as [r |]; [| discriminate].
    simpl in H. injection H as <-. eauto.
  - eauto.
Qed.

Lemma handleEditMaintenance_status t mid fd id r' :
  handleEditMaintenance t mid fd !! id = Some r' ->
  exists r, t !! id = Some r /\ status r' = status r.
Proof. apply lookup_alter_status. reflexivity. Qed.

Lemma handleSubmit_old t nid fd id r :
  t !! id = Some r -> handleSubmit t nid fd !! id = Some r.
Proof.
  intros H. unfold handleSubmit. destruct (t !! nid) eqn:Hn; [assumption |].
  rewrite lookup_insert_ne; [assumption | congruence].
Qed.

Lemma handleSubmit_lookup t nid fd id r' :
  handleSubmit t nid fd !! id = Some r' ->
  t !! id = Some r' \/ (id = nid /\ t !! nid = None /\ status r' = agendada).
Proof.
  unfold handleSubmit. destruct (t !! nid) eqn:Hn; [now left |].
  rewrite lookup_insert. destruct (decide (nid = id)) as [<- | Hne].
  - intros H. injection H as <-. right. auto.
  - now left.
Qed.

(** The first list fetched is consistent with the table, and every action
    keeps the screen consistent. *)
Lemma loaded_consistent (t : gmap string MaintenanceItem) :
  screen_consistent (loaded t).
Proof.
  intros id shown stored new Hs Ht Hin. simpl in Hs, Ht.
  assert (shown = stored) as -> by congruence.
  right. now apply status_buttons_transition.
Qed.

Lemma perform_consistent (d : DashboardState) (act : Action) :
  screen_consistent d -> screen_consistent (perform d act).
Proof.
  intros Hd.
  destruct act as [| mid new0 today | mid fd | mid | nid fd]; simpl.
  - apply loaded_consistent.
  - unfold button_rendered.
    destruct (recentMaintenances d !! mid) as [r0 |] eqn:Hr0; [| assumption].
    destruct (existsb (Status_eqb new0) (status_buttons (status r0))) eqn:Hb;
      [| assumption].
    apply existsb_Status_eqb in Hb.
    intros id shown stored new Hs Ht Hin. simpl in Hs, Ht.
    unfold handleStatusChange in Ht. rewrite lookup_alter in Ht.
    destruct (decide (mid = id)) as [-> | Hne].
    + destruct (table d !! id) as [r |]; [| discriminate].
      simpl in Ht. injection Ht as <-. simpl.
      left. assert (shown = r0) as -> by congruence.
      eapply status_buttons_unique; eassumption.
    + eapply Hd; eassumption.
  - intros id shown stored new Hs Ht Hin. simpl in Hs, Ht.
    apply handleEditMaintenance_status in Ht as (r & Hr & ->).
    eapply Hd; eassumption.
  - intros id shown stored new Hs Ht Hin. simpl in Hs, Ht.
    unfold handleDeleteMaintenance in Ht. rewrite lookup_delete in Ht.
    destruct (decide (mid = id)); [discriminate |].
    eapply Hd; eassumption.
  - destruct (recentMaintenances d !! nid) eqn:Hn; [assumption |].
    intros id shown stored new Hs Ht Hin. simpl in Hs, Ht.
    apply handleSubmit_lookup in Ht as [Ht | (-> & _ & _)].
    + eapply Hd; eassumption.
    + congruence.
Qed.

Lemma run_consistent (acts : list Action) (d : DashboardState) :
  screen_consistent d -> screen_consistent (run d acts).
Proof.
  revert d. induction acts as [| act acts IH]; intros d Hd; [assumption |].
  simpl. apply IH. now apply perform_consistent.
Qed.

(** On a consistent screen one action changes the status of a stored
    record along the workflow or not at all. *)
Lemma perform_status (d : DashboardState) (act : Action)
    (id : string) (s s' : Status) :
  screen_consistent d ->
  status_at d id = Some s ->
  status_at (perform d act) id = Some s' ->
  s' = s \/ transition s s'.
Proof.
  unfold status_at. intros Hd Hs Hs'.
  destruct (table d !! id) as [r |] eqn:Hr; [| discriminate].
  simpl in Hs. injection Hs as <-.
  destruct (table (perform d act) !! id) as [r' |] eqn:Hr'; [| discriminate].
  simpl in Hs'. injection Hs' as <-.
  destruct act as [| mid new0 today | mid fd | mid | nid fd]; simpl in Hr'.
  - left. congruence.
  - unfold button_rendered in Hr'.
    destruct (recentMaintenances d !! mid) as [r0 |] eqn:Hr0;
      [| left; congruence].
    destruct (existsb (Status_eqb new0) (status_buttons (status r0))) eqn:Hb;
      [| left; congruence].
    apply existsb_Status_eqb in Hb. simpl in Hr'.
    unfold handleStatusChange in Hr'. rewrite lookup_alter in Hr'.
    destruct (decide (mid = id)) as [-> | Hne].
    + rewrite Hr in Hr'. simpl in Hr'. injection Hr' as <-. simpl.
      exact (Hd id r0 r new0 Hr0 Hr Hb).
    + left. congruence.
  - apply handleEditMaintenance_status in Hr' as (r1 & Hr1 & ->).
    left. congruence.
  - unfold handleDeleteMaintenance in Hr'. rewrite lookup_delete in Hr'.
    destruct (decide (mid = id)); [discriminate |]. left. congruence.
  - destruct (recentMaintenances d !! nid); simpl in Hr'; [left; congruence |].
    rewrite (handleSubmit_old _ nid fd id r Hr) in Hr'. left. congruence.
Qed.

(** An action other than the deletion of the record keeps the record. *)
Lemma perform_keeps (d : DashboardState) (act : Action) (id : string) :
  is_Some (table d !! id) -> act <> ConfirmDelete id ->
  is_Some (table (perform d act) !! id).
Proof.
  intros [r Hr] Hact.
  destruct act as [| mid new0 today | mid fd | mid | nid fd]; simpl.
  - eauto.
  - destruct (button_rendered (recentMaintenances d) mid new0); simpl;
      [| eauto].
    unfold handleStatusChange. rewrite lookup_alter.
    destruct (decide (mid = id)) as [-> | Hne]; [| eauto].
    rewrite Hr. simpl. eauto.
  - unfold handleEditMaintenance. rewrite lookup_alter.
    destruct (decide (mid = id)) as [-> | Hne]; [| eauto].
    rewrite Hr. simpl. eauto.
  - unfold handleDeleteMaintenance. rewrite lookup_delete.
    destruct (decide (mid = id)) as [-> | Hne]; [congruence | eauto].
  - destruct (recentMaintenances d !! nid); simpl; [eauto |].
    rewrite (handleSubmit_old _ nid fd id r Hr). eauto.
Qed.

(** A record in a terminal status keeps it through any sequence of
    actions that does not delete the record. *)
Lemma run_terminal (acts : list Action) (d : DashboardState)
    (id : string) (s : Status) :
  screen_consistent d ->
  status_at d id = Some s -> terminal s ->
  ~ In (ConfirmDelete id) acts ->
  status_at (run d acts) id = Some s.
Proof.
  revert d. induction acts as [| act acts IH]; intros d Hd Hs Ht Hdel.
  - exact Hs.
  - simpl. apply IH;
      [now apply perform_consistent | | assumption
      | intros Hin; apply Hdel; now right].
    assert (Hk : is_Some (table (perform d act) !! id)).
    { apply perform_keeps.
      - unfold status_at in Hs.
        destruct (table d !! id); [eauto | discriminate].
      - intros ->. apply Hdel. now left. }
    destruct Hk as [r' Hr'].
    assert (Hs' : status_at (perform d act) id = Some (status r'))
      by (unfold status_at; now rewrite Hr').
    destruct (perform_status d act id s (status r') Hd Hs Hs') as [E | T].
    + now rewrite Hs', E.
    + exfalso. eapply terminal_no_transition; eassumption.
Qed.

(** One session alone keeps to the workflow: every action leaves the
    status of a stored record unchanged or moves it along agendada ->
    em_andamento -> concluída, and a record that is concluída or cancelada
    keeps that status through every later sequence of actions that does
    not delete it. *)
Lemma one_session_workflow
    (t : gmap string MaintenanceItem) (acts : list Action) :
  let d := run (loaded t) acts in
  (forall act id s s',
     status_at d id = Some s ->
     status_at (perform d act) id = Some s' ->
     s' = s \/ transition s s') /\
  (forall later id s,
     status_at d id = Some s -> terminal s ->
     ~ In (ConfirmDelete id) later ->
     status_at (run d later) id = Some s).
Proof.
  intros d.
  assert (Hd : screen_consistent d)
    by (apply run_consistent, loaded_consistent).
  split.
  - intros act id s s'. now apply perform_status.
  - intros later id s. now apply run_terminal.
Qed.

(** The guard lives in the buttons only: [handleStatusChange] itself
    would move a finished record back. *)
Lemma handleStatusChange_unguarded :
  status <$> workshop !! "m2" = Some concluida /\
  status <$> handleStatusChange workshop "m2" em_andamento 20 !! "m2"
    = Some em_andamento.
Proof. split; vm_compute; reflexivity. Qed.

(** A button pressed twice before the list is fetched again writes the
    same status twice. *)
Lemma stale_button_is_harmless :
  status_at
    (run (loaded workshop)
       [ClickStatus "m1" em_andamento 20; ClickStatus "m1" em_andamento 20])
    "m1" = Some em_andamento.
Proof. vm_compute. reflexivity. Qed.

End StatusWorkflow.

Section StatusWorkflowOfTwoSessions.

Import Maintenance MaintenanceSessions.


End StatusWorkflowOfTwoSessions.

(* ===================================================================== *)
(** * The useful-life field of the asset forms *)
(* ===================================================================== *)

Section UsefulLifeField.

Import JSString.


Lemma store_integer_of_Z (z : Z) :
  store_integer_not_null (JS.of_Z z) = Some z \/
  store_integer_not_null (JS.of_Z z) = None.
Proof.
  unfold store_integer_not_null, JS.of_Z. rewrite Qfloor_Z.
  destruct (is_integer (inject_Z z) && (-2147483648 <=? z)
            && (z <=? 2147483647))%Z; [now left | now right].
Qed.

Lemma or_five_of_Z (z : Z) :
  (JS.of_Z z || JS.of_Z 5)%js = if (z =? 0)%Z then JS.of_Z 5 else JS.of_Z z.
Proof.
  unfold JS.or, JS.truthy, JS.of_Z.
  destruct (Z.eqb_spec z 0) as [-> | Hz]; [reflexivity |].
  now rewrite Qzero_b_inject_Z.
Qed.



(** What a submission of the edit form that is accepted stores for some
    texts: the empty field and [0.1e1] give 5, [0] does not submit. *)
Lemma EditAssetModal_submit_examples :
  EditAssetModal.submit [] = Some 5%Z /\
  EditAssetModal.submit (lit "0.1e1") = Some 5%Z /\
  EditAssetModal.submit (lit "0") = None /\
  EditAssetModal.submit (lit "12") = Some 12%Z.
Proof. repeat split; vm_compute; reflexivity. Qed.

(** ** The creation form on plain decimal numerals *)

Lemma span_digits_all (s : jsstring) :
  forallb is_digit s = true -> span_digits s = (s, []).
Proof.
  induction s as [| c s IH]; simpl; [reflexivity |].
  intros H. apply andb_prop in H as [Hc Hs].
  rewrite Hc, (IH Hs). reflexivity.
Qed.

Lemma is_digit_range (c : N) :
  is_digit c = true -> (48 <= c <= 57)%N.
Proof.
  unfold is_digit. intros H. apply andb_prop in H as [H1 H2].
  apply N.leb_le in H1, H2. lia.
Qed.

Lemma is_digit_not (c k : N) :
  is_digit c = true -> (k < 48 \/ 57 < k)%N -> (c =? k)%N = false.
Proof.
  intros H Hk. apply is_digit_range in H. apply N.eqb_neq. lia.
Qed.

Lemma is_digit_not_whitespace (c : N) :
  is_digit c = true -> is_whitespace c = false.
Proof.
  intros H. apply is_digit_range in H. unfold is_whitespace.
  apply orb_false_intro.
  - simpl. repeat (apply orb_false_intro; [apply N.eqb_neq; lia |]).
    reflexivity.
  - apply andb_false_intro1. apply N.leb_gt. lia.
Qed.

(** On a non-empty text of decimal digits, [parseInt] and the number the
    input denotes are the decimal value of the text. *)
Lemma parseInt_digits (c : N) (s : jsstring) :
  forallb is_digit (c :: s) = true ->
  parseInt (c :: s) = JS.of_Z (decimal_value (c :: s)).
Proof.
  intros H. pose proof (span_digits_all _ H) as Hspan.
  simpl in H. apply andb_prop in H as [Hc Hs].
  unfold parseInt. simpl trim_start.
  rewrite (is_digit_not_whitespace c Hc).
  rewrite (is_digit_not c 45 Hc), (is_digit_not c 43 Hc) by lia.
  unfold parse_magnitude.
  assert (Hdec : parse_decimal (c :: s) = Some (decimal_value (c :: s)))
    by (unfold parse_decimal; rewrite Hspan; reflexivity).
  destruct s as [| x r]; [now rewrite Hdec |].
  simpl in Hs. apply andb_prop in Hs as [Hx _].
  rewrite (is_digit_not x 120 Hx), (is_digit_not x 88 Hx) by lia.
  rewrite andb_false_r. now rewrite Hdec.
Qed.

Lemma parse_floating_point_digits (c : N) (s : jsstring) :
  forallb is_digit (c :: s) = true ->
  parse_floating_point (c :: s)
  = Some (inject_Z (decimal_value (c :: s)) * pow10 0)%Q.
Proof.
  intros H. pose proof (span_digits_all _ H) as Hspan.
  simpl in H. apply andb_prop in H as [Hc Hs].
  unfold parse_floating_point.
  rewrite (is_digit_not c 45 Hc) by lia.
  unfold parse_unsigned, parse_mantissa. rewrite Hspan. reflexivity.
Qed.

(** C7: the creation form does let a zero useful life through to the
    insert.  The text [0] fails the [min="1"] constraint, but [0.1e1] is
    the number 1 for the constraint and [0] for [parseInt]: the browser
    lets the form submit, the input hands the text to the form data
    unchanged, and [handleSubmit] sends [useful_life_years = 0].  On a
    row with that value AssetList's [calculateBookValue] and the
    dashboard loop divide by zero and return NaN. *)
Theorem C7_zero_useful_life_is_sent :
  checkValidity (AssetForm.useful_life_years_input (lit "0")) = false /\
  checkValidity (AssetForm.useful_life_years_input (lit "0.1e1")) = true /\
  JSString.value (AssetForm.useful_life_years_input (lit "0.1e1"))
    = lit "0.1e1" /\
  AssetForm.assetData_useful_life_years
    (JSString.value (AssetForm.useful_life_years_input (lit "0.1e1")))
    = JS.of_Z 0 /\
  AssetList.calculateBookValue (jsonAsset 10000 1000 0 0) 31536000000
    = PrimFloat.nan /\
  Dashboard.bookValueSummand (jsonAsset 10000 1000 0 0) 31536000000
    = PrimFloat.nan.
Proof. repeat split; vm_compute; reflexivity. Qed.

End UsefulLifeField.


(* ===================================================================== *)
(** * The notification list *)
(* ===================================================================== *)

Section Notifications.

Import JSString NotificationSystem.

Variable toLocaleDateString : Z -> jsstring.

Lemma existsb_eqb_In (x : string) (l : list string) :
  existsb (String.eqb x) l = true <-> In x l.
Proof.
  rewrite existsb_exists. split.
  - intros (y & Hy & E). apply String.eqb_eq in E. now subst.
  - intros H. exists x. split; [assumption | apply String.eqb_refl].
Qed.

Lemma In_map_filter {A B} (g : A -> B) (f : A -> bool) (l : list A) (y : B) :
  In y (map g (List.filter f l)) -> In y (map g l).
Proof.
  rewrite !in_map_iff. intros (x & E & Hx).
  apply filter_In in Hx as [Hx _]. eauto.
Qed.

Lemma NoDup_map_filter {A B} (g : A -> B) (f : A -> bool) (l : list A) :
  NoDup (map g l) -> NoDup (map g (List.filter f l)).
Proof.
  induction l as [| a l IH]; simpl; intros H; [constructor |].
  apply NoDup_cons in H as [Hn Hl].
  destruct (f a); simpl; [apply NoDup_cons; split |]; auto.
  rewrite list_elem_of_In in *.
  intros Hin. apply Hn. eapply In_map_filter. eassumption.
Qed.

Lemma NoDup_map_append {A} (prefix : string) (g : A -> string) (l : list A) :
  NoDup (map g l) ->
  NoDup (map (fun x => String.append prefix (g x)) l).
Proof.
  assert (Hinj : forall a b, String.append prefix a = String.append prefix b
                             -> a = b).
  { induction prefix as [| c p IH]; simpl; intros a b E; [assumption |].
    injection E as E. now apply IH. }
  induction l as [| a l IH]; simpl; intros H; [constructor |].
  apply NoDup_cons in H as [Hn Hl].
  apply NoDup_cons. split; [| now apply IH].
  rewrite list_elem_of_In in *.
  rewrite in_map_iff. intros (x & E & Hx). apply Hn.
  apply Hinj in E. rewrite <- E. now apply in_map.
Qed.

(** Appending the new notifications of a batch keeps the ids distinct. *)
Lemma add_new_NoDup (batch prev : list Notification) :
  NoDup (map id prev) -> NoDup (map id batch) ->
  NoDup (map id (add_new batch prev)).
Proof.
  intros Hp Hb. unfold add_new. rewrite map_app.
  apply NoDup_app. split; [assumption |]. split.
  - intros x Hx Hx'. apply list_elem_of_In in Hx, Hx'.
    apply in_map_iff in Hx' as (n & E & Hn).
    apply filter_In in Hn as [_ Hn]. apply negb_true_iff in Hn.
    subst x. apply existsb_eqb_In in Hx. congruence.
  - now apply NoDup_map_filter.
Qed.

Lemma markAsRead_ids i (ns : list Notification) :
  map id (markAsRead i ns) = map id ns.
Proof.
  unfold markAsRead. rewrite map_map. apply map_ext.
  intros n. now destruct (String.eqb (id n) i).
Qed.

Lemma handle_NoDup (ns : list Notification) (e : Event) :
  primary_keys e -> NoDup (map id ns) ->
  NoDup (map id (handle toLocaleDateString ns e)).
Proof.
  intros Hk Hn.
  destruct e as [[table |] today now | [table |] now | i | i |]; simpl in *;
    try assumption.
  - unfold checkOverdueMaintenance.
    assert (Hb : NoDup
                   (map id (map (overdueNotification toLocaleDateString now)
                                (overdue_rows table today)))).
    { rewrite map_map. cbn [id overdueNotification].
      apply NoDup_map_append. now apply (NoDup_map_filter row_id). }
    destruct (overdue_rows table today); [assumption |].
    now apply add_new_NoDup.
  - unfold checkDepreciationAlerts.
    set (alerts := List.filter _ (active_rows table)).
    assert (Hb : NoDup (map id (map (depreciationNotification now) alerts))).
    { rewrite map_map. cbn [id depreciationNotification].
      apply NoDup_map_append.
      apply (NoDup_map_filter asset_row_id).
      now apply (NoDup_map_filter asset_row_id). }
    destruct alerts; [assumption |].
    now apply add_new_NoDup.
  - now rewrite markAsRead_ids.
  - now apply (NoDup_map_filter id).
  - unfold markAllAsRead. rewrite map_map. exact Hn.
Qed.

(** X6: the list rendered with [key={notification.id}] never holds an id
    twice.  Starting from the empty list, after any sequence of checks and
    button presses the ids of the notifications are pairwise distinct,
    provided the tables the checks read hold no primary key twice. *)
Theorem notification_ids_distinct (events : list Event) :
  Forall primary_keys events ->
  NoDup (map id (fold_left (handle toLocaleDateString) events [])).
Proof.
  assert (H : forall ns, NoDup (map id ns) -> Forall primary_keys events ->
                NoDup (map id (fold_left (handle toLocaleDateString)
                                              events ns))).
  { induction events as [| e es IH]; intros ns Hn Hall; [assumption |].
    inversion Hall; subst. simpl. apply IH; [| assumption].
    now apply handle_NoDup. }
  intros Hall. apply H; [constructor | assumption].
Qed.

(** A second batch with the ids of the first adds nothing. *)
Lemma add_new_again (batch batch' prev : list Notification) :
  map id batch' = map id batch ->
  add_new batch' (add_new batch prev) = add_new batch prev.
Proof.
  intros E. unfold add_new at 1.
  assert (Hnone : List.filter
            (fun n => negb (existsb (String.eqb (id n))
                                    (map id (add_new batch prev)))) batch'
          = []).
  { assert (Hall : forall n, In n batch' ->
                     In (id n) (map id (add_new batch prev))).
    { intros n Hn. unfold add_new. rewrite map_app, in_app_iff.
      destruct (existsb (String.eqb (id n)) (map id prev)) eqn:Ex.
      - left. now apply existsb_eqb_In.
      - right. assert (Hi : In (id n) (map id batch))
          by (rewrite <- E; now apply in_map).
        apply in_map_iff in Hi as (m & Em & Hm).
        apply in_map_iff. exists m. split; [assumption |].
        apply filter_In. split; [assumption |]. now rewrite Em, Ex. }
    induction batch' as [| n l IH] in Hall |- *; [reflexivity |].
    simpl. rewrite (proj2 (existsb_eqb_In _ _) (Hall n (or_introl eq_refl))).
    simpl. apply IH. intros m Hm. apply Hall. now right. }
  rewrite Hnone. apply app_nil_r.
Qed.

(** X7: a check that finds the same rows again changes nothing: running
    [checkOverdueMaintenance] (or [checkDepreciationAlerts]) a second time
    on the same table, even at a later reading of the clock, leaves the
    list as the first run left it. *)
Theorem check_again_adds_nothing
    (ns : list Notification) (today now now' : Z)
    (maintenances : option (list MaintenanceRow))
    (assets : option (list AssetRow)) :
  checkOverdueMaintenance toLocaleDateString maintenances today now'
    (checkOverdueMaintenance toLocaleDateString maintenances today now ns)
  = checkOverdueMaintenance toLocaleDateString maintenances today now ns /\
  checkDepreciationAlerts assets now
    (checkDepreciationAlerts assets now ns)
  = checkDepreciationAlerts assets now ns.
Proof.
  split.
  - unfold checkOverdueMaintenance.
    destruct maintenances as [table |]; [| reflexivity].
    destruct (overdue_rows table today) as [| m ms] eqn:E; [reflexivity |].
    apply add_new_again. rewrite !map_map. reflexivity.
  - unfold checkDepreciationAlerts.
    destruct assets as [table |]; [| reflexivity].
    destruct (List.filter _ (active_rows table)) as [| a l]; [reflexivity |].
    now apply add_new_again.
Qed.

Lemma dismiss_removes i (ns : list Notification) :
  ~ In i (map id (dismissNotification i ns)).
Proof.
  unfold dismissNotification. rewrite in_map_iff. intros (n & E & Hn).
  apply filter_In in Hn as [_ Hn]. apply negb_true_iff in Hn.
  rewrite E, String.eqb_refl in Hn. discriminate.
Qed.

(** X8: dismissing does not last.  If a maintenance is still scheduled
    and overdue at the next check, the notification the user dismissed is
    in the list again, unread. *)
Theorem dismissed_overdue_comes_back
    (ns : list Notification) (table : list MaintenanceRow)
    (m : MaintenanceRow) (today now : Z) :
  In m table ->
  row_status m = Maintenance.agendada ->
  (row_scheduled_date m < today)%Z ->
  let i := String.append "overdue-" (row_id m) in
  exists n,
    In n (checkOverdueMaintenance toLocaleDateString (Some table) today now
            (dismissNotification i ns)) /\
    id n = i /\ read n = false.
Proof.
  intros Hm Hs Hd i.
  assert (Hrow : In m (overdue_rows table today)).
  { apply filter_In. split; [assumption |].
    rewrite Hs. simpl. now apply Z.ltb_lt. }
  unfold checkOverdueMaintenance.
  destruct (overdue_rows table today) as [| m0 ms] eqn:E; [destruct Hrow |].
  exists (overdueNotification toLocaleDateString now m).
  split; [| split; reflexivity].
  unfold add_new. apply in_or_app. right.
  apply filter_In. split; [now apply in_map |].
  apply negb_true_iff.
  destruct (existsb _ _) eqn:Ex; [| reflexivity].
  apply existsb_eqb_In in Ex. now apply dismiss_removes in Ex.
Qed.

End Notifications.

Section NotificationExamples.

Import JSString NotificationSystem.

Lemma notification_ids_distinct_witness :
  NoDup
    (map id
       (fold_left (handle fixed_date)
          [OverdueChecked (Some [pump_overdue]) 20 1000;
           DepreciationChecked (Some [old_laptop]) 157788000000;
           MarkedAsRead "overdue-m1";
           OverdueChecked (Some [pump_overdue]) 20 2000] [])).
Proof.
  apply (notification_ids_distinct fixed_date).
  repeat constructor; apply not_elem_of_nil.
Defined.

Lemma dismissed_overdue_comes_back_witness :
  exists n,
    In n (checkOverdueMaintenance fixed_date (Some [pump_overdue]) 20 2000
            (dismissNotification "overdue-m1"
               (checkOverdueMaintenance fixed_date (Some [pump_overdue])
                  20 1000 []))) /\
    id n = "overdue-m1"%string /\ read n = false.
Proof.
  apply (dismissed_overdue_comes_back fixed_date
           (checkOverdueMaintenance fixed_date (Some [pump_overdue]) 20 1000 [])
           [pump_overdue] pump_overdue 20 2000).
  - now left.
  - reflexivity.
  - reflexivity.
Defined.

End NotificationExamples.

Section NotificationCounts.

Import JSString NotificationSystem.

Lemma markAsRead_absent i (ns : list Notification) :
  ~ In i (map id ns) -> markAsRead i ns = ns.
Proof.
  induction ns as [| n ns IH]; simpl; intros H; [reflexivity |].
  destruct (String.eqb_spec (id n) i) as [E | _].
  - exfalso. apply H. now left.
  - f_equal. apply IH. intros Hin. apply H. now right.
Qed.

(** X9: with distinct ids, marking an unread notification as read lowers
    the unread counter of the bell by exactly one and removes exactly
    that notification from the "unread only" view; "mark all as read"
    brings the counter to zero. *)
Theorem markAsRead_counts (ns : list Notification) (n : Notification) :
  NoDup (map id ns) -> In n ns -> read n = false ->
  S (unreadCount (markAsRead (id n) ns)) = unreadCount ns /\
  map id (filteredNotifications true (markAsRead (id n) ns))
  = List.filter (fun i => negb (String.eqb i (id n)))
                (map id (filteredNotifications true ns)) /\
  unreadCount (markAllAsRead ns) = 0%nat.
Proof.
  intros Hnd Hin Hr. split; [| split].
  - unfold unreadCount.
    induction ns as [| m ns IH]; [destruct Hin |].
    simpl in Hnd. apply NoDup_cons in Hnd as [Hm Hnd].
    rewrite list_elem_of_In in Hm.
    destruct Hin as [-> | Hin].
    + simpl. rewrite String.eqb_refl. simpl. rewrite Hr. simpl.
      fold (markAsRead (id n) ns). now rewrite markAsRead_absent.
    + assert (Hne : String.eqb (id m) (id n) = false).
      { apply String.eqb_neq. intros E. apply Hm. rewrite E.
        now apply in_map. }
      simpl. rewrite Hne. fold (markAsRead (id n) ns).
      destruct (read m); simpl; [now apply IH |].
      f_equal. now apply IH.
  - unfold filteredNotifications. clear Hin Hr Hnd.
    induction ns as [| m ns IH]; [reflexivity |].
    simpl. fold (markAsRead (id n) ns).
    destruct (String.eqb (id m) (id n)) eqn:E; simpl.
    + destruct (read m); simpl; [exact IH |]. rewrite E. simpl. exact IH.
    + destruct (read m); simpl; [exact IH |]. rewrite E. simpl.
      now rewrite IH.
  - unfold unreadCount, markAllAsRead.
    clear. induction ns as [| m ns IH]; [reflexivity |]. simpl. exact IH.
Qed.

Lemma markAsRead_counts_witness :
  S (unreadCount
       (markAsRead "overdue-m1"
          (checkOverdueMaintenance fixed_date (Some [pump_overdue]) 20 1000 [])))
  = unreadCount
      (checkOverdueMaintenance fixed_date (Some [pump_overdue]) 20 1000 []).
Proof.
  refine (proj1 (markAsRead_counts
                   (checkOverdueMaintenance fixed_date (Some [pump_overdue])
                      20 1000 [])
                   (overdueNotification fixed_date 1000 pump_overdue) _ _ _)).
  - apply NoDup_singleton.
  - now left.
  - reflexivity.
Defined.

End NotificationCounts.

(* ===================================================================== *)
(** * The counters of the maintenance dashboard *)
(* ===================================================================== *)

Section MaintenanceCounters.

Import Maintenance MaintenanceStats.

Lemma rows_lookup p (table : gmap string MaintenanceItem) i r :
  table !! i = Some r ->
  rows p table !! i = if p r then Some r else None.
Proof.
  intros Hr. unfold rows. destruct (p r) eqn:E.
  - apply map_lookup_filter_Some. now split.
  - apply map_lookup_filter_None. right. intros x Hx. simpl.
    rewrite Hr in Hx. injection Hx as <-. congruence.
Qed.

Lemma rows_alter p f (table : gmap string MaintenanceItem) i r :
  table !! i = Some r ->
  rows p (alter f i table)
  = if p (f r) then <[i := f r]> (rows p table) else delete i (rows p table).
Proof.
  intros Hr. rewrite (alter_alt_Some f table i r Hr). unfold rows.
  rewrite map_filter_insert. simpl.
  destruct (decide (p (f r) = true)) as [-> | Hn].
  - reflexivity.
  - apply not_true_is_false in Hn. rewrite Hn. apply map_filter_delete.
Qed.

Lemma size_lookup_Some {A} (m : gmap string A) i x :
  m !! i = Some x -> size m = S (size (delete i m)).
Proof.
  intros H. rewrite <- (insert_delete_id m i x H) at 1.
  apply map_size_insert_None, lookup_delete_eq.
Qed.

(** Rewriting one row moves it between the result sets it leaves and
    enters. *)
Lemma size_rows_alter p f (table : gmap string MaintenanceItem) i r :
  table !! i = Some r ->
  (size (rows p (alter f i table)) + (if p r then 1 else 0)
   = size (rows p table) + (if p (f r) then 1 else 0))%nat.
Proof.
  intros Hr. rewrite (rows_alter p f table i r Hr).
  pose proof (rows_lookup p table i r Hr) as Hl.
  destruct (p (f r)), (p r).
  - rewrite map_size_insert_Some by (rewrite Hl; eauto). reflexivity.
  - rewrite map_size_insert_None by assumption. lia.
  - rewrite (size_lookup_Some _ i r Hl). lia.
  - rewrite map_size_delete_None by assumption. reflexivity.
Qed.

(** X11: pressing "Iniciar" on a scheduled record moves exactly that record
    from the pending to the in-progress counter: pending drops by one,
    in progress rises by one, completed-this-month and its cost stay, and
    the overdue counter drops by one if the record was overdue. *)
Theorem start_moves_one_record
    (table : gmap string MaintenanceItem) (id : string) (r : MaintenanceItem)
    (monthStart monthEnd today clickDay : Z) :
  table !! id = Some r -> status r = agendada ->
  let before := fetchMaintenanceStats (Some table) monthStart monthEnd today in
  let after :=
    fetchMaintenanceStats
      (Some (handleStatusChange table id em_andamento clickDay))
      monthStart monthEnd today in
  S (pendingCount after) = pendingCount before /\
  inProgressCount after = S (inProgressCount before) /\
  completedThisMonth after = completedThisMonth before /\
  totalCostThisMonth after = totalCostThisMonth before /\
  (overdue after + (if (scheduled_date r <? today)%Z then 1 else 0)
   = overdue before)%nat.
Proof.
  intros Hr Hs before after. subst before after.
  unfold handleStatusChange.
  set (f := fun r0 : MaintenanceItem => _).
  cbn [fetchMaintenanceStats pendingCount inProgressCount completedThisMonth
       totalCostThisMonth overdue].
  pose proof (size_rows_alter pending f table id r Hr) as H1.
  pose proof (size_rows_alter inProgress f table id r Hr) as H2.
  pose proof (size_rows_alter (overdue_ today) f table id r Hr) as H4.
  pose proof (rows_alter (completed monthStart monthEnd) f table id r Hr) as H3.
  pose proof (rows_lookup (completed monthStart monthEnd) table id r Hr) as H5.
  assert (E1 : pending r = true) by (unfold pending; now rewrite Hs).
  assert (E2 : inProgress r = false) by (unfold inProgress; now rewrite Hs).
  assert (E3 : completed monthStart monthEnd r = false)
    by (unfold completed; now rewrite Hs).
  assert (E4 : overdue_ today r = (scheduled_date r <? today)%Z)
    by (unfold overdue_; now rewrite Hs).
  change (pending (f r)) with false in H1.
  change (inProgress (f r)) with true in H2.
  change (completed monthStart monthEnd (f r)) with false in H3.
  change (overdue_ today (f r)) with false in H4.
  rewrite E1 in H1. rewrite E2 in H2. rewrite E3 in H5. rewrite E4 in H4.
  rewrite H3, map_size_delete_None, delete_id by assumption.
  repeat split; lia.
Qed.

Lemma start_moves_one_record_witness :
  S (pendingCount
       (fetchMaintenanceStats
          (Some (handleStatusChange workshop "m1" em_andamento 20)) 0 30 20))
  = pendingCount (fetchMaintenanceStats (Some workshop) 0 30 20).
Proof.
  refine (proj1 (start_moves_one_record workshop "m1"
                   {| asset_id := "pump-7"; description := "lubrificar";
                      scheduled_date := 18; status := agendada; cost := 0;
                      maintenance_type := preventiva; labor_hours := 1;
                      completed_date := None |} 0 30 20 20 _ _));
    reflexivity.
Defined.

(** X12: pressing "Concluir" on a record in progress, on a day of the
    current month, moves exactly that record from the in-progress counter
    to "completed this month"; the pending and overdue counters stay. *)
Theorem finish_moves_one_record
    (table : gmap string MaintenanceItem) (id : string) (r : MaintenanceItem)
    (monthStart monthEnd today clickDay : Z) :
  table !! id = Some r -> status r = em_andamento ->
  (monthStart <= clickDay <= monthEnd)%Z ->
  let before := fetchMaintenanceStats (Some table) monthStart monthEnd today in
  let after :=
    fetchMaintenanceStats
      (Some (handleStatusChange table id concluida clickDay))
      monthStart monthEnd today in
  pendingCount after = pendingCount before /\
  S (inProgressCount after) = inProgressCount before /\
  completedThisMonth after = S (completedThisMonth before) /\
  overdue after = overdue before.
Proof.
  intros Hr Hs Hday before after. subst before after.
  unfold handleStatusChange.
  set (f := fun r0 : MaintenanceItem => _).
  cbn [fetchMaintenanceStats pendingCount inProgressCount completedThisMonth
       totalCostThisMonth overdue].
  pose proof (size_rows_alter pending f table id r Hr) as H1.
  pose proof (size_rows_alter inProgress f table id r Hr) as H2.
  pose proof (size_rows_alter (overdue_ today) f table id r Hr) as H4.
  pose proof (rows_alter (completed monthStart monthEnd) f table id r Hr) as H3.
  pose proof (rows_lookup (completed monthStart monthEnd) table id r Hr) as H5.
  assert (E1 : pending r = false) by (unfold pending; now rewrite Hs).
  assert (E2 : inProgress r = true) by (unfold inProgress; now rewrite Hs).
  assert (E3 : completed monthStart monthEnd r = false)
    by (unfold completed; now rewrite Hs).
  assert (E4 : overdue_ today r = false)
    by (unfold overdue_; now rewrite Hs).
  assert (E5 : completed monthStart monthEnd (f r) = true).
  { unfold completed. subst f. cbn [status completed_date Status_eqb].
    apply andb_true_intro; split; [reflexivity |].
    apply andb_true_intro; split; apply Z.leb_le; lia. }
  change (pending (f r)) with false in H1.
  change (inProgress (f r)) with false in H2.
  change (overdue_ today (f r)) with false in H4.
  rewrite E1 in H1. rewrite E2 in H2. rewrite E3 in H5. rewrite E4 in H4.
  rewrite E5 in H3.
  rewrite H3, map_size_insert_None by assumption.
  repeat split; lia.
Qed.

Lemma finish_moves_one_record_witness :
  completedThisMonth
    (fetchMaintenanceStats
       (Some (handleStatusChange
                (handleStatusChange workshop "m1" em_andamento 20)
                "m1" concluida 21)) 0 30 22)
  = S (completedThisMonth
         (fetchMaintenanceStats
            (Some (handleStatusChange workshop "m1" em_andamento 20))
            0 30 22)).
Proof.
  refine (proj1 (proj2 (proj2
            (finish_moves_one_record
               (handleStatusChange workshop "m1" em_andamento 20) "m1"
               {| asset_id := "pump-7"; description := "lubrificar";
                  scheduled_date := 18; status := em_andamento; cost := 0;
                  maintenance_type := preventiva; labor_hours := 1;
                  completed_date := None |} 0 30 22 21 _ _ _))));
    [reflexivity | reflexivity | lia].
Defined.

End MaintenanceCounters.

Section NoCancellation.

Import Maintenance.

Lemma status_buttons_not_cancelada (s : Status) :
  ~ In cancelada (status_buttons s).
Proof. destruct s; simpl; intros H; intuition discriminate. Qed.

Lemma perform_never_cancels (d : DashboardState) (act : Action) (id : string) :
  status_at (perform d act) id = Some cancelada ->
  status_at d id = Some cancelada.
Proof.
  unfold status_at.
  destruct (table (perform d act) !! id) as [r' |] eqn:Hr'; [| discriminate].
  simpl. intros Hs. injection Hs as Hs.
  destruct act as [| mid new0 today | mid fd | mid | nid fd]; simpl in Hr'.
  - now rewrite Hr', <- Hs.
  - unfold button_rendered in Hr'.
    destruct (recentMaintenances d !! mid) as [r0 |] eqn:Hr0;
      [| now rewrite Hr', <- Hs].
    destruct (existsb (Status_eqb new0) (status_buttons (status r0))) eqn:Hb;
      [| now rewrite Hr', <- Hs].
    apply existsb_Status_eqb in Hb. simpl in Hr'.
    unfold handleStatusChange in Hr'. rewrite lookup_alter in Hr'.
    destruct (decide (mid = id)) as [-> | Hne].
    + destruct (table d !! id) as [r |]; [| discriminate].
      simpl in Hr'. injection Hr' as <-. simpl in Hs. subst new0.
      now apply status_buttons_not_cancelada in Hb.
    + now rewrite Hr', <- Hs.
  - apply handleEditMaintenance_status in Hr' as (r1 & -> & E).
    simpl. congruence.
  - unfold handleDeleteMaintenance in Hr'. rewrite lookup_delete in Hr'.
    destruct (decide (mid = id)); [discriminate |]. now rewrite Hr', <- Hs.
  - destruct (recentMaintenances d !! nid); simpl in Hr';
      [now rewrite Hr', <- Hs |].
    apply handleSubmit_lookup in Hr' as [-> | (_ & _ & E)];
      [simpl; congruence | congruence].
Qed.

(** X13: the dashboard cannot cancel a maintenance.  Whatever the user
    does in a session (status buttons, edits, deletions, new records,
    with or without the list reloaded in between), a record that is
    [cancelada] afterwards was [cancelada] in the table the session
    started from. *)
Theorem no_action_cancels
    (t : gmap string MaintenanceItem) (acts : list Action) (id : string) :
  status_at (run (loaded t) acts) id = Some cancelada ->
  status <$> t !! id = Some cancelada.
Proof.
  change (status <$> t !! id) with (status_at (loaded t) id).
  generalize (loaded t). induction acts as [| act acts IH]; intros d H.
  - exact H.
  - simpl in H. apply IH in H. now apply perform_never_cancels in H.
Qed.

Lemma no_action_cancels_witness :
  status <$>
    (<[ "m3"%string :=
          {| asset_id := "pump-7"; description := "pintura";
             scheduled_date := 30; status := cancelada; cost := 0;
             maintenance_type := preventiva; labor_hours := 0;
             completed_date := None |} ]> workshop) !! "m3"
  = Some cancelada.
Proof.
  apply (no_action_cancels _
           [ClickStatus "m1" em_andamento 20; FetchData;
            SaveEdit "m3" new_pump_form]).
  vm_compute. reflexivity.
Defined.

End NoCancellation.

(* ===================================================================== *)
(** * Who passes the company policies *)
(* ===================================================================== *)

Section CompanyPolicies.

Import Rls.

Lemma passes_sql_eq (a b : option uuid) :
  passes (sql_eq a b) = true <-> exists c, a = Some c /\ b = Some c.
Proof.
  destruct a as [x |], b as [y |]; simpl;
    try (split; [discriminate | intros (c & H1 & H2); discriminate]).
  destruct (String.eqb_spec x y) as [-> | Hne]; split.
  - eauto.
  - reflexivity.
  - discriminate.
  - intros (c & H1 & H2). congruence.
Qed.

(** X14: the SELECT policy of [assets], for a signed-in user with a
    profile: the user passes for an asset exactly when the asset has no
    department, or its department is a department of the company of the
    user's profile.  In particular a user whose profile has no company
    sees only the assets without department. *)
Theorem assets_policy_characterised
    (db : Database) (u : uuid) (p : Profile) (a : AssetRow) :
  profiles db !! u = Some p ->
  (passes (assets_select db (Some u) a) = true <->
   asset_department_id a = None \/
   exists d c, In d (departments db) /\
               asset_department_id a = Some (department_id_ d) /\
               department_company_id d = Some c /\
               profile_company_id p = Some c).
Proof.
  intros Hp.
  unfold assets_select, user_company_departments_join. rewrite Hp.
  destruct (asset_department_id a) as [did |]; simpl.
  - match goal with |- context [existsb ?g ?l] => set (ids := l) end.
    assert (Hin : In did ids <->
              exists d c, In d (departments db) /\
                          Some did = Some (department_id_ d) /\
                          department_company_id d = Some c /\
                          profile_company_id p = Some c).
    { subst ids. rewrite in_map_iff. split.
      - intros (d & <- & Hd). apply filter_In in Hd as [Hd Hc].
        apply passes_sql_eq in Hc as (c & Hc1 & Hc2).
        exists d, c. auto.
      - intros (d & c & Hd & E & Hc1 & Hc2). injection E as ->.
        exists d. split; [reflexivity |]. apply filter_In.
        split; [assumption |]. apply passes_sql_eq. eauto. }
    destruct (existsb (String.eqb did) ids) eqn:Ex; simpl.
    + split; [intros _ | reflexivity].
      right. now apply Hin, existsb_eqb_In.
    + split; [discriminate |].
      intros [H | H]; [discriminate |].
      apply Hin, existsb_eqb_In in H. congruence.
  - split; [now left |]. intros _.
    now destruct (map _ _).
Qed.

Lemma assets_policy_characterised_witness :
  passes (assets_select two_tenants alice asset_b) = true <->
  asset_department_id asset_b = None \/
  exists d c, In d (departments two_tenants) /\
              asset_department_id asset_b = Some (department_id_ d) /\
              department_company_id d = Some c /\
              Some "company-a"%string = Some c.
Proof.
  refine (assets_policy_characterised two_tenants "alice"
            {| profile_company_id := Some "company-a"%string;
               profile_department_id := Some "dept-a"%string;
               profile_unit_id := None |} asset_b _).
  vm_compute. reflexivity.
Defined.

(** X15: the SELECT policy of [documents], for a signed-in user with a
    profile: the user passes for a document exactly when the document has
    no asset, or its asset is an asset of a department of the company of
    the user's profile. *)
Theorem documents_policy_characterised
    (db : Database) (u : uuid) (p : Profile) (doc : DocumentRow) :
  profiles db !! u = Some p ->
  (passes (documents_select db (Some u) doc) = true <->
   document_asset_id doc = None \/
   exists a d c, In a (assets db) /\ In d (departments db) /\
                 document_asset_id doc = Some (asset_id_ a) /\
                 asset_department_id a = Some (department_id_ d) /\
                 department_company_id d = Some c /\
                 profile_company_id p = Some c).
Proof.
  intros Hp.
  unfold documents_select, user_company_assets. rewrite Hp.
  set (f := fun a : AssetRow => flat_map _ (departments db)).
  assert (Hin : forall x, In x (flat_map f (assets db)) <->
            exists a d c, In a (assets db) /\ In d (departments db) /\
                          x = asset_id_ a /\
                          asset_department_id a = Some (department_id_ d) /\
                          department_company_id d = Some c /\
                          profile_company_id p = Some c).
  { intros x. rewrite in_flat_map. subst f. split.
    - intros (a & Ha & Hx). apply in_flat_map in Hx as (d & Hd & Hx).
      destruct (passes (sql_eq (asset_department_id a) _)) eqn:E1;
        [| destruct Hx].
      destruct (passes (sql_eq (profile_company_id p) _)) eqn:E2;
        [| destruct Hx].
      destruct Hx as [<- | []].
      apply passes_sql_eq in E1 as (c1 & E1 & E1').
      apply passes_sql_eq in E2 as (c & E2 & E2').
      exists a, d, c. repeat split; congruence.
    - intros (a & d & c & Ha & Hd & -> & E1 & E2 & E3).
      exists a. split; [assumption |]. apply in_flat_map.
      exists d. split; [assumption |].
      rewrite (proj2 (passes_sql_eq _ _)) by eauto.
      rewrite (proj2 (passes_sql_eq _ _)) by eauto.
      now left. }
  destruct (document_asset_id doc) as [aid |]; simpl.
  - destruct (existsb (String.eqb aid) (flat_map f (assets db))) eqn:Ex;
      simpl.
    + split; [intros _ | reflexivity]. right.
      apply existsb_eqb_In, Hin in Ex as (a & d & c & ? & ? & -> & ?).
      exists a, d, c. tauto.
    + split; [discriminate |].
      intros [H | (a & d & c & Ha & Hd & E & H)]; [discriminate |].
      injection E as ->.
      assert (Ex' : existsb (String.eqb (asset_id_ a))
                      (flat_map f (assets db)) = true).
      { apply existsb_eqb_In, Hin. exists a, d, c. tauto. }
      congruence.
  - split; [now left |]. intros _. now destruct (flat_map _ _).
Qed.

Lemma documents_policy_characterised_witness :
  passes (documents_select two_tenants (Some "bob"%string) document_b) = true <->
  document_asset_id document_b = None \/
  exists a d c, In a (assets two_tenants) /\ In d (departments two_tenants) /\
                document_asset_id document_b = Some (asset_id_ a) /\
                asset_department_id a = Some (department_id_ d) /\
                department_company_id d = Some c /\
                Some "company-b"%string = Some c.
Proof.
  refine (documents_policy_characterised two_tenants "bob"
            {| profile_company_id := Some "company-b"%string;
               profile_department_id := Some "dept-b"%string;
               profile_unit_id := None |} document_b _).
  vm_compute. reflexivity.
Defined.

(** X16: the SELECT policies of [departments] and [units], for a
    signed-in user with a profile: a department passes exactly when its
    company is the company of the user's profile, a unit exactly when its
    department is a department of that company. *)
Theorem departments_units_policy_characterised
    (db : Database) (u : uuid) (p : Profile) (d : Department) (un : Unit_) :
  profiles db !! u = Some p ->
  (passes (departments_select db (Some u) d) = true <->
   exists c, department_company_id d = Some c /\
             profile_company_id p = Some c) /\
  (passes (units_select db (Some u) un) = true <->
   exists d' c, In d' (departments db) /\
                unit_department_id un = department_id_ d' /\
                department_company_id d' = Some c /\
                profile_company_id p = Some c).
Proof.
  intros Hp. split.
  - unfold departments_select, user_company_id. rewrite Hp.
    apply passes_sql_eq.
  - unfold units_select, user_company_departments, user_company_id.
    rewrite Hp. simpl.
    match goal with |- context [existsb ?g ?l] => set (ids := l) end.
    assert (Hin : In (unit_department_id un) ids <->
              exists d' c, In d' (departments db) /\
                           unit_department_id un = department_id_ d' /\
                           department_company_id d' = Some c /\
                           profile_company_id p = Some c).
    { subst ids. rewrite in_map_iff. split.
      - intros (d' & E & Hd). apply filter_In in Hd as [Hd Hc].
        apply passes_sql_eq in Hc as (c & Hc1 & Hc2).
        exists d', c. auto.
      - intros (d' & c & Hd & E & Hc1 & Hc2).
        exists d'. split; [now symmetry |]. apply filter_In.
        split; [assumption |]. apply passes_sql_eq. eauto. }
    destruct (existsb (String.eqb (unit_department_id un)) ids) eqn:Ex;
      simpl.
    + split; [intros _ | reflexivity]. now apply Hin, existsb_eqb_In.
    + split; [discriminate |]. intros H.
      apply Hin, existsb_eqb_In in H. congruence.
Qed.

Lemma departments_units_policy_characterised_witness :
  passes (departments_select two_tenants alice dept_a) = true <->
  exists c, department_company_id dept_a = Some c /\
            Some "company-a"%string = Some c.
Proof.
  refine (proj1 (departments_units_policy_characterised two_tenants "alice"
                   {| profile_company_id := Some "company-a"%string;
                      profile_department_id := Some "dept-a"%string;
                      profile_unit_id := None |} dept_a unit_b _)).
  vm_compute. reflexivity.
Defined.

End CompanyPolicies.

(* ===================================================================== *)
(** * What the two forms can store as useful life *)
(* ===================================================================== *)

Section StoredUsefulLife.

Import JSString.

Lemma span_digits_digits (s : jsstring) :
  forallb is_digit (fst (span_digits s)) = true.
Proof.
  induction s as [| c s IH]; [reflexivity |].
  simpl. destruct (is_digit c) eqn:E; [| reflexivity].
  destruct (span_digits s) as [d r]. simpl in *. now rewrite E.
Qed.

Lemma fold_digits_nonneg (ds : jsstring) (acc : Z) :
  forallb is_digit ds = true -> 0 <= acc ->
  0 <= fold_left (fun acc c => acc * 10 + digit_value c) ds acc.
Proof.
  revert acc. induction ds as [| c ds IH]; intros acc H Ha; [assumption |].
  simpl in H. apply andb_prop in H as [Hc Hd].
  simpl. apply IH; [assumption |].
  apply is_digit_range in Hc. unfold digit_value. lia.
Qed.

Lemma decimal_value_nonneg (ds : jsstring) :
  forallb is_digit ds = true -> 0 <= decimal_value ds.
Proof. intros H. apply fold_digits_nonneg; [assumption | lia]. Qed.

Lemma hex_value_nonneg (c : N) (v : Z) : hex_value c = Some v -> 0 <= v.
Proof.
  unfold hex_value.
  destruct (is_digit c) eqn:E1.
  { apply is_digit_range in E1. intros H. injection H as <-. lia. }
  destruct ((97 <=? c)%N && (c <=? 102)%N) eqn:E2.
  { apply andb_prop in E2 as [H1 _]. apply N.leb_le in H1.
    intros H. injection H as <-. lia. }
  destruct ((65 <=? c)%N && (c <=? 70)%N) eqn:E3; [| discriminate].
  apply andb_prop in E3 as [H1 _]. apply N.leb_le in H1.
  intros H. injection H as <-. lia.
Qed.

Lemma span_hex_nonneg (s : jsstring) : Forall (fun v => 0 <= v) (span_hex s).
Proof.
  induction s as [| c s IH]; [constructor |].
  simpl. destruct (hex_value c) as [v |] eqn:E; [| constructor].
  constructor; [now apply (hex_value_nonneg c) | assumption].
Qed.

Lemma hex_digits_value_nonneg (vs : list Z) :
  Forall (fun v => 0 <= v) vs -> 0 <= hex_digits_value vs.
Proof.
  unfold hex_digits_value.
  assert (H : forall acc, 0 <= acc -> Forall (fun v => 0 <= v) vs ->
                0 <= fold_left (fun acc v => acc * 16 + v) vs acc).
  { induction vs as [| v vs IH]; intros acc Ha Hall; [assumption |].
    inversion Hall; subst. simpl. apply IH; [lia | assumption]. }
  intros Hall. apply H; [lia | assumption].
Qed.

Lemma parse_decimal_nonneg (s : jsstring) (m : Z) :
  parse_decimal s = Some m -> 0 <= m.
Proof.
  unfold parse_decimal. pose proof (span_digits_digits s) as H.
  destruct (fst (span_digits s)) as [| c ds]; [discriminate |].
  intros E. injection E as <-. now apply decimal_value_nonneg.
Qed.

(** The magnitude [parseInt] reads is not negative. *)
Lemma parse_magnitude_nonneg (s : jsstring) (m : Z) :
  parse_magnitude s = Some m -> 0 <= m.
Proof.
  assert (Hhex : forall r, parse_hexadecimal r = Some m -> 0 <= m).
  { intros r. unfold parse_hexadecimal. pose proof (span_hex_nonneg r) as H.
    destruct (span_hex r) as [| v vs]; [discriminate |].
    intros E. injection E as <-. now apply hex_digits_value_nonneg. }
  unfold parse_magnitude.
  destruct s as [| c [| x r]]; try apply parse_decimal_nonneg.
  destruct ((c =? 48)%N && ((x =? 120)%N || (x =? 88)%N));
    [apply Hhex | apply parse_decimal_nonneg].
Qed.

(** Without a leading minus sign [parseInt] gives [NaN] or an integer
    that is not negative. *)
Lemma parseInt_unsigned (c : N) (r : jsstring) :
  is_whitespace c = false -> (c =? 45)%N = false ->
  parseInt (c :: r) = JS.NaN \/
  exists m, 0 <= m /\ parseInt (c :: r) = JS.of_Z m.
Proof.
  intros Hw Hm. unfold parseInt. simpl trim_start. rewrite Hw, Hm.
  assert (H : forall s, signed false (parse_magnitude s) = JS.NaN \/
                exists m, 0 <= m /\
                          signed false (parse_magnitude s) = JS.of_Z m).
  { intros s. destruct (parse_magnitude s) as [m |] eqn:E; [| now left].
    right. exists m. split; [now apply (parse_magnitude_nonneg s) |].
    reflexivity. }
  destruct (c =? 43)%N; apply H.
Qed.

Local Open Scope Q_scope.

Lemma pow10_pos (e : Z) : 0 < pow10 e.
Proof.
  unfold pow10. destruct (e <? 0)%Z eqn:E; [reflexivity |].
  apply Z.ltb_ge in E. apply inject_Z_pos. now apply Z.pow_pos_nonneg.
Qed.

Lemma parse_mantissa_start (c : N) (r : jsstring) (m : Q) (rest : jsstring) :
  parse_mantissa (c :: r) = Some (m, rest) ->
  0 <= m /\ (is_digit c = true \/ c = 46%N).
Proof.
  unfold parse_mantissa.
  pose proof (span_digits_digits (c :: r)) as Hd.
  assert (Hc : is_digit c = false -> span_digits (c :: r) = ([], c :: r))
    by (intros E; simpl; now rewrite E).
  destruct (span_digits (c :: r)) as [int_digits rest0] eqn:Es.
  simpl in Hd. pose proof (decimal_value_nonneg _ Hd) as Hi.
  pose proof (inject_Z_nonneg _ Hi) as Hq.
  assert (Hstart : int_digits <> [] -> is_digit c = true).
  { intros Hne. destruct (is_digit c) eqn:E; [reflexivity |].
    specialize (Hc eq_refl). congruence. }
  destruct rest0 as [| c0 r0].
  - destruct int_digits as [| d ds]; [discriminate |].
    intros E. injection E as <- <-. split; [assumption |].
    left. now apply Hstart.
  - destruct (c0 =? 46)%N eqn:E46.
    + pose proof (span_digits_digits r0) as Hf.
      destruct (span_digits r0) as [[| f fs] rest'] eqn:Ef; [discriminate |].
      cbn [fst] in Hf. intros E. injection E as <- <-.
      pose proof (inject_Z_nonneg _ (decimal_value_nonneg _ Hf)) as Hq'.
      split.
      { apply (Qplus_le_compat 0 _ 0); [assumption |].
        apply Qmult_le_0_compat; [assumption |].
        apply Qlt_le_weak, pow10_pos. }
      destruct (is_digit c) eqn:Edc; [now left |].
      specialize (Hc eq_refl). injection Hc as E1 E2 E3.
      apply N.eqb_eq in E46. right. congruence.
    + destruct int_digits as [| d ds]; [discriminate |].
      intros E. injection E as <- <-. split; [assumption |].
      left. now apply Hstart.
Qed.

Lemma parse_unsigned_nonneg (s : jsstring) (v : Q) :
  parse_unsigned s = Some v -> 0 <= v.
Proof.
  unfold parse_unsigned.
  destruct (parse_mantissa s) as [[m rest] |] eqn:Em; [| discriminate].
  destruct (parse_exponent rest) as [e |]; [| discriminate].
  intros E. injection E as <-.
  destruct s as [| c r]; [discriminate |].
  apply parse_mantissa_start in Em as [Hm _].
  pose proof (pow10_pos e). nra.
Qed.

(** A text that satisfies [min="1"] starts with a digit or a dot. *)
Lemma valid_text_start (typed : jsstring) (v : Q) :
  parse_floating_point typed = Some v -> 1 <= v ->
  exists c r, typed = c :: r /\ is_whitespace c = false /\
              (c =? 45)%N = false.
Proof.
  destruct typed as [| c r]; [discriminate |].
  unfold parse_floating_point.
  destruct (c =? 45)%N eqn:E45.
  - destruct (parse_unsigned r) as [q |] eqn:Eq; [| discriminate].
    simpl. intros E Hv. injection E as <-.
    apply parse_unsigned_nonneg in Eq. lra.
  - intros E _. exists c, r. split; [reflexivity |]. split; [| exact E45].
    unfold parse_unsigned in E.
    destruct (parse_mantissa (c :: r)) as [[m rest] |] eqn:Em;
      [| discriminate].
    apply parse_mantissa_start in Em as [_ [Hd | ->]];
      [now apply is_digit_not_whitespace | reflexivity].
Qed.

Local Close Scope Q_scope.

(** X17: the edit dialog never stores a useful life below 1.  Whatever
    text the useful-life field holds, if the form submits and the update
    is accepted, the stored [useful_life_years] is at least 1: the
    [min="1"] attribute rules out a leading minus sign, [parseInt] then
    reads no negative number, and [|| 5] replaces 0 and NaN. *)
Theorem edit_stores_at_least_one (typed : jsstring) (z : Z) :
  EditAssetModal.submit typed = Some z -> 1 <= z.
Proof.
  unfold EditAssetModal.submit, EditAssetModal.stored_useful_life_years,
    EditAssetModal.updatedAsset_useful_life_years, checkValidity, value,
    EditAssetModal.useful_life_years_input.
  cbn [JSString.typed JSString.min].
  destruct typed as [| c r].
  - intros E. vm_compute in E. injection E as <-. lia.
  - destruct (parse_floating_point (c :: r)) as [v |] eqn:Ev;
      [| discriminate].
    destruct (Qle_bool 1 v) eqn:Hmin; [| discriminate].
    destruct (is_integer (v - 1)); [| discriminate].
    cbn [andb].
    apply Qle_bool_iff in Hmin.
    destruct (valid_text_start _ v Ev Hmin) as (c' & r' & E & Hw & Hm).
    injection E as <- <-.
    destruct (parseInt_unsigned c r Hw Hm) as [-> | (m & Hm0 & ->)].
    + intros E. vm_compute in E. injection E as <-. lia.
    + rewrite or_five_of_Z.
      destruct (Z.eqb_spec m 0) as [-> | Hne].
      * intros E. vm_compute in E. injection E as <-. lia.
      * destruct (store_integer_of_Z m) as [-> | ->]; [| discriminate].
        intros E. injection E as <-. lia.
Qed.

Lemma edit_stores_at_least_one_witness :
  EditAssetModal.submit (lit "12.0e0") = Some 12 /\ 1 <= 12.
Proof.
  assert (E : EditAssetModal.submit (lit "12.0e0") = Some 12)
    by (vm_compute; reflexivity).
  split; [exact E |].
  exact (edit_stores_at_least_one (lit "12.0e0") 12 E).
Defined.

(** X18: on a plain decimal numeral the [min="1"] attribute and
    [parseInt] read the same number.  For a non-empty text of decimal
    digits that denotes at most 2147483647 (the largest value of the
    column; a double holds every integer up to there), the browser lets
    the creation form submit exactly when the number is at least 1, the
    input hands the text to the form data unchanged, and the
    [useful_life_years] that [handleSubmit] sends is the number typed. *)
Theorem create_sends_the_numeral (typed : jsstring) :
  typed <> [] -> forallb is_digit typed = true ->
  decimal_value typed <= 2147483647 ->
  checkValidity (AssetForm.useful_life_years_input typed)
    = (1 <=? decimal_value typed) /\
  JSString.value (AssetForm.useful_life_years_input typed) = typed /\
  AssetForm.assetData_useful_life_years
    (JSString.value (AssetForm.useful_life_years_input typed))
    = JS.of_Z (decimal_value typed).
Proof.
  intros Hne Hd _. destruct typed as [| c s]; [congruence |].
  unfold AssetForm.assetData_useful_life_years,
    checkValidity, value, AssetForm.useful_life_years_input.
  cbn [JSString.typed JSString.min].
  rewrite (parse_floating_point_digits c s Hd).
  rewrite (parseInt_digits c s Hd).
  set (v := decimal_value (c :: s)).
  change (pow10 0) with 1%Q.
  assert (Hv : (inject_Z v * 1 == inject_Z v)%Q) by ring.
  assert (Hmin : Qle_bool 1 (inject_Z v * 1) = (1 <=? v)).
  { destruct (Z.leb_spec 1 v) as [H | H].
    - apply Qle_bool_iff. rewrite Hv. change 1%Q with (inject_Z 1).
      now rewrite <- Zle_Qle.
    - destruct (Qle_bool 1 (inject_Z v * 1)) eqn:E; [| reflexivity].
      apply Qle_bool_iff in E. rewrite Hv in E.
      change 1%Q with (inject_Z 1) in E. rewrite <- Zle_Qle in E. lia. }
  assert (Hint : is_integer (inject_Z v * 1 - 1) = true).
  { unfold is_integer. apply Qeq_bool_iff.
    assert (E : (inject_Z v * 1 - 1 == inject_Z (v - 1))%Q).
    { replace (v - 1)%Z with (v + -1)%Z by lia. rewrite inject_Z_plus.
      change (inject_Z (-1)) with (- (1))%Q. ring. }
    rewrite E at 2. rewrite E, Qfloor_Z. reflexivity. }
  rewrite Hmin, Hint, andb_true_r.
  repeat split.
Qed.

Lemma create_sends_the_numeral_witness :
  checkValidity (AssetForm.useful_life_years_input (lit "007"))
    = (1 <=? decimal_value (lit "007")) /\
  JSString.value (AssetForm.useful_life_years_input (lit "007")) = lit "007" /\
  AssetForm.assetData_useful_life_years
    (JSString.value (AssetForm.useful_life_years_input (lit "007")))
    = JS.of_Z (decimal_value (lit "007")).
Proof.
  apply (create_sends_the_numeral (lit "007"));
    [discriminate | reflexivity | vm_compute; discriminate].
Defined.

End StoredUsefulLife.

(* ===================================================================== *)
(** * QR codes and the selects of the edit dialog *)
(* ===================================================================== *)

Section Strings.

Import JSString ReportGenerator.

Lemma starts_with_app (p s : jsstring) : starts_with p (p ++ s) = true.
Proof.
  induction p as [| c p IH]; [reflexivity |].
  simpl. now rewrite N.eqb_refl.
Qed.

Lemma starts_with_prefix (p s : jsstring) :
  starts_with p s = true -> s = p ++ skipn (length p) s.
Proof.
  revert s. induction p as [| c p IH]; intros s H; [reflexivity |].
  destruct s as [| d s]; [discriminate |].
  simpl in H. apply andb_prop in H as [Hc Hp].
  apply N.eqb_eq in Hc. subst d. simpl. f_equal. now apply IH.
Qed.

Lemma jsstring_eqb_eq (a b : jsstring) : jsstring_eqb a b = true <-> a = b.
Proof.
  unfold jsstring_eqb. split.
  - intros H. apply andb_prop in H as [Hl Hs].
    apply Nat.eqb_eq in Hl. apply starts_with_prefix in Hs.
    rewrite Hl, skipn_all, app_nil_r in Hs. now symmetry.
  - intros ->. rewrite Nat.eqb_refl. simpl.
    rewrite <- (app_nil_r b) at 2. apply starts_with_app.
Qed.

(** X19: scanning a generated QR code gives back the asset code, whatever
    the code is, and the scanner reports an asset for no other text: the
    callback hands [c] to [onAssetFound] exactly when the decoded text is
    the [qrValue] of [c]. *)
Theorem qr_scan_inverts_qrValue (code assetCode : jsstring) :
  QRCode.onAssetFound_argument code = Some assetCode
  <-> code = QRCode.qrValue assetCode.
Proof.
  unfold QRCode.onAssetFound_argument, QRCode.qrValue. split.
  - destruct (starts_with (lit "ASSET:") code) eqn:E; [| discriminate].
    intros H. injection H as <-.
    destruct code as [| c r]; [discriminate |].
    unfold QRCode.replace. rewrite E. fold QRCode.replace.
    now apply starts_with_prefix.
  - intros ->. reflexivity.
Qed.

(** X20: opening the edit dialog and saving it leaves a select as it
    was: a column that is NULL or holds an id comes back unchanged.
    (Ids are UUIDs, so never empty and never the text [unassigned].) *)
Theorem edit_select_round_trip (column : option jsstring) :
  column <> Some [] -> column <> Some (lit "unassigned") ->
  EditAssetSelects.updatedAsset_select
    (EditAssetSelects.formData_select column) = column.
Proof.
  intros Hne Hun.
  destruct column as [[| c s] |];
    [exfalso; now apply Hne | | reflexivity].
  unfold EditAssetSelects.formData_select, or_string,
    EditAssetSelects.updatedAsset_select.
  destruct (jsstring_eqb (c :: s) (lit "unassigned")) eqn:E; [| reflexivity].
  apply jsstring_eqb_eq in E. exfalso. apply Hun. now rewrite E.
Qed.

Lemma edit_select_round_trip_witness :
  EditAssetSelects.updatedAsset_select
    (EditAssetSelects.formData_select (Some (lit "7d0e3c1a")))
  = Some (lit "7d0e3c1a").
Proof.
  apply (edit_select_round_trip (Some (lit "7d0e3c1a"))); discriminate.
Defined.

End Strings.

(* ===================================================================== *)
(** * The pages of the PDF export *)
(* ===================================================================== *)

Section PdfPages.

Import InventoryExport.

(** The state in which the loop reaches the asset with index [j]. *)
Lemma forEach_paged {A} (assets : list A) (j page yPosition : Z) :
  (j = 0 /\ page = 1 /\ yPosition = 65) \/
  (0 < j /\ page = block_page (paged_block (j - 1)) /\
   yPosition = block_yPosition (paged_block (j - 1)) + 50) ->
  forEach assets page yPosition
  = imap (fun i asset => (asset, paged_block (j + Z.of_nat i))) assets.
Proof.
  revert j page yPosition.
  induction assets as [| a assets IH]; intros j page y H; [reflexivity |].
  assert (Hstep : {| block_page := if 280 <? y then page + 1 else page;
                     block_yPosition := if 280 <? y then 20 else y |}
                  = paged_block j).
  { unfold paged_block in *.
    destruct H as [(-> & -> & ->) | (Hj & -> & ->)]; [reflexivity |].
    destruct (Z.ltb_spec (j - 1) 5), (Z.ltb_spec j 5); cbn [block_page block_yPosition];
      try lia.
    - destruct (Z.ltb_spec 280 (65 + 50 * (j - 1) + 50)); [lia |].
      f_equal; lia.
    - assert (j = 5) by lia. subst j. reflexivity.
    - destruct (Z.ltb_spec 280 (20 + 50 * ((j - 1 - 5) mod 6) + 50));
        f_equal; Z.div_mod_to_equations; lia. }
  cbn [forEach]. rewrite Hstep. rewrite imap_cons.
  f_equal; [now rewrite Z.add_0_r |].
  rewrite (IH (j + 1)).
  - apply imap_ext. intros i x _. simpl. do 2 f_equal. lia.
  - right. replace (j + 1 - 1) with j by lia. rewrite <- Hstep.
    cbn [block_page block_yPosition].
    split; [destruct H as [(-> & _) | (Hj & _)]; lia |].
    split; reflexivity.
Qed.

(** X21: the PDF export puts five assets on the first page and six on
    every later page: the block of the asset with index [i] starts on the
    page and at the height that [paged_block i] gives, so at a height
    between 20 and 270 in every case. *)
Theorem pdf_export_pages {A} (assets : list A) :
  handleExportPDF assets
  = imap (fun i asset => (asset, paged_block (Z.of_nat i))) assets /\
  Forall (fun e => 1 <= block_page (snd e) /\
                   20 <= block_yPosition (snd e) <= 270)
         (handleExportPDF assets).
Proof.
  assert (E : handleExportPDF assets
              = imap (fun i asset => (asset, paged_block (Z.of_nat i))) assets).
  { unfold handleExportPDF. rewrite (forEach_paged assets 0); [| left; auto].
    apply imap_ext. intros i x _. reflexivity. }
  split; [exact E |]. rewrite E.
  apply Forall_forall. intros [a b] Hin.
  apply elem_of_lookup_imap in Hin as (i & x & Hx & _).
  injection Hx as _ ->.
  unfold paged_block. cbn [snd].
  destruct (Z.ltb_spec (Z.of_nat i) 5); cbn [block_page block_yPosition];
    Z.div_mod_to_equations; lia.
Qed.

End PdfPages.

(* ===================================================================== *)
(** * The groups of a report *)
(* ===================================================================== *)

Section ReportGroups.

Import JSString ReportGenerator.

Lemma jsstring_eqb_refl (k : jsstring) : jsstring_eqb k k = true.
Proof. now apply jsstring_eqb_eq. Qed.

Lemma jsstring_eqb_neq (a b : jsstring) : jsstring_eqb a b = false <-> a <> b.
Proof.
  destruct (jsstring_eqb a b) eqn:E.
  - apply jsstring_eqb_eq in E. split; [discriminate | contradiction].
  - split; [| reflexivity]. intros _ H. apply jsstring_eqb_eq in H. congruence.
Qed.

Lemma get_None {V} (o : Obj V) (k : jsstring) :
  get o k = None <-> ~ In k (map fst o).
Proof.
  induction o as [| [k' v] o IH]; simpl; [tauto |].
  destruct (jsstring_eqb k' k) eqn:E.
  - apply jsstring_eqb_eq in E. split; [discriminate | intros H; tauto].
  - rewrite IH. split; [| tauto].
    intros H [H' | H']; [| tauto].
    subst. rewrite jsstring_eqb_refl in E. discriminate.
Qed.

Lemma get_Some_In {V} (o : Obj V) (k : jsstring) (v : V) :
  get o k = Some v -> In k (map fst o).
Proof.
  induction o as [| [k' v'] o IH]; simpl; [discriminate |].
  destruct (jsstring_eqb k' k) eqn:E; [| auto].
  apply jsstring_eqb_eq in E. auto.
Qed.

Lemma set_get {V} (o : Obj V) (k : jsstring) (v : V) :
  get (set o k v) k = Some v.
Proof.
  induction o as [| [k' v'] o IH]; simpl.
  - now rewrite jsstring_eqb_refl.
  - destruct (jsstring_eqb k' k) eqn:E; simpl; now rewrite E.
Qed.

Lemma set_keys {V} (o : Obj V) (k : jsstring) (v : V) :
  map fst (set o k v) = match get o k with
                     | Some _ => map fst o
                     | None => map fst o ++ [k]
                     end.
Proof.
  induction o as [| [k' v'] o IH]; simpl; [reflexivity |].
  destruct (jsstring_eqb k' k) eqn:E; simpl; [reflexivity |].
  rewrite IH. now destruct (get o k).
Qed.

(** Reading after writing: the name written gives the new value, every
    other name what it gave before. *)
Lemma get_set {V} (o : Obj V) (k k' : jsstring) (v : V) :
  get (set o k v) k' = if jsstring_eqb k k' then Some v else get o k'.
Proof.
  induction o as [| [k0 v0] o IH]; simpl; [reflexivity |].
  destruct (jsstring_eqb k0 k) eqn:E0; simpl.
  - apply jsstring_eqb_eq in E0. subst k0.
    now destruct (jsstring_eqb k k').
  - rewrite IH. destruct (jsstring_eqb k0 k') eqn:E1; [| reflexivity].
    apply jsstring_eqb_eq in E1. subst k0.
    destruct (jsstring_eqb k k') eqn:E2; [| reflexivity].
    apply jsstring_eqb_eq in E2. subst k'.
    rewrite jsstring_eqb_refl in E0. discriminate.
Qed.

Lemma get_In {V} (o : Obj V) (k : jsstring) (v : V) :
  NoDup (map fst o) -> In (k, v) o -> get o k = Some v.
Proof.
  induction o as [| [k0 v0] o IH]; simpl; [contradiction |].
  intros Hnd Hin. apply NoDup_cons in Hnd as [Hk0 Hnd].
  destruct Hin as [E | Hin].
  - injection E as -> ->. now rewrite jsstring_eqb_refl.
  - destruct (jsstring_eqb k0 k) eqn:E; [| now apply IH].
    apply jsstring_eqb_eq in E. subst k0. exfalso. apply Hk0.
    apply list_elem_of_In. apply in_map_iff. now exists (k, v).
Qed.

Lemma insert_by_index_perm {V} (i : Z) (e : jsstring * V)
    (l : list (Z * (jsstring * V))) :
  Permutation (map snd (insert_by_index i e l)) (e :: map snd l).
Proof.
  induction l as [| [j e'] l IH]; simpl; [reflexivity |].
  destruct (i <? j); simpl; [reflexivity |].
  rewrite IH. apply perm_swap.
Qed.

(** [Object.entries] lists every property once. *)
Lemma Object_entries_perm {V} (o : Obj V) : Permutation (Object_entries o) o.
Proof.
  unfold Object_entries.
  set (step := fun acc e => match array_index (fst e) with
                            | Some i => insert_by_index i e acc
                            | None => acc
                            end).
  set (named := fun e : jsstring * V => match array_index (fst e) with
                                        | Some _ => false
                                        | None => true
                                        end).
  assert (H : forall acc,
            Permutation (map snd (fold_left step o acc) ++ List.filter named o)
                        (map snd acc ++ o)).
  { induction o as [| e o IH]; intros acc; [reflexivity |].
    cbn [fold_left List.filter]. unfold step at 2, named at 1.
    destruct (array_index (fst e)) as [i |].
    - rewrite IH, insert_by_index_perm. simpl.
      apply Permutation_middle.
    - rewrite <- Permutation_middle, IH. apply Permutation_middle. }
  exact (H []).
Qed.

Lemma sum_Z_perm (l l' : list Z) :
  Permutation l l' -> fold_right Z.add 0 l = fold_right Z.add 0 l'.
Proof. induction 1; simpl; lia. Qed.

Section Loop.

Variable inherited : jsstring -> bool.
Context {Row : Type}.
Variable group : Row -> jsstring.
Variable amount : Row -> PrimFloat.float.

Lemma rows_of_snoc (k : jsstring) (pre : list Row) (row : Row) :
  rows_of group k (pre ++ [row])
  = rows_of group k pre
    ++ (if jsstring_eqb (group row) k then [row] else []).
Proof. unfold rows_of. now rewrite List.filter_app. Qed.

Lemma amount_of_snoc (rs : list Row) (row : Row) :
  amount_of amount (rs ++ [row])
  = PrimFloat.add (amount_of amount rs) (amount row).
Proof. unfold amount_of. now rewrite fold_left_app. Qed.

Lemma expected_group_other (pre : list Row) (row : Row) (k : jsstring) :
  inherited (group row) = true \/ jsstring_eqb (group row) k = false ->
  expected_group inherited group amount (pre ++ [row]) k
  = expected_group inherited group amount pre k.
Proof.
  intros H. unfold expected_group.
  destruct (inherited k) eqn:Ek; [reflexivity |].
  rewrite rows_of_snoc.
  destruct (jsstring_eqb (group row) k) eqn:E.
  - apply jsstring_eqb_eq in E. destruct H; congruence.
  - now rewrite app_nil_r.
Qed.

Lemma expected_group_own (pre : list Row) (row : Row) :
  inherited (group row) = false ->
  expected_group inherited group amount (pre ++ [row]) (group row)
  = Some
      match expected_group inherited group amount pre (group row) with
      | Some (v, t) => (PrimFloat.add v (amount row), t + 1)
      | None => (PrimFloat.add PrimFloat.zero (amount row), 0 + 1)
      end.
Proof.
  intros Hi. unfold expected_group. rewrite Hi, rows_of_snoc.
  rewrite jsstring_eqb_refl.
  destruct (rows_of group (group row) pre) as [| r rs] eqn:E.
  - reflexivity.
  - cbn [app]. rewrite !app_comm_cons, amount_of_snoc, length_app.
    cbn [length]. do 2 f_equal. lia.
Qed.

(** One step of the loop keeps the names apart and leaves under every
    name what the rows seen so far amount to. *)
Lemma add_row_expected (pre : list Row) (data : Obj (PrimFloat.float * Z))
    (row : Row) :
  NoDup (map fst data) ->
  (forall k, get data k = expected_group inherited group amount pre k) ->
  NoDup (map fst (add_row inherited group amount data row)) /\
  (forall k, get (add_row inherited group amount data row) k
             = expected_group inherited group amount (pre ++ [row]) k).
Proof.
  intros Hnd H. unfold add_row.
  destruct (inherited (group row)) eqn:Ei.
  { split; [assumption |]. intros k.
    rewrite expected_group_other by now left. apply H. }
  pose proof (expected_group_own pre row Ei) as Hown.
  rewrite <- (H (group row)) in Hown.
  destruct (get data (group row)) as [[v t] |] eqn:Eg.
  - rewrite Eg. split.
    + now rewrite set_keys, Eg.
    + intros k. rewrite get_set.
      destruct (jsstring_eqb (group row) k) eqn:E.
      * apply jsstring_eqb_eq in E. subst k. now rewrite Hown.
      * rewrite expected_group_other by now right. apply H.
  - rewrite set_get. split.
    + rewrite !set_keys, set_get, Eg.
      apply NoDup_app. split; [assumption |].
      split; [| apply NoDup_singleton].
      intros x Hx Hx'. apply list_elem_of_In in Hx.
      apply list_elem_of_singleton in Hx'. subst x.
      now apply get_None in Eg.
    + intros k. rewrite !get_set.
      destruct (jsstring_eqb (group row) k) eqn:E.
      * apply jsstring_eqb_eq in E. subst k. now rewrite Hown.
      * rewrite expected_group_other by now right. apply H.
Qed.

Lemma fold_add_row_expected (rows pre : list Row)
    (data : Obj (PrimFloat.float * Z)) :
  NoDup (map fst data) ->
  (forall k, get data k = expected_group inherited group amount pre k) ->
  let data' := fold_left (add_row inherited group amount) rows data in
  NoDup (map fst data') /\
  (forall k, get data' k
             = expected_group inherited group amount (pre ++ rows) k).
Proof.
  revert pre data. induction rows as [| row rows IH]; intros pre data Hnd H.
  - simpl. rewrite app_nil_r. now split.
  - destruct (add_row_expected pre data row Hnd H) as [Hnd' H'].
    cbn [fold_left]. cbv zeta.
    replace (pre ++ row :: rows) with ((pre ++ [row]) ++ rows)
      by now rewrite <- app_assoc.
    now apply IH.
Qed.

Lemma expected_group_Some (rows : list Row) (k : jsstring) :
  is_Some (expected_group inherited group amount rows k) <->
  inherited k = false /\ exists row, In row rows /\ group row = k.
Proof.
  unfold expected_group. destruct (inherited k).
  { split; [intros [x Hx]; discriminate | intros [H _]; discriminate]. }
  destruct (rows_of group k rows) as [| r rs] eqn:E.
  - split; [intros [x Hx]; discriminate |].
    intros (_ & row & Hin & Hg). exfalso.
    assert (Hr : In row (rows_of group k rows)).
    { apply filter_In. split; [assumption |]. now apply jsstring_eqb_eq. }
    rewrite E in Hr. contradiction.
  - split; [| intros _; eauto].
    intros _. split; [reflexivity |].
    assert (Hr : In r (rows_of group k rows)) by (rewrite E; now left).
    apply filter_In in Hr as [Hin Hg]. apply jsstring_eqb_eq in Hg. eauto.
Qed.

(** The loop and [Object.entries] give the grouping of the rows. *)
Lemma aggregate_grouping (rows : list Row) :
  grouping inherited group amount rows
           (aggregate inherited group amount rows).
Proof.
  unfold aggregate.
  set (data := fold_left (add_row inherited group amount) rows []).
  destruct (fold_add_row_expected rows [] [] NoDup_nil_2 (fun k =>
              match inherited k as b
                return None = (if b then None else None) with
              | true | false => eq_refl
              end)) as [Hnd Hget].
  fold data in Hnd, Hget. simpl in Hget.
  pose proof (Object_entries_perm data) as Hp.
  assert (Hnames :
            map name
              (map (fun e => {| name := fst e; value := fst (snd e);
                                total := snd (snd e) |})
                   (Object_entries data))
            = map fst (Object_entries data))
    by (rewrite map_map; reflexivity).
  unfold grouping. rewrite Hnames.
  split; [now rewrite (Permutation_map fst Hp) |].
  split.
  - intros k. rewrite <- expected_group_Some, <- Hget.
    split.
    + intros Hin.
      apply (Permutation_in _ (Permutation_map fst Hp)) in Hin.
      destruct (get data k) eqn:E; [eauto |].
      apply get_None in E. contradiction.
    + intros [x Hx]. apply get_Some_In in Hx.
      now apply (Permutation_in _ (Permutation_sym (Permutation_map fst Hp))).
  - intros e He. apply in_map_iff in He as ([k [v t]] & <- & Hin).
    cbn [name total value fst snd].
    apply (Permutation_in _ Hp) in Hin.
    pose proof (get_In data k (v, t) Hnd Hin) as Hk.
    rewrite Hget in Hk. unfold expected_group in Hk.
    destruct (inherited k); [discriminate |].
    destruct (rows_of group k rows) as [| r rs]; [discriminate |].
    injection Hk as <- <-. split; reflexivity.
Qed.

End Loop.

Lemma set_counts (o : Obj (PrimFloat.float * Z)) (k : jsstring)
    (v : PrimFloat.float) (t : Z) :
  fold_right Z.add 0 (map (fun e => snd (snd e)) (set o k (v, t)))
  = fold_right Z.add 0 (map (fun e => snd (snd e)) o)
    - match get o k with Some (_, t0) => t0 | None => 0 end + t.
Proof.
  induction o as [| [k' [v' t']] o IH]; simpl; [lia |].
  destruct (jsstring_eqb k' k) eqn:E; simpl; [lia |].
  rewrite IH. lia.
Qed.

(** A row whose group name is not inherited is counted once. *)
Lemma add_row_counts {Row} (group : Row -> jsstring)
    (amount : Row -> PrimFloat.float)
    (data : Obj (PrimFloat.float * Z)) (row : Row) :
  JSObject.inherited (group row) = false ->
  fold_right Z.add 0
    (map (fun e => snd (snd e))
         (add_row JSObject.inherited group amount data row))
  = fold_right Z.add 0 (map (fun e => snd (snd e)) data) + 1.
Proof.
  intros Hi. unfold add_row. rewrite Hi.
  destruct (get data (group row)) as [[v t] |] eqn:Eg.
  - rewrite Eg, set_counts, Eg. lia.
  - rewrite set_get, set_counts, set_get, set_counts, Eg. lia.
Qed.

Lemma fold_add_row_counts {Row} (group : Row -> jsstring)
    (amount : Row -> PrimFloat.float) (rows : list Row)
    (data : Obj (PrimFloat.float * Z)) :
  Forall (fun row => JSObject.inherited (group row) = false) rows ->
  fold_right Z.add 0
    (map (fun e => snd (snd e))
         (fold_left (add_row JSObject.inherited group amount) rows data))
  = fold_right Z.add 0 (map (fun e => snd (snd e)) data)
    + Z.of_nat (length rows).
Proof.
  revert data. induction rows as [| row rows IH]; intros data Hall.
  - simpl. lia.
  - apply Forall_cons in Hall as [Hrow Hall].
    cbn [fold_left]. rewrite IH by assumption.
    rewrite add_row_counts by assumption. cbn [length]. lia.
Qed.

(** X22: every row of a report is counted once.  For rows whose group
    names are not names every object inherits ([constructor],
    [toString], ...), the entries of the report have pairwise distinct
    names, every row's group has an entry, and the [total]s of the
    entries add up to the number of rows. *)
Theorem report_accounts_for_every_row {Row}
    (group : Row -> jsstring) (amount : Row -> PrimFloat.float)
    (rows : list Row) :
  Forall (fun row => JSObject.inherited (group row) = false) rows ->
  let entries := aggregate JSObject.inherited group amount rows in
  fold_right Z.add 0 (map total entries) = Z.of_nat (length rows) /\
  NoDup (map name entries) /\
  (forall row, In row rows -> In (group row) (map name entries)).
Proof.
  intros Hall entries.
  destruct (aggregate_grouping JSObject.inherited group amount rows)
    as (Hnd & Hin & _).
  fold entries in Hnd, Hin.
  split; [| split; [exact Hnd |]].
  - subst entries. unfold aggregate.
    rewrite map_map. cbn [total].
    rewrite (sum_Z_perm _ _
               (Permutation_map (fun e => snd (snd e))
                  (Object_entries_perm _))).
    rewrite fold_add_row_counts by assumption. simpl. lia.
  - intros row Hrow. apply Hin. split; [| eauto].
    rewrite Forall_forall in Hall. apply Hall. now apply list_elem_of_In.
Qed.

Lemma report_accounts_for_every_row_witness :
  fold_right Z.add 0
    (map total (by_category JSObject.inherited (assets fleet)))
  = Z.of_nat (length (assets fleet)).
Proof.
  refine (proj1 (report_accounts_for_every_row
                   category_of purchase_value_of (assets fleet) _)).
  repeat constructor.
Defined.

End ReportGroups.

(* ===================================================================== *)
(** * The report data of the report generator *)
(* ===================================================================== *)

Section ReportData.

Import JSString ReportGenerator.

Variable toLowerCase : jsstring -> jsstring.
Variable inherited : jsstring -> bool.

(** A report carries the [reportData] of its prompt. *)
Lemma serve_success env req report :
  serve toLowerCase inherited env req = Success report ->
  exists p, body req = BodyJson (Some p) /\
            reportData toLowerCase inherited (database env) p
            = Some (data report).
Proof.
  unfold serve. intros H.
  destruct (method req); [discriminate |].
  destruct (configured env); simpl in H; [| discriminate].
  destruct (body req) as [| [[| c p] |]]; try discriminate.
  exists (c :: p). split; [reflexivity |].
  destruct (sql_reply env); try discriminate.
  simpl in H.
  destruct (reportData toLowerCase inherited (database env) (c :: p))
    as [d |]; [| discriminate].
  destruct (insights_reply env); try discriminate;
    injection H as <-; reflexivity.
Qed.

(** The response data do not depend on the text of the drafted SQL. *)
Lemma serve_data_independent env req (sql1 sql2 : jsstring) :
  response_data (serve toLowerCase inherited (with_sql env sql1) req) =
  response_data (serve toLowerCase inherited (with_sql env sql2) req).
Proof.
  unfold serve, with_sql. simpl.
  destruct (method req); [reflexivity |].
  destruct (configured env); simpl; [| reflexivity].
  destruct (body req) as [| [[| c p] |]]; try reflexivity.
  destruct (reportData toLowerCase inherited (database env) (c :: p));
    [| reflexivity].
  destruct (insights_reply env); reflexivity.
Qed.

Lemma reportData_reachable db p :
  reachable db = true ->
  exists d, reportData toLowerCase inherited db p = Some d.
Proof.
  intros H. unfold reportData, select_assets, select_recent_maintenance.
  rewrite H.
  destruct (includes (toLowerCase p) (lit "categoria")
            || includes (toLowerCase p) (lit "category")); simpl; [eauto |].
  destruct (includes (toLowerCase p) manutencao
            || includes (toLowerCase p) (lit "maintenance")); simpl; eauto.
Qed.

(** The data of a branch are the grouping of the rows it read. *)
Lemma branch_grouping {Row} (group : Row -> jsstring)
    (amount : Row -> PrimFloat.float) (response : option (list Row))
    (d : list Entry) :
  option_map (aggregate inherited group amount) response = Some d ->
  exists rows, response = Some rows /\
               grouping inherited group amount rows d.
Proof.
  destruct response as [rows |]; [| discriminate].
  simpl. intros E. injection E as <-.
  exists rows. split; [reflexivity | apply aggregate_grouping].
Qed.

(** C8: (1) the data of every report the endpoint returns are one of the
    three canned aggregations, chosen by the keywords found in the
    lower-cased prompt: the assets grouped by category for "categoria" /
    "category", else the 50 newest maintenance records grouped by type
    for "manutenção" / "maintenance", else the assets grouped by status;
    a grouping has one entry for every group name of the rows that is not
    an inherited property name, with the number of its rows and their
    amounts added in the order of the response;
    (2) two runs that differ only in the SQL text drafted by the model
    return the same data; (3) a POST with a non-empty prompt, on a
    configured and reachable project, with any drafted SQL and an insights
    reply that can be read, does return a report. *)
Theorem C8_report_data_canned (env : Environment) (req : Request) :
  (forall report,
     serve toLowerCase inherited env req = Success report ->
     exists p, body req = BodyJson (Some p) /\
       let lower := toLowerCase p in
       if includes lower (lit "categoria") || includes lower (lit "category")
       then exists rows,
              select_assets (database env) = Some rows /\
              grouping inherited
                (fun asset =>
                   or_string (asset_category_name asset) (lit "Sem categoria"))
                (fun asset => or_zero (Some (asset_purchase_value asset)))
                rows (data report)
       else if includes lower manutencao
               || includes lower (lit "maintenance")
       then exists rows,
              select_recent_maintenance (database env) = Some rows /\
              grouping inherited
                (fun maintenance =>
                   or_string (Some (record_maintenance_type maintenance))
                             (lit "Outro"))
                (fun maintenance => or_zero (record_cost maintenance))
                rows (data report)
       else exists rows,
              select_assets (database env) = Some rows /\
              grouping inherited
                (fun asset =>
                   or_string (asset_status asset) (lit "Indefinido"))
                (fun asset => or_zero (Some (asset_purchase_value asset)))
                rows (data report)) /\
  (forall sql1 sql2,
     response_data (serve toLowerCase inherited (with_sql env sql1) req) =
     response_data (serve toLowerCase inherited (with_sql env sql2) req)) /\
  (forall c p sql,
     method req = POST -> body req = BodyJson (Some (c :: p)) ->
     configured env = true -> reachable (database env) = true ->
     insights_reply env <> InsightsBodyNotJson ->
     insights_reply env <> InsightsNull ->
     exists report,
       serve toLowerCase inherited (with_sql env sql) req = Success report).
Proof.
  split; [| split].
  - intros report H.
    destruct (serve_success env req report H) as (p & Hb & Hd).
    exists p. split; [assumption |]. simpl.
    unfold reportData in Hd.
    destruct (includes (toLowerCase p) (lit "categoria")
              || includes (toLowerCase p) (lit "category"));
      [exact (branch_grouping _ _ _ _ Hd) |].
    destruct (includes (toLowerCase p) manutencao
              || includes (toLowerCase p) (lit "maintenance"));
      [exact (branch_grouping _ _ _ _ Hd) | exact (branch_grouping _ _ _ _ Hd)].
  - apply serve_data_independent.
  - intros c p sql Hm Hb Hc Hr Hn1 Hn2.
    unfold serve, with_sql. simpl. rewrite Hm, Hc, Hb. simpl.
    destruct (reportData_reachable (database env) (c :: p) Hr) as [d ->].
    destruct (insights_reply env); try contradiction; eauto.
Qed.

End ReportData.

Section ReportExample.

Import JSString ReportGenerator.

Lemma C8_report_data_canned_witness :
  exists report,
    serve ascii_lower JSObject.inherited
      (with_sql office (lit "DROP TABLE assets"))
      {| method := POST;
         body := BodyJson (Some (lit "Custos de Maintenance")) |}
    = Success report.
Proof.
  apply (proj2 (proj2 (C8_report_data_canned ascii_lower JSObject.inherited
                         office
                         {| method := POST;
                            body := BodyJson
                                      (Some (lit "Custos de Maintenance")) |}))
           67%N (lit "ustos de Maintenance"));
    try reflexivity; discriminate.
Defined.

(** The report of that request: the two maintenance records of the
    example database by type, newest first. *)
Example report_of_the_office :
  option_map (map (fun e => (name e, value e, total e)))
    (response_data
       (serve ascii_lower JSObject.inherited office
          {| method := POST;
             body := BodyJson (Some (lit "Custos de Maintenance")) |}))
  = Some [(lit "corretiva", Double.of_Z 0, 1);
          (lit "preventiva", Double.of_Z 150, 1)].
Proof. vm_compute. reflexivity. Qed.

End ReportExample.

(* ===================================================================== *)
(** * The location statistics of the tracking page *)
(* ===================================================================== *)

Section LocationCounts.

Import JSString ReportGenerator TrackingAnalytics.

Lemma set_sum (o : Obj Z) (k : jsstring) (n : Z) :
  fold_right Z.add 0 (map snd (set o k n))
  = fold_right Z.add 0 (map snd o)
    - match get o k with Some n0 => n0 | None => 0 end + n.
Proof.
  induction o as [| [k' n'] o IH]; simpl; [lia |].
  destruct (jsstring_eqb k' k) eqn:E; simpl; [lia |].
  rewrite IH. lia.
Qed.

Lemma set_positive (o : Obj Z) (k : jsstring) (n : Z) :
  Forall (fun e => 1 <= snd e) o -> 1 <= n ->
  Forall (fun e => 1 <= snd e) (set o k n).
Proof.
  intros Ho Hn. induction o as [| [k' n'] o IH]; simpl.
  - repeat constructor. assumption.
  - inversion Ho; subst.
    destruct (jsstring_eqb k' k); constructor; auto.
Qed.

Lemma get_positive (o : Obj Z) (k : jsstring) (n : Z) :
  Forall (fun e => 1 <= snd e) o -> get o k = Some n -> 1 <= n.
Proof.
  intros Ho. induction o as [| [k' n'] o IH]; simpl; [discriminate |].
  inversion Ho; subst.
  destruct (jsstring_eqb k' k); [| auto].
  intros E. injection E as <-. assumption.
Qed.

Lemma count_one_accounts {A} (key : A -> jsstring) (acc : Obj Z) (a : A) :
  NoDup (map fst acc) -> Forall (fun e => 1 <= snd e) acc ->
  fold_right Z.add 0 (map snd (count_one key acc a))
  = fold_right Z.add 0 (map snd acc) + 1 /\
  NoDup (map fst (count_one key acc a)) /\
  Forall (fun e => 1 <= snd e) (count_one key acc a) /\
  In (key a) (map fst (count_one key acc a)) /\
  (forall k, In k (map fst acc) -> In k (map fst (count_one key acc a))).
Proof.
  intros Hnd Hpos. unfold count_one.
  rewrite set_sum, set_keys.
  destruct (get acc (key a)) as [n |] eqn:Eg.
  - pose proof (get_positive acc _ n Hpos Eg) as Hn.
    repeat split; try assumption; try lia.
    + apply set_positive; [assumption | lia].
    + now apply get_Some_In in Eg.
    + auto.
  - repeat split; try lia.
    + apply NoDup_app. split; [assumption |]. split; [| apply NoDup_singleton].
      intros x Hx Hx'. apply list_elem_of_In in Hx.
      apply list_elem_of_singleton in Hx'. subst x.
      now apply get_None in Eg.
    + apply set_positive; [assumption | lia].
    + apply in_or_app. right. now left.
    + intros k Hk. apply in_or_app. now left.
Qed.

Lemma fold_count_one_accounts {A} (key : A -> jsstring) (assets : list A)
    (acc : Obj Z) :
  NoDup (map fst acc) -> Forall (fun e => 1 <= snd e) acc ->
  let acc' := fold_left (count_one key) assets acc in
  fold_right Z.add 0 (map snd acc')
  = fold_right Z.add 0 (map snd acc) + Z.of_nat (length assets) /\
  NoDup (map fst acc') /\
  Forall (fun e => 1 <= snd e) acc' /\
  (forall a, In a assets -> In (key a) (map fst acc')) /\
  (forall k, In k (map fst acc) -> In k (map fst acc')).
Proof.
  revert acc. induction assets as [| a assets IH]; intros acc Hnd Hpos.
  - simpl. repeat split; try assumption; try lia; tauto.
  - destruct (count_one_accounts key acc a Hnd Hpos)
      as (H1 & H2 & H3 & H4 & H5).
    destruct (IH _ H2 H3) as (I1 & I2 & I3 & I4 & I5).
    cbn [fold_left]. cbv zeta in *.
    repeat split; try assumption.
    + rewrite I1, H1. cbn [length]. lia.
    + intros r [<- | Hr]; auto.
    + auto.
Qed.

(** X23: the location statistics account for every asset once.  For
    assets whose location names are not names every object inherits, the
    lines of "Distribuição por Localização" (and of "Tipos de
    Localização") have pairwise distinct names, there is a line for the
    location of every asset, every count is at least 1 and the counts add
    up to the number of assets. *)
Theorem location_counts_account_for_assets {A}
    (key : A -> jsstring) (assets : list A) :
  Forall (fun asset => JSObject.inherited (key asset) = false) assets ->
  let lines := count_by key assets in
  fold_right Z.add 0 (map snd lines) = Z.of_nat (length assets) /\
  NoDup (map fst lines) /\
  Forall (fun line => 1 <= snd line) lines /\
  (forall asset, In asset assets -> In (key asset) (map fst lines)).
Proof.
  intros _ lines. subst lines. unfold count_by.
  set (acc := fold_left (count_one key) assets []).
  destruct (fold_count_one_accounts key assets [] NoDup_nil_2 (Forall_nil_2 _))
    as (H1 & H2 & H3 & H4 & _).
  fold acc in H1, H2, H3, H4.
  pose proof (Object_entries_perm acc) as Hp.
  repeat split.
  - rewrite (sum_Z_perm _ _ (Permutation_map snd Hp)). rewrite H1. simpl. lia.
  - now rewrite (Permutation_map fst Hp).
  - now rewrite Hp.
  - intros a Ha.
    apply (Permutation_in _ (Permutation_sym (Permutation_map fst Hp))).
    now apply H4.
Qed.

Lemma location_counts_account_for_assets_witness :
  fold_right Z.add 0
    (map snd
       (by_location
          [ {| current_location := Some (lit "Galp" ++ [227]%N ++ lit "o 2");
               location_type := Some (lit "gps") |};
            {| current_location := None; location_type := None |};
            {| current_location := Some (lit "Galp" ++ [227]%N ++ lit "o 2");
               location_type := None |} ]))
  = 3.
Proof.
  refine (proj1 (location_counts_account_for_assets
                   (fun asset =>
                      or_string (current_location asset)
                        (lit "Sem localiza" ++ [231; 227]%N ++ lit "o"))
                   [ {| current_location :=
                          Some (lit "Galp" ++ [227]%N ++ lit "o 2");
                        location_type := Some (lit "gps") |};
                     {| current_location := None; location_type := None |};
                     {| current_location :=
                          Some (lit "Galp" ++ [227]%N ++ lit "o 2");
                        location_type := None |} ] _)).
  repeat constructor.
Defined.

End LocationCounts.

(* ===================================================================== *)
(** * The CSV export of the inventory *)
(* ===================================================================== *)

Section CsvRows.

Import JSString ReportGenerator InventoryCsv.

Variable toLocaleString : Q -> jsstring.
Variable toLocaleDateString : Z -> jsstring.

(** Up to its first quotation mark a text is read in one way only. *)
Lemma quote_free_split (f f' rest rest' : jsstring) :
  quote_free f -> quote_free f' ->
  f ++ 34%N :: rest = f' ++ 34%N :: rest' -> f = f' /\ rest = rest'.
Proof.
  unfold quote_free. revert f'.
  induction f as [| c f IH]; intros [| c' f'] Hf Hf' E; simpl in *.
  - injection E as ->. auto.
  - injection E as <- _. exfalso. apply Hf'. now left.
  - injection E as -> _. exfalso. apply Hf. now left.
  - injection E as -> E.
    destruct (IH f') as [-> ->];
      [intros H; apply Hf; now right
      | intros H; apply Hf'; now right | assumption | auto].
Qed.

Lemma join_quoted_cons (f g : jsstring) (l : list jsstring) :
  join (lit ",") (map quoted (f :: g :: l))
  = 34%N :: f ++ 34%N :: 44%N :: join (lit ",") (map quoted (g :: l)).
Proof.
  cbn [map]. cbn [join]. unfold quoted at 1. simpl.
  now rewrite <- app_assoc.
Qed.

Lemma join_quoted_injective (l l' : list jsstring) :
  length l = length l' ->
  Forall quote_free l -> Forall quote_free l' ->
  join (lit ",") (map quoted l) = join (lit ",") (map quoted l') -> l = l'.
Proof.
  revert l'. induction l as [| f l IH]; intros [| f' l'] Hlen Hl Hl' E;
    try discriminate; [reflexivity |].
  inversion Hl as [| ? ? Hf Hl0]; inversion Hl' as [| ? ? Hf' Hl0']; subst.
  simpl in Hlen. injection Hlen as Hlen.
  destruct l as [| g l], l' as [| g' l']; try discriminate.
  - simpl in E. injection E as E.
    apply quote_free_split in E as [-> _]; auto.
  - rewrite !join_quoted_cons in E. injection E as E.
    apply quote_free_split in E as [-> E]; auto.
    injection E as E. f_equal. now apply IH.
Qed.

(** X24: a row of the CSV export determines its seven fields as long as
    none of them contains a quotation mark: two assets whose texts are
    free of quotation marks and whose rows are equal agree on all seven
    texts. *)
Theorem csv_row_determines_fields (a b : Asset) :
  Forall quote_free (fields toLocaleString toLocaleDateString a) ->
  Forall quote_free (fields toLocaleString toLocaleDateString b) ->
  row toLocaleString toLocaleDateString a
  = row toLocaleString toLocaleDateString b ->
  fields toLocaleString toLocaleDateString a
  = fields toLocaleString toLocaleDateString b.
Proof.
  intros Ha Hb E. now apply join_quoted_injective.
Qed.

End CsvRows.

Section CsvExamples.

Import JSString ReportGenerator InventoryCsv.

Lemma csv_row_determines_fields_witness :
  fields plain_number plain_date
    {| name := lit "Bomba 7"; code := lit "AST1"; categories_name := None;
       departments_name := None; purchase_value := 1200;
       status := Some (lit "active"); purchase_date := 18 |}
  = fields plain_number plain_date
    {| name := lit "Bomba 7"; code := lit "AST1";
       categories_name := Some (lit "Sem categoria");
       departments_name := None; purchase_value := 1200;
       status := Some (lit "active"); purchase_date := 18 |}.
Proof.
  apply (csv_row_determines_fields plain_number plain_date).
  - repeat constructor; vm_compute; intuition discriminate.
  - repeat constructor; vm_compute; intuition discriminate.
  - reflexivity.
Defined.

(** With a quotation mark in a name the fields are no longer told apart:
    nothing is escaped. *)
Example csv_row_ambiguous :
  let a := {| name := lit "a" ++ [34; 44; 34]%N ++ lit "b"; code := lit "c";
              categories_name := None; departments_name := None;
              purchase_value := 1200; status := None; purchase_date := 18 |} in
  let b := {| name := lit "a"; code := lit "b" ++ [34; 44; 34]%N ++ lit "c";
              categories_name := None; departments_name := None;
              purchase_value := 1200; status := None; purchase_date := 18 |} in
  row plain_number plain_date a = row plain_number plain_date b /\
  fields plain_number plain_date a <> fields plain_number plain_date b.
Proof. split; [reflexivity | discriminate]. Qed.

End CsvExamples.

(* ===================================================================== *)
(** * The uploads of the creation form *)
(* ===================================================================== *)

Section Uploads.

Import JSString ReportGenerator AssetUploads.

Variable accepts : list (jsstring * File) -> jsstring -> File -> bool.
Variable getPublicUrl : jsstring -> jsstring.
Variable toString : Z -> jsstring.
Variable extension : jsstring -> jsstring.

(** X25: the creation form never records an upload.  Whatever files are
    attached and whatever the bucket does, [handleSubmit] leaves the
    [documents] table as it was: the rows it sends have the types
    ['photo'] and ['document'], which the CHECK constraint of the table
    refuses, and the refusal raises nothing.  When the bucket accepts
    the files they are stored and no warning is shown. *)
Theorem uploads_are_never_recorded
    (b : Backend) (uid assetId : string) (photo document : option (File * Z)) :
  let b' := handleSubmit_uploads accepts getPublicUrl toString extension
              b uid assetId photo document in
  documents b' = documents b /\
  ((forall s p f, accepts s p f = true) ->
   toasts b' = toasts b /\
   length (storage b')
   = (length (storage b)
      + match photo with Some _ => 1 | None => 0 end
      + match document with Some _ => 1 | None => 0 end)%nat).
Proof.
  assert (H : forall b0 kind t w now file,
            type_check t = false ->
            let b1 := upload accepts getPublicUrl toString extension
                        b0 uid assetId kind t w now file in
            documents b1 = documents b0 /\
            ((forall s p f, accepts s p f = true) ->
             toasts b1 = toasts b0 /\
             length (storage b1) = S (length (storage b0)))).
  { intros b0 kind t w now file Ht. unfold upload.
    destruct (accepts (storage b0) _ file) eqn:Ea;
      cbn [storage documents toasts].
    - unfold insert_document. cbn [type]. rewrite Ht. cbn [andb].
      split; [reflexivity |]. intros _. split; [reflexivity |].
      rewrite length_app. simpl. lia.
    - split; [reflexivity |]. intros Hall. rewrite Hall in Ea. discriminate. }
  unfold handleSubmit_uploads.
  destruct photo as [[pf pn] |], document as [[df dn] |]; cbv zeta.
  - destruct (H b (lit "photo_") (lit "photo") PhotoWarning pn pf eq_refl)
      as [H1 H2].
    destruct (H (upload accepts getPublicUrl toString extension b uid assetId
                   (lit "photo_") (lit "photo") PhotoWarning pn pf)
                (lit "document_") (lit "document") DocumentWarning dn df
                eq_refl) as [H3 H4].
    split; [congruence |]. intros Hall.
    destruct (H2 Hall) as [T1 S1]. destruct (H4 Hall) as [T2 S2].
    split; [congruence | lia].
  - destruct (H b (lit "photo_") (lit "photo") PhotoWarning pn pf eq_refl)
      as [H1 H2].
    split; [assumption |]. intros Hall. destruct (H2 Hall) as [T1 S1].
    split; [assumption | lia].
  - destruct (H b (lit "document_") (lit "document") DocumentWarning dn df
                eq_refl) as [H1 H2].
    split; [assumption |]. intros Hall. destruct (H2 Hall) as [T1 S1].
    split; [assumption | lia].
  - split; [reflexivity |]. intros _. split; [reflexivity | lia].
Qed.

End Uploads.

Section UploadExamples.

Import JSString AssetUploads.

Lemma uploads_are_never_recorded_witness :
  toasts (handleSubmit_uploads accepts_all same_url fixed_clock png
            empty "alice" "a1" (Some (pump_photo, 1700000000000)) None)
  = toasts empty /\
  length (storage (handleSubmit_uploads accepts_all same_url fixed_clock png
                     empty "alice" "a1"
                     (Some (pump_photo, 1700000000000)) None))
  = (length (storage empty) + 1 + 0)%nat.
Proof.
  refine (proj2 (uploads_are_never_recorded accepts_all same_url fixed_clock
                   png empty "alice" "a1"
                   (Some (pump_photo, 1700000000000)) None) _).
  reflexivity.
Defined.

End UploadExamples.

(* ===================================================================== *)
(** * The filters of the asset list *)
(* ===================================================================== *)

Section ListFilters.

Import JSString ReportGenerator AssetListFilters.

Variable toLowerCase : jsstring -> jsstring.

Lemma includes_nil (s : jsstring) : includes s [] = true.
Proof. destruct s; reflexivity. Qed.

Lemma starts_with_app_l (t u s : jsstring) :
  starts_with (t ++ u) s = true -> starts_with t s = true.
Proof.
  revert s. induction t as [| c t IH]; intros s H; [reflexivity |].
  destruct s as [| d s]; [discriminate |].
  simpl in *. apply andb_prop in H as [Hc Ht].
  rewrite Hc. simpl. now apply IH.
Qed.

(** A text that contains [t ++ u] contains [t]. *)
Lemma includes_app_l (s t u : jsstring) :
  includes s (t ++ u) = true -> includes s t = true.
Proof.
  induction s as [| c s IH]; simpl; intros H.
  - rewrite orb_false_r in *. now apply starts_with_app_l in H.
  - apply orb_prop in H as [H | H].
    + apply starts_with_app_l in H. now rewrite H.
    + rewrite (IH H). apply orb_true_r.
Qed.

(** X26: the filters of the asset list only narrow it.  With nothing
    typed and every select on "all" the list shows every asset, and
    typing more characters into the search field never brings back an
    asset the shorter text had hidden.  ([toLowerCase] is taken to map
    the empty text to itself and the longer text piece by piece, as it
    does except where the lower-case form of a letter depends on its
    neighbours.) *)
Theorem search_only_narrows (f : Filters) (more : jsstring)
    (assets : list Asset) :
  toLowerCase [] = [] ->
  toLowerCase (searchTerm f ++ more)
  = toLowerCase (searchTerm f) ++ toLowerCase more ->
  filteredAssets toLowerCase initial assets = assets /\
  (forall asset,
     In asset (filteredAssets toLowerCase
                 (with_search f (searchTerm f ++ more)) assets) ->
     In asset (filteredAssets toLowerCase f assets)).
Proof.
  intros Hnil Happ. split.
  - unfold filteredAssets.
    induction assets as [| a assets IH]; [reflexivity |].
    simpl. rewrite IH.
    unfold matchesSearch. cbn [searchTerm initial].
    rewrite Hnil, includes_nil. reflexivity.
  - intros a Ha. unfold filteredAssets in *.
    apply filter_In in Ha as [Hin Ha]. apply filter_In.
    split; [assumption |].
    apply andb_prop in Ha as [Ha Hr]. apply andb_prop in Ha as [Ha Hs].
    apply andb_prop in Ha as [Ha Hc].
    change (matchesCategory (with_search f (searchTerm f ++ more)) a)
      with (matchesCategory f a) in Hc.
    change (matchesStatus (with_search f (searchTerm f ++ more)) a)
      with (matchesStatus f a) in Hs.
    change (matchesResponsible (with_search f (searchTerm f ++ more)) a)
      with (matchesResponsible f a) in Hr.
    rewrite Hc, Hs, Hr, !andb_true_r.
    unfold matchesSearch in *. cbn [searchTerm with_search] in Ha.
    rewrite Happ in Ha.
    apply orb_prop in Ha as [Ha | Ha]; [apply orb_prop in Ha as [Ha | Ha] |].
    + apply includes_app_l in Ha. now rewrite Ha.
    + apply includes_app_l in Ha. rewrite Ha. now rewrite orb_true_r.
    + destruct (serial_number a) as [[| c s] |]; try discriminate.
      apply includes_app_l in Ha. rewrite Ha. now rewrite orb_true_r.
Qed.

End ListFilters.

Section ListFilterExamples.

Import JSString ReportGenerator AssetListFilters.

Lemma search_only_narrows_witness :
  filteredAssets ascii_lower initial [pump] = [pump] /\
  (forall asset,
     In asset (filteredAssets ascii_lower
                 (with_search (with_search initial (lit "Bom"))
                              (lit "Bom" ++ lit "ba")) [pump]) ->
     In asset (filteredAssets ascii_lower (with_search initial (lit "Bom"))
                 [pump])).
Proof.
  apply (search_only_narrows ascii_lower (with_search initial (lit "Bom"))
           (lit "ba") [pump]); reflexivity.
Defined.

End ListFilterExamples.
